(** * Animation-to-video export of the mol* fork: a shallow embedding

    The development models the export routines of the three revisions of
    [src/extensions/mp4-export/encoder.ts]:

    - [Mp4.encodeMp4Animation]        (in-process H.264 encoder, try/finally);
    - [WebmDual.encodeWebmAnimation]  (ffmpeg, two output files, try/catch);
    - [WebmSingle.encodeWebmAnimation] (ffmpeg, one output file, inside a
      promise executor, try/catch).

    It also models the helper [pad] of the one-file revision and, in
    [Renderer], the callers of the command-line renderer
    [src/examples/image-renderer/index.ts]: [exportMovie] and
    [processFilesInDirectory].

    The renderer, the animation loop, the animation manager, the progress
    context and the encoders are external objects.  Every call into them is
    recorded in a chronological trace and may throw, as decided by an
    environment; the objects' relevant fields live in an explicit state. *)

From Stdlib Require Import ZArith QArith Qround Qabs Bool List String Lia Lqa.
From Stdlib Require Import DecimalString DecimalZ SpecFloat.
Import ListNotations.

Local Open Scope Z_scope.

(** ** JavaScript numbers

    Pixel quantities are modelled as integers ([Z]).  Times and rates are
    IEEE 754 doubles: a finite double is the rational it denotes, and every
    division and multiplication of the sampler rounds its exact result to
    the nearest double, ties to even ([round_double]).  The exponent range
    is taken as unbounded: overflow to infinity and underflow to subnormal
    numbers are not modelled.  The results of [/] and [*] can leave the
    finite numbers (division by a zero sample count), so they live in
    [number].  Negative zero is identified with zero: a sample count of
    [-0] makes the same single turn as [0], and the sign it gives an infinite
    step is lost when the step is multiplied by the sample index [0]. *)

(** [num / den], for [den > 0], rounded to the nearest integer, ties to the
    even one. *)
Definition rne (num den : Z) : Z :=
  let m := num / den in
  match 2 * (num mod den) ?= den with
  | Lt => m
  | Gt => m + 1
  | Eq => if Z.even m then m else m + 1
  end.

(** The binary exponent of [n / d]: the [e] with [2^e <= n / d < 2^(e+1)]. *)
Definition binade (n d : positive) : Z :=
  let e := Z.log2 (Zpos n) - Z.log2 (Zpos d) in
  if Zpos d * 2 ^ Z.max 0 e <=? Zpos n * 2 ^ Z.max 0 (- e) then e else e - 1.

(** [n / d] rounded to 53 significant bits: with [s = 52 - e], the
    significand [n / d * 2^s] lies in [[2^52, 2^53)] and is rounded to an
    integer [m]; the result is [m / 2^s]. *)
Definition round_pos (n d : positive) : Q :=
  let s := 52 - binade n d in
  let m := rne (Zpos n * 2 ^ Z.max 0 s) (Zpos d * 2 ^ Z.max 0 (- s)) in
  Qmake (m * 2 ^ Z.max 0 (- s)) (Z.to_pos (2 ^ Z.max 0 s)).

(** The double nearest to the rational [q]. *)
Definition round_double (q : Q) : Q :=
  match Qnum q with
  | 0 => 0%Q
  | Zpos n => round_pos n (Qden q)
  | Zneg n => (- round_pos n (Qden q))%Q
  end.

(** The unit roundoff [2^-53] of doubles. *)
Definition unit_roundoff : Q := 1 # 9007199254740992.

Inductive number : Type :=
| Fin (q : Q)
| NaN
| PosInf
| NegInf.

(** [x / y] on finite operands. *)
Definition js_div (x y : Q) : number :=
  if Qeq_bool y 0 then
    match (x ?= 0)%Q with
    | Eq => NaN
    | Gt => PosInf
    | Lt => NegInf
    end
  else Fin (round_double (x / y)).

(** [k * t] for a finite [k]. *)
Definition js_mul (k : Q) (t : number) : number :=
  match t with
  | Fin q => Fin (round_double (k * q))
  | NaN => NaN
  | PosInf =>
      match (k ?= 0)%Q with Eq => NaN | Gt => PosInf | Lt => NegInf end
  | NegInf =>
      match (k ?= 0)%Q with Eq => NaN | Gt => NegInf | Lt => PosInf end
  end.

(** The binary64 numbers of the Standard Library, read as rationals; they
    serve to check [round_double] on examples. *)
Definition binary64_of_Z (z : Z) : spec_float :=
  binary_normalize 53 1024 z 0 false.

Definition Q_of_binary64 (f : spec_float) : option Q :=
  match f with
  | S754_zero _ => Some 0%Q
  | S754_finite s m e =>
      let v :=
        (inject_Z (Zpos m)
         * (if 0 <=? e then inject_Z (2 ^ e) else / inject_Z (2 ^ (- e))))%Q in
      Some (if s then (- v)%Q else v)
  | _ => None
  end.

Definition is_binary64 (f : spec_float) (q : Q) : bool :=
  match Q_of_binary64 f with
  | Some x => Qeq_bool x q
  | None => false
  end.

(** Truthiness of a finite number: [if (v)]. *)
Definition truthy (v : Q) : bool := negb (Qeq_bool v 0).

(** Truthiness of an optional number: [undefined] is falsy. *)
Definition truthy_opt (v : option Q) : bool :=
  match v with
  | Some q => truthy q
  | None => false
  end.

(** A number read at the finite value [q]. *)
Definition is_time (t : number) (q : Q) : Prop :=
  match t with
  | Fin r => (r == q)%Q
  | _ => False
  end.

(** ** Data model *)

Definition Color := Z.

Record Viewport : Type := mkViewport {
  vp_x : Z;
  vp_y : Z;
  vp_width : Z;
  vp_height : Z
}.

(** Modelled from the spec: the postprocessing property bag and
    [ParamDefinition.merge] are declared outside the files at hand.  The bag
    is a key/value list read by its first binding, and merging puts the
    overrides in front, so that they win on key collision. *)
Definition PostprocessingProps := list (string * Z).

Fixpoint prop_lookup (k : string) (p : PostprocessingProps) : option Z :=
  match p with
  | [] => None
  | (k', v) :: rest => if String.eqb k k' then Some v else prop_lookup k rest
  end.

Definition merge (a : PostprocessingProps) (b : option PostprocessingProps)
  : PostprocessingProps :=
  match b with
  | None => a
  | Some o => o ++ a
  end.

(** Modelled from the spec: [PluginStateAnimation.getDuration] is declared
    outside the files at hand; it is a pure query answering a number of
    milliseconds or [undefined]. *)
Record AnimationInstance : Type := mkAnimation {
  anim_name : string;
  anim_durationMs : option Q
}.

Definition getDuration (a : AnimationInstance) : option Q := anim_durationMs a.

Record Mp4EncoderParams : Type := mkParams {
  customBackground : option Color;
  animation : AnimationInstance;
  postprocessing : option PostprocessingProps;
  width : Z;
  height : Z;
  viewport : Viewport;
  fps : option Q;
  quantizationParameter : option Q
}.

(** A captured frame: the clock time it was rendered at and the arguments
    the frame source was asked with. *)
Record Image : Type := mkImage {
  img_time : number;
  img_width : Z;
  img_height : Z;
  img_viewport : Viewport
}.

(** The two canvas properties the exporter touches. *)
Record CanvasProps : Type := mkCanvasProps {
  backgroundColor : Color;
  transparentBackground : bool
}.

(** The in-process H.264 encoder object. *)
Record Encoder : Type := mkEncoder {
  enc_width : Z;
  enc_height : Z;
  enc_quantizationParameter : Q;
  enc_frameRate : Q;
  enc_initialized : bool;
  enc_frames : list Image;
  enc_finalized : bool;
  enc_deleted : bool
}.

(** The properties of the encoder object that the exporter writes. *)
Inductive EncoderField : Type :=
| Width
| Height
| QuantizationParameter
| FrameRate.

Inductive Error : Type :=
| ViewportExceeds       (* 'Viewport exceeds the canvas dimensions.' *)
| DurationUnspecified   (* 'The animation does not have the duration specified.' *)
| CallFailed (k : nat)  (* the external call number [k] of the trace threw *)
| FfmpegError           (* the 'error' event of an ffmpeg command *)
| SettingRefused (f : EncoderField). (* the encoder object refused a value *)

Inductive Progress : Type :=
| Initializing
| Rendering (current max : Z)
| Current (current : Z)
| Finishing.

(** Calls into the external objects. *)
Inductive Call : Type :=
| CtxUpdate (u : Progress)
| CreateH264MP4Encoder
| EncoderInitialize
| PassSetProps (pp : PostprocessingProps)
| LoopStop
| LoopResetTime (t : Z)
| LoopStart
| CanvasSetProps (bg : option Color) (transparent : option bool)
                 (doNotRequestDraw : bool)
| PassUpdateBackground
| AnimationPlay
| AnimationStop
| LoopTick (t : number) (currentFrame frameCount : Z)
| PassGetImageData (w h : Z) (vp : Viewport)
| EncoderAddFrameRgba (img : Image)
| EncoderFinalize
| FSReadFile
| EncoderDelete
| ConsoleError (e : Error)
| ConsoleTime (label : string)
| ConsoleTimeEnd (label : string)
| FfmpegSave (codec : string) (w h : Z) (rate : Q) (options : list string)
             (frames : list Image) (file : string).

(** The state of the external objects, the trace of calls made so far and
    the mutable locals of the running job ([stoppedAnimation], [finalized]
    of [encodeMp4Animation]; [images] of [encodeWebmAnimation]). *)
Record State : Type := mkState {
  trace : list Call;
  isAnimating : bool;            (* plugin.animationLoop.isAnimating *)
  loopTime : number;             (* the clock of the animation loop *)
  canvas3d : option CanvasProps; (* plugin.canvas3d, possibly undefined *)
  passPostprocessing : PostprocessingProps; (* params.pass.props.postprocessing *)
  animationPlaying : bool;       (* plugin.managers.animation *)
  encoder : Encoder;
  images : list Image;
  stoppedAnimation : bool;
  finalized : bool
}.

Definition set_trace (v : list Call) (s : State) : State :=
  mkState v (isAnimating s) (loopTime s) (canvas3d s) (passPostprocessing s)
          (animationPlaying s) (encoder s) (images s) (stoppedAnimation s)
          (finalized s).

Definition set_isAnimating (v : bool) (s : State) : State :=
  mkState (trace s) v (loopTime s) (canvas3d s) (passPostprocessing s)
          (animationPlaying s) (encoder s) (images s) (stoppedAnimation s)
          (finalized s).

Definition set_loopTime (v : number) (s : State) : State :=
  mkState (trace s) (isAnimating s) v (canvas3d s) (passPostprocessing s)
          (animationPlaying s) (encoder s) (images s) (stoppedAnimation s)
          (finalized s).

Definition set_canvas3d (v : option CanvasProps) (s : State) : State :=
  mkState (trace s) (isAnimating s) (loopTime s) v (passPostprocessing s)
          (animationPlaying s) (encoder s) (images s) (stoppedAnimation s)
          (finalized s).

Definition set_passPostprocessing (v : PostprocessingProps) (s : State) : State :=
  mkState (trace s) (isAnimating s) (loopTime s) (canvas3d s) v
          (animationPlaying s) (encoder s) (images s) (stoppedAnimation s)
          (finalized s).

Definition set_animationPlaying (v : bool) (s : State) : State :=
  mkState (trace s) (isAnimating s) (loopTime s) (canvas3d s)
          (passPostprocessing s) v (encoder s) (images s) (stoppedAnimation s)
          (finalized s).

Definition set_encoder (v : Encoder) (s : State) : State :=
  mkState (trace s) (isAnimating s) (loopTime s) (canvas3d s)
          (passPostprocessing s) (animationPlaying s) v (images s)
          (stoppedAnimation s) (finalized s).

Definition set_images (v : list Image) (s : State) : State :=
  mkState (trace s) (isAnimating s) (loopTime s) (canvas3d s)
          (passPostprocessing s) (animationPlaying s) (encoder s) v
          (stoppedAnimation s) (finalized s).

Definition set_stoppedAnimation (v : bool) (s : State) : State :=
  mkState (trace s) (isAnimating s) (loopTime s) (canvas3d s)
          (passPostprocessing s) (animationPlaying s) (encoder s) (images s)
          v (finalized s).

Definition set_finalized (v : bool) (s : State) : State :=
  mkState (trace s) (isAnimating s) (loopTime s) (canvas3d s)
          (passPostprocessing s) (animationPlaying s) (encoder s) (images s)
          (stoppedAnimation s) v.

(** Encoder field updates. *)
Definition enc_set_width (v : Z) (e : Encoder) : Encoder :=
  mkEncoder v (enc_height e) (enc_quantizationParameter e) (enc_frameRate e)
            (enc_initialized e) (enc_frames e) (enc_finalized e) (enc_deleted e).

Definition enc_set_height (v : Z) (e : Encoder) : Encoder :=
  mkEncoder (enc_width e) v (enc_quantizationParameter e) (enc_frameRate e)
            (enc_initialized e) (enc_frames e) (enc_finalized e) (enc_deleted e).

Definition enc_set_quantizationParameter (v : Q) (e : Encoder) : Encoder :=
  mkEncoder (enc_width e) (enc_height e) v (enc_frameRate e)
            (enc_initialized e) (enc_frames e) (enc_finalized e) (enc_deleted e).

Definition enc_set_frameRate (v : Q) (e : Encoder) : Encoder :=
  mkEncoder (enc_width e) (enc_height e) (enc_quantizationParameter e) v
            (enc_initialized e) (enc_frames e) (enc_finalized e) (enc_deleted e).

Definition enc_set_initialized (v : bool) (e : Encoder) : Encoder :=
  mkEncoder (enc_width e) (enc_height e) (enc_quantizationParameter e)
            (enc_frameRate e) v (enc_frames e) (enc_finalized e) (enc_deleted e).

Definition enc_set_frames (v : list Image) (e : Encoder) : Encoder :=
  mkEncoder (enc_width e) (enc_height e) (enc_quantizationParameter e)
            (enc_frameRate e) (enc_initialized e) v (enc_finalized e)
            (enc_deleted e).

Definition enc_set_finalized (v : bool) (e : Encoder) : Encoder :=
  mkEncoder (enc_width e) (enc_height e) (enc_quantizationParameter e)
            (enc_frameRate e) (enc_initialized e) (enc_frames e) v
            (enc_deleted e).

Definition enc_set_deleted (v : bool) (e : Encoder) : Encoder :=
  mkEncoder (enc_width e) (enc_height e) (enc_quantizationParameter e)
            (enc_frameRate e) (enc_initialized e) (enc_frames e)
            (enc_finalized e) v.

(** The documented default of the frame rate ([/** default is 30 */]). *)
Definition default_frameRate : Q := 30%Q.

(** ** The environment

    [throws h c] tells whether the call [c], made after the calls [h], throws;
    [shouldUpdate h] is the getter [ctx.shouldUpdate] read after [h];
    [default_quantizationParameter] is the encoder library's own default;
    [ffmpegFails] tells whether the single ffmpeg command of
    [WebmSingle.encodeWebmAnimation] later emits its 'error' event.
    The encoder object converts what is written to its properties:
    [refuses f v] tells whether writing [v] to the property [f] throws, and
    [keeps f v] is the value the property holds after the write and gives
    back when it is read. *)
Record Env : Type := mkEnv {
  throws : list Call -> Call -> bool;
  shouldUpdate : list Call -> bool;
  default_quantizationParameter : Q;
  ffmpegFails : bool;
  refuses : EncoderField -> Q -> bool;
  keeps : EncoderField -> Q -> Q
}.

(** A freshly created encoder. *)
Definition fresh_encoder (env : Env) : Encoder :=
  mkEncoder 0 0 (default_quantizationParameter env) default_frameRate
            false [] false false.

(** [setProps] writes the properties it is given and keeps the others. *)
Definition canvas_update (bg : option Color) (tb : option bool)
           (cp : CanvasProps) : CanvasProps :=
  mkCanvasProps
    (match bg with Some c => c | None => backgroundColor cp end)
    (match tb with Some b => b | None => transparentBackground cp end).

(** The encoder after its property [f] has taken the value [v]; the pixel
    sizes are integers. *)
Definition enc_store (f : EncoderField) (v : Q) (e : Encoder) : Encoder :=
  match f with
  | Width => enc_set_width (Qfloor v) e
  | Height => enc_set_height (Qfloor v) e
  | QuantizationParameter => enc_set_quantizationParameter v e
  | FrameRate => enc_set_frameRate v e
  end.

(** What a call that returns does to the external objects. *)
Definition effect (env : Env) (c : Call) (s : State) : State :=
  match c with
  | CreateH264MP4Encoder => set_encoder (fresh_encoder env) s
  | EncoderInitialize => set_encoder (enc_set_initialized true (encoder s)) s
  | PassSetProps pp => set_passPostprocessing pp s
  | LoopStop => set_isAnimating false s
  | LoopResetTime t => set_loopTime (Fin (inject_Z t)) s
  | LoopStart => set_isAnimating true s
  | CanvasSetProps bg tb _ =>
      set_canvas3d (option_map (canvas_update bg tb) (canvas3d s)) s
  | AnimationPlay => set_animationPlaying true s
  | AnimationStop => set_animationPlaying false s
  | LoopTick t _ _ => set_loopTime t s
  | EncoderAddFrameRgba img =>
      set_encoder (enc_set_frames (enc_frames (encoder s) ++ [img]) (encoder s)) s
  | EncoderFinalize => set_encoder (enc_set_finalized true (encoder s)) s
  | EncoderDelete => set_encoder (enc_set_deleted true (encoder s)) s
  | CtxUpdate _ | PassUpdateBackground | PassGetImageData _ _ _ | FSReadFile
  | ConsoleError _ | ConsoleTime _ | ConsoleTimeEnd _
  | FfmpegSave _ _ _ _ _ _ _ => s
  end.

(** ** The monad of jobs: state passing with exceptions *)

Inductive Result (A : Type) : Type :=
| Ok (a : A)
| Throw (e : Error).
Arguments Ok {A} a.
Arguments Throw {A} e.

Definition M (A : Type) : Type := State -> Result A * State.

Definition ret {A} (a : A) : M A := fun s => (Ok a, s).

Definition throw {A} (e : Error) : M A := fun s => (Throw e, s).

Definition bind {A B} (m : M A) (k : A -> M B) : M B :=
  fun s =>
    match m s with
    | (Ok a, s') => k a s'
    | (Throw e, s') => (Throw e, s')
    end.

Definition get : M State := fun s => (Ok s, s).

Definition modify (f : State -> State) : M unit := fun s => (Ok tt, f s).

Declare Scope job_scope.
Delimit Scope job_scope with job.
Notation "x <- m ;; k" := (bind m (fun x => k))
  (at level 61, m at next level, right associativity) : job_scope.
Notation "m ;; k" := (bind m (fun _ => k))
  (at level 61, right associativity) : job_scope.

(** [when c m]: [if (c) m]. *)
Definition when (c : bool) (m : M unit) : M unit :=
  if c then m else ret tt.

(** [try { body } finally { fin }]: the finally block always runs; when it
    throws, its error replaces the outcome of the body. *)
Definition try_finally {A} (body : M A) (fin : M unit) : M A :=
  fun s =>
    match body s with
    | (r, s1) =>
        match fin s1 with
        | (Ok _, s2) => (r, s2)
        | (Throw e, s2) => (Throw e, s2)
        end
    end.

(** [try { body } catch (e) { handler e }]. *)
Definition try_catch {A} (body : M A) (handler : Error -> M A) : M A :=
  fun s =>
    match body s with
    | (Ok a, s1) => (Ok a, s1)
    | (Throw e, s1) => handler e s1
    end.

Local Open Scope job_scope.

Section Jobs.

Variable env : Env.

(** An external call: it is appended to the trace; it either throws, leaving
    the objects as they are, or returns after its effect. *)
Definition call (c : Call) : M unit :=
  fun s =>
    let s' := set_trace (trace s ++ [c]) s in
    if throws env (trace s) c
    then (Throw (CallFailed (List.length (trace s))), s')
    else (Ok tt, effect env c s').

(** [encoder.f = v]: the encoder object refuses the value, and the write
    throws, or it keeps a value of its own for it. *)
Definition assign (f : EncoderField) (v : Q) : M unit :=
  fun s =>
    if refuses env f v
    then (Throw (SettingRefused f), s)
    else (Ok tt, set_encoder (enc_store f (keeps env f v) (encoder s)) s).

(** [for (let i = lo; i <= hi; i++) body(i)].  The bound is finite, so the
    loop makes at most [hi + 1 - lo] turns, which is the fuel. *)
Fixpoint for_loop (fuel : nat) (i hi : Z) (body : Z -> M unit) : M unit :=
  match fuel with
  | O => ret tt
  | S fuel' =>
      if i <=? hi
      then body i ;; for_loop fuel' (i + 1) hi body
      else ret tt
  end.

Definition for_to (lo hi : Z) (body : Z -> M unit) : M unit :=
  for_loop (Z.to_nat (hi + 1 - lo)) lo hi body.

(** [plugin.canvas3d?.setProps(...)]. *)
Definition canvas3d_setProps (bg : option Color) (tb : option bool)
           (doNotRequestDraw : bool) : M unit :=
  s <- get ;;
  match canvas3d s with
  | None => ret tt
  | Some _ => call (CanvasSetProps bg tb doNotRequestDraw)
  end.

(** [params.pass.getImageData(width, height, viewport)]. *)
Definition getImageData (w h : Z) (vp : Viewport) : M Image :=
  call (PassGetImageData w h vp) ;;
  s <- get ;;
  ret (mkImage (loopTime s) w h vp).

(** [if (v % 2 !== 0) v -= 1]. *)
Definition even_align (v : Z) : Z :=
  if Z.rem v 2 =? 0 then v else v - 1.

(** [Math.ceil(durationMs / 1000 * fps)]: the quotient and the product are
    rounded to doubles; the ceiling of a double is exact. *)
Definition sampleCount (durationMs rate : Q) : Z :=
  Qceiling (round_double (round_double (durationMs / 1000) * rate)).

(** [durationMs / N]. *)
Definition stepMs (durationMs : Q) (N : Z) : number :=
  js_div durationMs (inject_Z N).

Definition viewport_exceeds (p : Mp4EncoderParams) : bool :=
  (vp_x (viewport p) + vp_width (viewport p) >? width p)
  || (vp_y (viewport p) + vp_height (viewport p) >? height p).

Definition validateViewport (p : Mp4EncoderParams) : M unit :=
  if viewport_exceeds p then throw ViewportExceeds else ret tt.

End Jobs.

(** ** [encodeMp4Animation] of [src/extensions/mp4-export/encoder.ts] *)

Module Mp4.

(** Lines 75-76: [if (v) encoder.field = v]. *)
Definition assign_if_truthy (env : Env) (v : option Q) (f : EncoderField)
  : M unit :=
  match v with
  | Some q => when (truthy q) (assign env f q)
  | None => ret tt
  end.

(** Lines 105-114: one turn of the sampling loop. *)
Definition sample (env : Env) (p : Mp4EncoderParams)
           (normalizedViewport : Viewport) (N : Z) (dt : number) (i : Z)
  : M unit :=
  call env (LoopTick (js_mul (inject_Z i) dt) i N) ;;
  image <- getImageData env (width p) (height p) normalizedViewport ;;
  call env (EncoderAddFrameRgba image) ;;
  s <- get ;;
  when (shouldUpdate env (trace s)) (call env (CtxUpdate (Current (i + 1)))).

(** Lines 89-122: the body of the [try] block. *)
Definition try_block (env : Env) (p : Mp4EncoderParams) (durationMs : Q)
           (normalizedViewport : Viewport) : M (list Image) :=
  call env LoopStop ;;
  call env (LoopResetTime 0) ;;
  match customBackground p with
  | Some c => canvas3d_setProps env (Some c) (Some false) true
  | None => ret tt
  end ;;
  s <- get ;;
  let fps := enc_frameRate (encoder s) in
  let N := sampleCount durationMs fps in
  let dt := stepMs durationMs N in
  call env (CtxUpdate (Rendering 0 (N + 1))) ;;
  call env PassUpdateBackground ;;
  call env AnimationPlay ;;
  modify (set_stoppedAnimation false) ;;
  for_to 0 N (sample env p normalizedViewport N dt) ;;
  call env (CtxUpdate Finishing) ;;
  call env AnimationStop ;;
  modify (set_stoppedAnimation true) ;;
  call env EncoderFinalize ;;
  modify (set_finalized true) ;;
  call env FSReadFile ;;
  s <- get ;;
  ret (enc_frames (encoder s)).

(** Lines 125-132: the [finally] block. *)
Definition finally_block (env : Env) (p : Mp4EncoderParams)
           (canvasProps : option CanvasProps) (wasAnimating : bool) : M unit :=
  s <- get ;;
  when (finalized s) (call env EncoderDelete) ;;
  match customBackground p with
  | Some _ =>
      canvas3d_setProps env (option_map backgroundColor canvasProps)
                        (option_map transparentBackground canvasProps) false
  | None => ret tt
  end ;;
  s <- get ;;
  when (negb (stoppedAnimation s)) (call env AnimationStop) ;;
  when wasAnimating (call env LoopStart).

Definition encodeMp4Animation (env : Env) (p : Mp4EncoderParams)
  : M (list Image) :=
  call env (CtxUpdate Initializing) ;;
  validateViewport p ;;
  match getDuration (animation p) with
  | None => throw DurationUnspecified
  | Some durationMs =>
      call env CreateH264MP4Encoder ;;
      let vw := even_align (vp_width (viewport p)) in
      let vh := even_align (vp_height (viewport p)) in
      let normalizedViewport :=
        mkViewport (vp_x (viewport p)) (vp_y (viewport p)) vw vh in
      assign env Width (inject_Z vw) ;;
      assign env Height (inject_Z vh) ;;
      assign_if_truthy env (quantizationParameter p) QuantizationParameter ;;
      assign_if_truthy env (fps p) FrameRate ;;
      call env EncoderInitialize ;;
      s <- get ;;
      let canvasProps := canvas3d s in
      let wasAnimating := isAnimating s in
      modify (set_stoppedAnimation true) ;;
      modify (set_finalized false) ;;
      call env (PassSetProps (merge (passPostprocessing s) (postprocessing p))) ;;
      try_finally (try_block env p durationMs normalizedViewport)
                  (finally_block env p canvasProps wasAnimating)
  end.

End Mp4.

(** ** [encodeWebmAnimation], the revision writing two files *)

Module WebmDual.

(** [if (!params.fps) params.fps = 30]. *)
Definition resolve_fps (v : option Q) : Q :=
  match v with
  | Some q => if truthy q then q else 30%Q
  | None => 30%Q
  end.

(** One turn of the sampling loop. *)
Definition sample (env : Env) (p : Mp4EncoderParams)
           (normalizedViewport : Viewport) (N : Z) (dt : number) (i : Z)
  : M unit :=
  call env (LoopTick (js_mul (inject_Z i) dt) i N) ;;
  frame <- getImageData env (width p) (height p) normalizedViewport ;;
  modify (fun s => set_images (images s ++ [frame]) s).

(** The body of the [try] block. *)
Definition try_block (env : Env) (p : Mp4EncoderParams)
           (outputFilename : string) : M unit :=
  call env (CtxUpdate Initializing) ;;
  let fps := resolve_fps (fps p) in
  validateViewport p ;;
  match getDuration (animation p) with
  | None => throw DurationUnspecified
  | Some durationMs =>
      let vw := even_align (vp_width (viewport p)) in
      let vh := even_align (vp_height (viewport p)) in
      let normalizedViewport :=
        mkViewport (vp_x (viewport p)) (vp_y (viewport p)) vw vh in
      s <- get ;;
      call env (PassSetProps (merge (passPostprocessing s) (postprocessing p))) ;;
      call env LoopStop ;;
      call env (LoopResetTime 0) ;;
      match customBackground p with
      | Some c => canvas3d_setProps env (Some c) (Some true) true
      | None => ret tt
      end ;;
      let N := sampleCount durationMs fps in
      let dt := stepMs durationMs N in
      call env (CtxUpdate (Rendering 0 (N + 1))) ;;
      call env PassUpdateBackground ;;
      call env AnimationPlay ;;
      modify (set_images []) ;;
      for_to 0 N (sample env p normalizedViewport N dt) ;;
      s <- get ;;
      call env (FfmpegSave "hevc_nvenc" (width p) (height p) fps
                           ["-tag:v hvc1"%string] (images s)
                           (outputFilename ++ ".mov")) ;;
      call env (FfmpegSave "libvpx-vp9" (width p) (height p) fps
                           ["-crf 50"%string] (images s)
                           (outputFilename ++ ".webm"))
  end.

Definition encodeWebmAnimation (env : Env) (p : Mp4EncoderParams)
           (outputFilename : string) : M unit :=
  try_catch (try_block env p outputFilename)
            (fun e => call env (ConsoleError e)).

End WebmDual.

(** ** [encodeWebmAnimation], the revision writing one file *)

Module WebmSingle.

(** The state of the promise handed to the caller when the executor has
    run and the ffmpeg command, if started, has ended. *)
Inductive Promise : Type :=
| Pending
| Rejected (e : Error).

Definition resolve_fps (v : option Q) : Q :=
  match v with
  | Some q => if truthy q then q else 30%Q
  | None => 30%Q
  end.

(** One turn of the sampling loop. *)
Definition sample (env : Env) (p : Mp4EncoderParams)
           (normalizedViewport : Viewport) (N : Z) (dt : number) (i : Z)
  : M unit :=
  call env (LoopTick (js_mul (inject_Z i) dt) i N) ;;
  frame <- getImageData env (width p) (height p) normalizedViewport ;;
  modify (fun s => set_images (images s ++ [frame]) s).

(** The body of the [try] block; it answers whether [reject] was called. *)
Definition try_block (env : Env) (p : Mp4EncoderParams) : M Promise :=
  let outputFilename := "../outputs_1qtn-4/video.webm"%string in
  call env (CtxUpdate Initializing) ;;
  let fps := resolve_fps (fps p) in
  validateViewport p ;;
  match getDuration (animation p) with
  | None => throw DurationUnspecified
  | Some durationMs =>
      let vw := even_align (vp_width (viewport p)) in
      let vh := even_align (vp_height (viewport p)) in
      let normalizedViewport :=
        mkViewport (vp_x (viewport p)) (vp_y (viewport p)) vw vh in
      s <- get ;;
      call env (PassSetProps (merge (passPostprocessing s) (postprocessing p))) ;;
      call env LoopStop ;;
      call env (LoopResetTime 0) ;;
      match customBackground p with
      | Some c => canvas3d_setProps env (Some c) (Some false) true
      | None => ret tt
      end ;;
      let N := sampleCount durationMs fps in
      let dt := stepMs durationMs N in
      call env (CtxUpdate (Rendering 0 (N + 1))) ;;
      call env PassUpdateBackground ;;
      call env AnimationPlay ;;
      modify (set_images []) ;;
      call env (ConsoleTime "boucle for") ;;
      for_to 0 N (sample env p normalizedViewport N dt) ;;
      call env (ConsoleTimeEnd "boucle for") ;;
      s <- get ;;
      call env (ConsoleTime "ffmpeg") ;;
      call env (FfmpegSave "libvpx-vp9" (width p) (height p) fps
                           ["-crf"%string; "50"%string] (images s)
                           outputFilename) ;;
      ret (if ffmpegFails env then Rejected FfmpegError else Pending)
  end.

(** [new Promise(async (resolve, reject) => { try { ... } catch (e) {
    console.error(e) } })].  The promise is never resolved: the executor only
    ever rejects it, from the 'error' handler of the ffmpeg command.  What
    the [catch] block itself throws rejects the promise of the executor,
    which nobody holds, and leaves the promise of the caller pending. *)
Definition encodeWebmAnimation (env : Env) (p : Mp4EncoderParams) : M Promise :=
  try_catch
    (try_catch (try_block env p)
               (fun e => call env (ConsoleError e) ;; ret Pending))
    (fun _ => ret Pending).

End WebmSingle.

(** ** Runs used as examples *)

(** An environment in which no call throws and the encoder keeps what it
    is given. *)
Definition quiet : Env :=
  mkEnv (fun _ _ => false) (fun _ => true) 33%Q false
        (fun _ _ => false) (fun _ v => v).

Definition idle_encoder : Encoder := mkEncoder 0 0 0%Q 0%Q false [] false false.

(** A viewer before a job: the clock runs, nothing plays. *)
Definition viewer (canvas : option CanvasProps) (pp : PostprocessingProps)
  : State :=
  mkState [] true (Fin 0%Q) canvas pp false idle_encoder [] true false.

Definition spin (durationMs : Q) : AnimationInstance :=
  mkAnimation "built-in.animate-camera-spin" (Some durationMs).

(** Scenario A of the specification. *)
Definition jobA : Mp4EncoderParams :=
  mkParams None (spin 5000%Q) None 800 800 (mkViewport 0 0 800 800)
           (Some 30%Q) (Some 18%Q).

Definition viewer0 : State := viewer (Some (mkCanvasProps 16777215 false)) [].

(** ** Reasoning about jobs: weakest preconditions

    [wp m Q E s]: run from [s], the job [m] either returns [a] in a state
    satisfying [Q a], or throws [e] in a state satisfying [E e]. *)

Definition wp {A} (m : M A) (Q : A -> State -> Prop)
           (E : Error -> State -> Prop) (s : State) : Prop :=
  match m s with
  | (Ok a, s') => Q a s'
  | (Throw e, s') => E e s'
  end.

(** The state right after the call [c] has been logged. *)
Definition logged (c : Call) (s : State) : State :=
  set_trace (trace s ++ [c]) s.


(** ** Observations on traces and schedules *)

(** No external call ever throws. *)
Definition never_throws (env : Env) : Prop :=
  forall h c, throws env h c = false.

(** [lo; lo + 1; ...] of length [n]. *)
Definition zrange (lo : Z) (n : nat) : list Z :=
  map (fun k => lo + Z.of_nat k) (seq 0 n).

(** The clock ticks of a trace, with their arguments. *)
Definition tick_of (c : Call) : list (number * Z * Z) :=
  match c with
  | LoopTick t i n => [(t, i, n)]
  | _ => []
  end.

Definition ticks (tr : list Call) : list (number * Z * Z) :=
  flat_map tick_of tr.

(** The frames handed to the in-process encoder, in the order of the calls. *)
Definition added_of (c : Call) : list Image :=
  match c with
  | EncoderAddFrameRgba img => [img]
  | _ => []
  end.

Definition added (tr : list Call) : list Image := flat_map added_of tr.

(** The frame sequences handed to ffmpeg commands. *)
Definition ffmpeg_of (c : Call) : list (list Image) :=
  match c with
  | FfmpegSave _ _ _ _ _ frames _ => [frames]
  | _ => []
  end.

Definition ffmpeg_inputs (tr : list Call) : list (list Image) :=
  flat_map ffmpeg_of tr.

(** The frame rate a job runs at: the supplied one when it is truthy, the
    default otherwise. *)
Definition frameRate_used (p : Mp4EncoderParams) : Q :=
  match fps p with
  | Some f => if truthy f then f else default_frameRate
  | None => default_frameRate
  end.

(** Lines 65-71: the viewport with even-aligned width and height. *)
Definition normalized (p : Mp4EncoderParams) : Viewport :=
  mkViewport (vp_x (viewport p)) (vp_y (viewport p))
             (even_align (vp_width (viewport p)))
             (even_align (vp_height (viewport p))).

(** The frame of sample [i] of a schedule. *)
Definition frame_at (p : Mp4EncoderParams) (dt : number) (i : Z) : Image :=
  mkImage (js_mul (inject_Z i) dt) (width p) (height p) (normalized p).

(** The frames of the samples [0 .. N] of a schedule at the frame rate
    [rate]. *)
Definition frames_at (p : Mp4EncoderParams) (rate durationMs : Q)
  : list Image :=
  let N := sampleCount durationMs rate in
  map (frame_at p (stepMs durationMs N)) (zrange 0 (Z.to_nat (N + 1))).

(** The ticks of the samples [0 .. N] of a schedule at the frame rate
    [rate]. *)
Definition ticks_at (rate durationMs : Q) : list (number * Z * Z) :=
  let N := sampleCount durationMs rate in
  map (fun i => (js_mul (inject_Z i) (stepMs durationMs N), i, N))
      (zrange 0 (Z.to_nat (N + 1))).

(** The schedule of [encodeWebmAnimation], which runs at the rate it
    resolves from the parameters. *)
Definition frames_of (p : Mp4EncoderParams) (durationMs : Q) : list Image :=
  frames_at p (frameRate_used p) durationMs.

Definition ticks_of (p : Mp4EncoderParams) (durationMs : Q)
  : list (number * Z * Z) :=
  ticks_at (frameRate_used p) durationMs.

(** The value the encoder holds for a setting written by
    [if (v) encoder.field = v]: what it keeps of a truthy [v], its default
    otherwise. *)
Definition setting_in_encoder (env : Env) (f : EncoderField) (v : option Q)
           (default : Q) : Q :=
  match v with
  | Some q => if truthy q then keeps env f q else default
  | None => default
  end.

(** The frame rate [encodeMp4Animation] reads back from the encoder. *)
Definition rate_in_encoder (env : Env) (p : Mp4EncoderParams) : Q :=
  setting_in_encoder env FrameRate (fps p) default_frameRate.

(** The quantization parameter the encoder encodes with. *)
Definition quantization_in_encoder (env : Env) (p : Mp4EncoderParams) : Q :=
  setting_in_encoder env QuantizationParameter (quantizationParameter p)
                     (default_quantizationParameter env).

(** The encoder after [if (v) encoder.field = v], when the write is not
    refused. *)
Definition assigned (env : Env) (v : option Q) (f : EncoderField)
           (e : Encoder) : Encoder :=
  match v with
  | Some q => if truthy q then enc_store f (keeps env f q) e else e
  | None => e
  end.

(** The configuration of the encoder when [initialize] is called. *)
Definition configured (env : Env) (p : Mp4EncoderParams) : Encoder :=
  assigned env (fps p) FrameRate
    (assigned env (quantizationParameter p) QuantizationParameter
       (enc_store Height
          (keeps env Height (inject_Z (even_align (vp_height (viewport p)))))
          (enc_store Width
             (keeps env Width (inject_Z (even_align (vp_width (viewport p)))))
             (fresh_encoder env)))).

(** The encoder object refuses none of the values the job writes to it. *)
Definition accepts (env : Env) (p : Mp4EncoderParams) : Prop :=
  refuses env Width (inject_Z (even_align (vp_width (viewport p)))) = false
  /\ refuses env Height (inject_Z (even_align (vp_height (viewport p)))) = false
  /\ (forall q, quantizationParameter p = Some q -> truthy q = true ->
                refuses env QuantizationParameter q = false)
  /\ (forall q, fps p = Some q -> truthy q = true ->
                refuses env FrameRate q = false).

(** The canvas after the override of the custom background, with the
    transparent-background flag [tb] that the routine writes. *)
Definition overridden (tb : bool) (p : Mp4EncoderParams)
           (cv : option CanvasProps) : option CanvasProps :=
  match customBackground p with
  | Some c => option_map (canvas_update (Some c) (Some tb)) cv
  | None => cv
  end.

(** ** Exit paths under failures *)

(** The presentation state [s'] is the one of [s0]: canvas properties and
    clock as before, and no playback running that was not running in [s0]. *)
Definition restored (s0 s' : State) : Prop :=
  canvas3d s' = canvas3d s0
  /\ isAnimating s' = isAnimating s0
  /\ (animationPlaying s' = true -> animationPlaying s0 = true).

(** The call number [k] of the trace [tr] threw. *)
Definition threw (env : Env) (tr : list Call) (k : nat) : Prop :=
  exists c, nth_error tr k = Some c /\ throws env (firstn k tr) c = true.

(** The calls of the restoration path return: [encoder.delete],
    the [canvas3d.setProps] that writes the snapshot back (the one that
    requests a draw), [loop.start], and the animation manager's [stop] once
    some call has thrown (the [finally] block stops the animation only after
    a failure). *)
Definition restoration_reliable (env : Env) : Prop :=
  (forall h, throws env h EncoderDelete = false)
  /\ (forall h bg tb, throws env h (CanvasSetProps bg tb false) = false)
  /\ (forall h, throws env h LoopStart = false)
  /\ (forall h k, threw env h k -> throws env h AnimationStop = false).

Definition is_ok {A} (r : Result A) : bool :=
  match r with
  | Ok _ => true
  | Throw _ => false
  end.

(** What the restoration path needs to know about the state it starts in. *)
Definition restorable (p : Mp4EncoderParams) (s0 s : State) : Prop :=
  (canvas3d s = canvas3d s0 \/ canvas3d s = overridden false p (canvas3d s0))
  /\ (isAnimating s0 = false -> isAnimating s = false)
  /\ (animationPlaying s = true ->
      stoppedAnimation s = false \/ animationPlaying s0 = true).

(** The calls of a trace that satisfy [f]. *)
Definition calls (f : Call -> bool) (tr : list Call) : list Call := filter f tr.

Definition is_delete (c : Call) : bool :=
  match c with EncoderDelete => true | _ => false end.

Definition is_finalize (c : Call) : bool :=
  match c with EncoderFinalize => true | _ => false end.

(** The encoder of [s] was finalized and then disposed of, or it was
    neither finalized nor disposed of. *)
Definition disposed_iff_finalized (s : State) : Prop :=
  (calls is_delete (trace s) = [EncoderDelete]
   /\ calls is_finalize (trace s) = [EncoderFinalize]
   /\ enc_finalized (encoder s) = true)
  \/ (calls is_delete (trace s) = []
      /\ enc_finalized (encoder s) = false).

(** No call of the trace from number [n0] on threw. *)
Definition clean (env : Env) (n0 : nat) (tr : list Call) : Prop :=
  forall k, (n0 <= k)%nat -> ~ threw env tr k.

(** The only call of the trace from number [n0] on that threw, if any, is
    the one the error [e] reports. *)
Definition reported (env : Env) (n0 : nat) (e : Error) (tr : list Call) : Prop :=
  forall k, (n0 <= k)%nat -> threw env tr k -> e = CallFailed k.

(** Before [finalize]: nothing finalized, nothing disposed of. *)
Definition undisposed (s : State) : Prop :=
  calls is_delete (trace s) = []
  /\ calls is_finalize (trace s) = []
  /\ finalized s = false
  /\ enc_finalized (encoder s) = false.

(** At the end of the [try] block: the flag [finalized] tells whether
    [finalize] has returned. *)
Definition disposable (s : State) : Prop :=
  calls is_delete (trace s) = []
  /\ ((finalized s = true
       /\ calls is_finalize (trace s) = [EncoderFinalize]
       /\ enc_finalized (encoder s) = true)
      \/ (finalized s = false /\ enc_finalized (encoder s) = false)).

(** The frame sizes told to ffmpeg commands. *)
Definition ffmpeg_size_of (c : Call) : list (Z * Z) :=
  match c with
  | FfmpegSave _ w h _ _ _ _ => [(w, h)]
  | _ => []
  end.

Definition ffmpeg_sizes (tr : list Call) : list (Z * Z) :=
  flat_map ffmpeg_size_of tr.

(** ** Jobs and viewers used as examples *)

(** Scenario B of the specification: the viewport is wider than the
    target. *)
Definition jobB : Mp4EncoderParams :=
  mkParams None (spin 5000%Q) None 800 800 (mkViewport 0 0 801 800)
           (Some 30%Q) (Some 18%Q).

(** An animation of zero milliseconds. *)
Definition job_zero : Mp4EncoderParams :=
  mkParams None (spin 0%Q) None 800 800 (mkViewport 0 0 800 800)
           (Some 30%Q) (Some 18%Q).

(** A tenth of a second on a custom background, with a postprocessing
    override. *)
Definition job_bg : Mp4EncoderParams :=
  mkParams (Some 255) (spin 100%Q) (Some [("outline"%string, 1)]) 800 800
           (mkViewport 0 0 800 800) None None.

(** An odd width, within bounds. *)
Definition job_odd : Mp4EncoderParams :=
  mkParams None (spin 100%Q) None 801 800 (mkViewport 0 0 801 800)
           None None.

(** A frame rate and a quantization parameter of zero. *)
Definition job_falsy : Mp4EncoderParams :=
  mkParams None (spin 100%Q) None 800 800 (mkViewport 0 0 800 800)
           (Some 0%Q) (Some 0%Q).

(** A viewer with a white opaque canvas and an outline switched off. *)
Definition viewer1 : State :=
  viewer (Some (mkCanvasProps 16777215 false)) [("outline"%string, 0)].

(** An environment in which the clock tick of sample [n] throws. *)
Definition fails_at_tick (n : Z) : Env :=
  mkEnv (fun _ c => match c with LoopTick _ i _ => i =? n | _ => false end)
        (fun _ => true) 33%Q false (fun _ _ => false) (fun _ v => v).

(** ** [pad] of the one-file revision *)

(** ['' + number] for an integer: its decimal numeral, with a leading [-]
    for a negative one.  Fractions and the exponent notation of very large
    values are not modelled. *)
Definition number_to_string (n : Z) : string :=
  NilZero.string_of_int (Z.to_int n).

(** [while (str.length < length) str = '0' + str].  Every turn makes the
    string one character longer, so [length - str.length] turns are enough
    fuel. *)
Fixpoint pad_loop (fuel : nat) (str : string) (len : Z) : string :=
  match fuel with
  | O => str
  | S fuel' =>
      if Z.of_nat (String.length str) <? len
      then pad_loop fuel' ("0" ++ str) len
      else str
  end.

Definition pad (number len : Z) : string :=
  let str := number_to_string number in
  pad_loop (Z.to_nat (len - Z.of_nat (String.length str))) str len.

(** [k] characters ['0']. *)
Fixpoint zeros (k : nat) : string :=
  match k with
  | O => EmptyString
  | S k' => "0" ++ zeros k'
  end.

(** ** The command-line renderer, [examples/image-renderer/index.ts]
    (the revision that walks a directory) *)

Module Renderer.

(** [s.endsWith(t)]. *)
Definition endsWith (s t : string) : bool :=
  let n := String.length s in
  let m := String.length t in
  (m <=? n)%nat && String.eqb (substring (n - m) m s) t.

Inductive FileType : Type := pdb | cif.

(** One call of [processFile(filePath, outDirectory, fileType)]. *)
Record Processed : Type := mkProcessed {
  filePath : string;
  outDirectory : string;
  fileType : FileType
}.

(** What the routine relies on: [fs.lstatSync(p).isDirectory()] ([None] when
    [lstatSync] throws), [fs.readdir] ([None] when it fails), [path.join],
    and whether a call of [processFile], made after the calls [h], fails. *)
Record Host : Type := mkHost {
  isDirectory : string -> option bool;
  readdir : string -> option (list string);
  join : string -> string -> string;
  processFile_fails : list Processed -> Processed -> bool
}.

Inductive BatchError : Type :=
| LstatFailed
| ReaddirFailed
| ProcessFileFailed (job : Processed).

(** [file.endsWith('.cif') || file.endsWith('.pdb')]. *)
Definition isStructureFile (file : string) : bool :=
  endsWith file ".cif" || endsWith file ".pdb".

(** The call made for one file name: [if (file.endsWith('.pdb')) ... 'pdb'
    else ... 'cif']. *)
Definition dispatch (filePath file outDirectory : string) : Processed :=
  if endsWith file ".pdb"
  then mkProcessed filePath outDirectory pdb
  else mkProcessed filePath outDirectory cif.

(** [for (const file of structureFile) { await processFile(...) }]: the calls
    made, in order, and the failure that ended the loop, if any. *)
Fixpoint for_of (host : Host) (input outDirectory : string)
         (done : list Processed) (files : list string)
  : list Processed * option BatchError :=
  match files with
  | [] => (done, None)
  | file :: rest =>
      let job := dispatch (join host input file) file outDirectory in
      if processFile_fails host done job
      then (done ++ [job], Some (ProcessFileFailed job))
      else for_of host input outDirectory (done ++ [job]) rest
  end.

Definition processFilesInDirectory (host : Host) (input outDirectory : string)
  : list Processed * option BatchError :=
  match isDirectory host input with
  | None => ([], Some LstatFailed)
  | Some true =>
      match readdir host input with
      | None => ([], Some ReaddirFailed)
      | Some files =>
          let structureFile := filter isStructureFile files in
          for_of host input outDirectory [] structureFile
      end
  | Some false =>
      let job := dispatch input input outDirectory in
      if processFile_fails host [] job
      then ([job], Some (ProcessFileFailed job))
      else ([job], None)
  end.

(** Modelled from the spec: the animation definitions registered with the
    animation manager are declared outside the files at hand.  A definition
    has a name and answers the duration of an instance from the
    [durationInMs] of its parameters, or [undefined]. *)
Record AnimationDefinition : Type := mkDefinition {
  def_name : string;
  def_duration : Q -> option Q
}.

(** [{ definition: anim, params: { ..., durationInMs, ... } }]. *)
Definition instantiate (anim : AnimationDefinition) (durationInMs : Q)
  : AnimationInstance :=
  mkAnimation (def_name anim) (def_duration anim durationInMs).

(** The parameters [exportMovie] exports with; [stylized] stands for the
    postprocessing values it spreads together. *)
Definition movie_params (anim : AnimationDefinition)
           (stylized : PostprocessingProps) : Mp4EncoderParams :=
  let width := 1280 in
  let height := 720 in
  mkParams None (instantiate anim 5000%Q) (Some stylized) width height
           (mkViewport 0 0 width height) None (Some 18%Q).

Inductive TaskError : Type :=
| AnimationTypeNotFound   (* 'Animation type not found' *)
| ExportFailed (e : Error).

Inductive TaskResult : Type :=
| Completed
| Aborted (e : TaskError).

(** [exportMovie(plugin, filename)]: the task looks the camera-spin animation
    up among the registered ones and exports it with
    [WebmDual.encodeWebmAnimation]. *)
Definition exportMovie (env : Env) (animations : list AnimationDefinition)
           (stylized : PostprocessingProps) (filename : string)
  : State -> TaskResult * State :=
  fun s =>
    match find (fun a => String.eqb (def_name a) "built-in.animate-camera-spin")
               animations with
    | None => (Aborted AnimationTypeNotFound, s)
    | Some anim =>
        match WebmDual.encodeWebmAnimation env (movie_params anim stylized)
                                           filename s with
        | (Ok _, s') => (Completed, s')
        | (Throw e, s') => (Aborted (ExportFailed e), s')
        end
    end.

End Renderer.

(** ** Further observations on traces *)

(** The frame rates told to ffmpeg commands. *)
Definition ffmpeg_rate_of (c : Call) : list Q :=
  match c with
  | FfmpegSave _ _ _ rate _ _ _ => [rate]
  | _ => []
  end.

Definition ffmpeg_rates (tr : list Call) : list Q := flat_map ffmpeg_rate_of tr.

(** The output files of ffmpeg commands. *)
Definition ffmpeg_file_of (c : Call) : list string :=
  match c with
  | FfmpegSave _ _ _ _ _ _ file => [file]
  | _ => []
  end.

Definition ffmpeg_files (tr : list Call) : list string :=
  flat_map ffmpeg_file_of tr.

(** The calls that put a viewer back as it was: restarting the clock,
    stopping the playback, writing canvas properties with a draw request. *)
Definition is_restoration (c : Call) : bool :=
  match c with
  | LoopStart | AnimationStop | CanvasSetProps _ _ false => true
  | _ => false
  end.

(** The calls on the in-process H.264 encoder. *)
Definition is_encoder_call (c : Call) : bool :=
  match c with
  | CreateH264MP4Encoder | EncoderInitialize | EncoderAddFrameRgba _
  | EncoderFinalize | FSReadFile | EncoderDelete => true
  | _ => false
  end.

(** The call number [k] is the last one of the trace that threw. *)
Definition last_throw (env : Env) (tr : list Call) (k : nat) : Prop :=
  threw env tr k /\ forall k', (k < k')%nat -> ~ threw env tr k'.

(** The progress values reported through [ctx.update]. *)
Definition progress_of (c : Call) : list Progress :=
  match c with
  | CtxUpdate u => [u]
  | _ => []
  end.

Definition progress (tr : list Call) : list Progress := flat_map progress_of tr.

(** The frames handed to the encoder and the clock ticks made since a trace
    with the frames [A0] and the ticks [T0] are the first [n] frames and the
    first [m] ticks of the schedule at the frame rate [rate], the ticks at
    most one ahead. *)
Definition sampled_prefix (p : Mp4EncoderParams) (rate durationMs : Q)
           (A0 : list Image) (T0 : list (number * Z * Z)) (tr : list Call)
  : Prop :=
  exists n m : nat,
    added tr = A0 ++ firstn n (frames_at p rate durationMs)
    /\ ticks tr = T0 ++ firstn m (ticks_at rate durationMs)
    /\ (n <= m <= n + 1)%nat
    /\ (m <= List.length (ticks_at rate durationMs))%nat.

(** The progress values of a job of [N + 1] samples: the two opening
    messages, the sample counts [i + 1] of the samples selected by [f], in
    order, and the closing message. *)
Definition progress_of_job (N : Z) (f : Z -> bool) : list Progress :=
  [Initializing; Rendering 0 (N + 1)]
  ++ map (fun i => Current (i + 1)) (filter f (zrange 0 (Z.to_nat (N + 1))))
  ++ [Finishing].

(** [h] is the trace [tr] as it was when [ctx.shouldUpdate] was read in the
    turn of sample [i]: the beginning of [tr] that ends with the
    [encoder.addFrameRgba] of that sample, the [i + 1]-th after the [n0]
    frames added before the job. *)
Definition read_point (tr : list Call) (n0 : nat) (i : Z) (h : list Call)
  : Prop :=
  exists h0 img rest,
    h = h0 ++ [EncoderAddFrameRgba img]
    /\ tr = h ++ rest
    /\ List.length (added h) = (n0 + Z.to_nat (i + 1))%nat.

(** What is known of the progress reports before the turn of sample [i]. *)
Definition reported_so_far (env : Env) (P0 : list Progress) (n0 : nat)
           (i : Z) (s : State) : Prop :=
  exists H : Z -> list Call,
    progress (trace s)
    = P0 ++ map (fun i => Current (i + 1))
                (filter (fun k => shouldUpdate env (H k))
                        (zrange 0 (Z.to_nat i)))
    /\ List.length (added (trace s)) = (n0 + Z.to_nat i)%nat
    /\ forall k, 0 <= k < i -> read_point (trace s) n0 k (H k).

(** The calls that start an ffmpeg command. *)
Definition is_ffmpeg (c : Call) : bool :=
  match c with
  | FfmpegSave _ _ _ _ _ _ _ => true
  | _ => false
  end.

(** Every ffmpeg command of the trace [tr] from call number [n0] on was
    started when all the calls made since number [n0] had returned. *)
Definition commands_follow_returns (env : Env) (n0 : nat) (tr : list Call)
  : Prop :=
  forall h c rest,
    tr = h ++ c :: rest ->
    (n0 <= List.length h)%nat ->
    is_ffmpeg c = true ->
    clean env n0 h.

(** In the list [l] of calls, [encoder.delete] comes last when it comes at
    all. *)
Definition delete_is_last (l : list Call) : Prop :=
  forall l1 l2, l = l1 ++ EncoderDelete :: l2 -> l2 = [].

(** An animation whose duration is below zero. *)
Definition job_backwards : Mp4EncoderParams :=
  mkParams None (spin (-5000)%Q) None 800 800 (mkViewport 0 0 800 800)
           None None.

(** An animation that does not tell its duration. *)
Definition job_endless : Mp4EncoderParams :=
  mkParams None (mkAnimation "built-in.animate-camera-spin" None) None
           800 800 (mkViewport 0 0 800 800) None None.

(** A registered camera-spin animation lasting what its parameters ask. *)
Definition camera_spin : Renderer.AnimationDefinition :=
  Renderer.mkDefinition "built-in.animate-camera-spin" (fun d => Some d).

(** A directory with three structure files and a text file; the call of
    [processFile] for 'bad.pdb' fails. *)
Definition folder : Renderer.Host :=
  Renderer.mkHost
    (fun path => Some (String.eqb path "in"))
    (fun _ => Some ["1cbs.cif"%string; "notes.txt"%string; "bad.pdb"%string;
                    "1qtn.pdb"%string])
    (fun dir file => (dir ++ "/" ++ file)%string)
    (fun _ job => String.eqb (Renderer.filePath job) "in/bad.pdb").
Section WpRules.

Context {A : Type}.
Variables (Q : A -> State -> Prop) (E : Error -> State -> Prop).

Lemma wp_ret (a : A) s : Q a s -> wp (ret a) Q E s.
Proof. exact (fun H => H). Qed.

Lemma wp_throw e s : E e s -> wp (@throw A e) Q E s.
Proof. exact (fun H => H). Qed.

Lemma wp_bind {B} (m : M B) (k : B -> M A) s :
  wp m (fun b s' => wp (k b) Q E s') E s -> wp (bind m k) Q E s.
Proof.
  unfold wp, bind. destruct (m s) as [[b|e] s']; trivial.
Qed.

Lemma wp_mono (m : M A) (Q' : A -> State -> Prop) (E' : Error -> State -> Prop) s :
  wp m Q' E' s ->
  (forall a s', Q' a s' -> Q a s') ->
  (forall e s', E' e s' -> E e s') ->
  wp m Q E s.
Proof.
  unfold wp. destruct (m s) as [[a|e] s']; auto.
Qed.

Lemma wp_try_finally (body : M A) (fin : M unit) s :
  wp body
     (fun a s1 => wp fin (fun _ s2 => Q a s2) E s1)
     (fun e s1 => wp fin (fun _ s2 => E e s2) E s1) s ->
  wp (try_finally body fin) Q E s.
Proof.
  unfold wp, try_finally.
  destruct (body s) as [[a|e] s1]; destruct (fin s1) as [[u|e'] s2]; trivial.
Qed.

Lemma wp_try_catch (body : M A) (handler : Error -> M A) s :
  wp body Q (fun e s1 => wp (handler e) Q E s1) s ->
  wp (try_catch body handler) Q E s.
Proof.
  unfold wp, try_catch. destruct (body s) as [[a|e] s1]; trivial.
Qed.

End WpRules.

Section WpUnit.

Variable env : Env.
Variables (Q : unit -> State -> Prop) (E : Error -> State -> Prop).

Lemma wp_modify f s : Q tt (f s) -> wp (modify f) Q E s.
Proof. exact (fun H => H). Qed.

Lemma wp_call c s :
  (throws env (trace s) c = true ->
   E (CallFailed (List.length (trace s))) (logged c s)) ->
  (throws env (trace s) c = false -> Q tt (effect env c (logged c s))) ->
  wp (call env c) Q E s.
Proof.
  unfold wp, call, logged. destruct (throws env (trace s) c); auto.
Qed.

Lemma wp_assign f v s :
  (refuses env f v = true -> E (SettingRefused f) s) ->
  (refuses env f v = false ->
   Q tt (set_encoder (enc_store f (keeps env f v) (encoder s)) s)) ->
  wp (assign env f v) Q E s.
Proof.
  unfold wp, assign. destruct (refuses env f v); auto.
Qed.

Lemma wp_when (c : bool) (m : M unit) s :
  (c = true -> wp m Q E s) -> (c = false -> Q tt s) -> wp (when c m) Q E s.
Proof.
  destruct c; cbn; intros H1 H2; [apply H1 | apply H2]; reflexivity.
Qed.

(** The loop rule: [Inv i] holds before turn [i] and survives each turn;
    a throwing turn must establish [E]. *)
Lemma wp_for_loop (Inv : Z -> State -> Prop) hi body :
  (forall i s, i <= hi -> Inv i s ->
               wp (body i) (fun _ s' => Inv (i + 1) s') E s) ->
  forall fuel i s,
    Z.to_nat (hi + 1 - i) = fuel ->
    Inv i s ->
    (forall s', Inv (Z.max i (hi + 1)) s' -> Q tt s') ->
    wp (for_loop fuel i hi body) Q E s.
Proof.
  intros Hbody fuel. induction fuel as [|fuel IH]; intros i s Hfuel Hinv Hpost.
  - cbn [for_loop]. apply wp_ret. apply Hpost.
    replace (Z.max i (hi + 1)) with i by lia. exact Hinv.
  - cbn [for_loop]. destruct (Z.leb_spec i hi) as [Hle|Hgt]; [|lia].
    apply wp_bind.
    eapply wp_mono; [apply (Hbody i s Hle Hinv) | | auto].
    intros u s' Hinv'. cbn beta in Hinv' |- *.
    apply IH; [lia | exact Hinv' |].
    intros s'' H. apply Hpost.
    replace (Z.max i (hi + 1)) with (Z.max (i + 1) (hi + 1)) by lia.
    exact H.
Qed.

Lemma wp_for_to (Inv : Z -> State -> Prop) lo hi body s :
  Inv lo s ->
  (forall i s, lo <= i <= hi -> Inv i s ->
               wp (body i) (fun _ s' => Inv (i + 1) s') E s) ->
  (forall s', Inv (Z.max lo (hi + 1)) s' -> Q tt s') ->
  wp (for_to lo hi body) Q E s.
Proof.
  intros Hinv Hbody Hpost. unfold for_to.
  apply (wp_for_loop (fun i s => lo <= i /\ Inv i s)); try reflexivity.
  - intros i s' Hle [Hlo Hi].
    eapply wp_mono; [apply (Hbody i s'); [lia | exact Hi] | | auto].
    cbn beta. intros u s'' H. split; [lia | exact H].
  - split; [lia | exact Hinv].
  - intros s' [_ H]. apply Hpost, H.
Qed.

End WpUnit.

Lemma wp_get (Q : State -> State -> Prop) E s : Q s s -> wp get Q E s.
Proof. exact (fun H => H). Qed.

(** The loop is the loop of the source: it unfolds as [for] does. *)
Lemma for_to_unfold lo hi body :
  for_to lo hi body =
  if lo <=? hi then bind (body lo) (fun _ => for_to (lo + 1) hi body)
  else ret tt.
Proof.
  unfold for_to. destruct (Z.leb_spec lo hi) as [Hle|Hgt].
  - replace (Z.to_nat (hi + 1 - lo))
      with (S (Z.to_nat (hi + 1 - (lo + 1)))) by lia.
    cbn [for_loop]. destruct (Z.leb_spec lo hi); [reflexivity | lia].
  - replace (Z.to_nat (hi + 1 - lo)) with O by lia. reflexivity.
Qed.

(** From a triple to the run. *)
Lemma wp_run {A} (m : M A) Q E s :
  wp m Q E s ->
  forall r s', m s = (r, s') ->
               match r with Ok a => Q a s' | Throw e => E e s' end.
Proof.
  unfold wp. intros H r s' Hrun. rewrite Hrun in H. destruct r; exact H.
Qed.

Lemma wp_returns {A} (m : M A) Q s :
  wp m Q (fun _ _ => False) s ->
  exists a s', m s = (Ok a, s') /\ Q a s'.
Proof.
  unfold wp. destruct (m s) as [[a|e] s']; [eauto | tauto].
Qed.

(** Splits the conjunctions of a goal, and nothing else. *)
Ltac split_all := repeat lazymatch goal with |- _ /\ _ => split end.

(** Projections of the state commute with the updates. *)
Ltac simpl_state :=
  cbn [trace isAnimating loopTime canvas3d passPostprocessing animationPlaying
       encoder images stoppedAnimation finalized
       set_trace set_isAnimating set_loopTime set_canvas3d
       set_passPostprocessing set_animationPlaying set_encoder set_images
       set_stoppedAnimation set_finalized logged effect
       enc_width enc_height enc_quantizationParameter enc_frameRate
       enc_initialized enc_frames enc_finalized enc_deleted
       enc_set_width enc_set_height enc_set_quantizationParameter
       enc_set_frameRate enc_set_initialized enc_set_frames enc_set_finalized
       enc_set_deleted fresh_encoder] in *.
(** ** Rounding to doubles *)

Lemma rne_bound num den :
  0 < den -> Z.abs (2 * (rne num den * den - num)) <= den.
Proof.
  intros Hden. unfold rne.
  pose proof (Z.div_mod num den ltac:(lia)) as Hdm.
  pose proof (Z.mod_pos_bound num den Hden) as Hmod.
  destruct (Z.compare_spec (2 * (num mod den)) den) as [He|Hl|Hg];
    [destruct (Z.even (num / den))| |]; nia.
Qed.

Lemma rne_ge num den k :
  0 < den -> den * k <= num -> k <= rne num den.
Proof.
  intros Hden Hk. unfold rne.
  assert (k <= num / den) by (apply Z.div_le_lower_bound; lia).
  destruct (2 * (num mod den) ?= den); [destruct (Z.even (num / den))| |]; lia.
Qed.

Lemma binade_le n d :
  Zpos d * 2 ^ Z.max 0 (binade n d) <= Zpos n * 2 ^ Z.max 0 (- binade n d).
Proof.
  unfold binade.
  set (ln := Z.log2 (Zpos n)). set (ld := Z.log2 (Zpos d)).
  destruct (Z.leb_spec (Zpos d * 2 ^ Z.max 0 (ln - ld))
                       (Zpos n * 2 ^ Z.max 0 (- (ln - ld)))) as [H|H];
    [exact H|].
  pose proof (Z.log2_spec (Zpos n) ltac:(lia)) as [Hn _].
  pose proof (Z.log2_spec (Zpos d) ltac:(lia)) as [_ Hd].
  pose proof (Z.log2_nonneg (Zpos n)). pose proof (Z.log2_nonneg (Zpos d)).
  fold ln in Hn. fold ld in Hd. fold ln in H0. fold ld in H1.
  replace (Z.succ ld) with (ld + 1) in Hd by lia.
  destruct (Z.le_gt_cases 0 (ln - ld - 1)) as [He|He].
  - rewrite (Z.max_r 0 (ln - ld - 1)), (Z.max_l 0 (- (ln - ld - 1))) by lia.
    rewrite Z.pow_0_r, Z.mul_1_r.
    assert (Hp : 2 ^ ln = 2 ^ (ld + 1) * 2 ^ (ln - ld - 1))
      by (rewrite <- Z.pow_add_r by lia; f_equal; lia).
    assert (0 < 2 ^ (ln - ld - 1)) by (apply Z.pow_pos_nonneg; lia).
    nia.
  - rewrite (Z.max_l 0 (ln - ld - 1)), (Z.max_r 0 (- (ln - ld - 1))) by lia.
    rewrite Z.pow_0_r, Z.mul_1_r.
    assert (Hp : 2 ^ (ld + 1) = 2 ^ ln * 2 ^ (- (ln - ld - 1)))
      by (rewrite <- Z.pow_add_r by lia; f_equal; lia).
    nia.
Qed.

(** The scaled value is at least [2^52]. *)
Lemma scaled_ge n d :
  let s := 52 - binade n d in
  Zpos d * 2 ^ Z.max 0 (- s) * 2 ^ 52 <= Zpos n * 2 ^ Z.max 0 s.
Proof.
  intros s. pose proof (binade_le n d) as H. subst s.
  set (e := binade n d) in *.
  destruct (Z.le_gt_cases e 52) as [Hs|Hs].
  - rewrite (Z.max_l 0 (- (52 - e))), (Z.max_r 0 (52 - e)) by lia.
    rewrite Z.pow_0_r, Z.mul_1_r.
    destruct (Z.le_gt_cases 0 e) as [He|He].
    + rewrite (Z.max_r 0 e), (Z.max_l 0 (- e)) in H by lia.
      rewrite Z.pow_0_r, Z.mul_1_r in H.
      assert (Hp : 2 ^ 52 = 2 ^ e * 2 ^ (52 - e))
        by (rewrite <- Z.pow_add_r by lia; f_equal; lia).
      assert (0 < 2 ^ (52 - e)) by (apply Z.pow_pos_nonneg; lia).
      rewrite Hp. nia.
    + rewrite (Z.max_l 0 e), (Z.max_r 0 (- e)) in H by lia.
      rewrite Z.pow_0_r, Z.mul_1_r in H.
      assert (Hp : 2 ^ (52 - e) = 2 ^ (- e) * 2 ^ 52)
        by (rewrite <- Z.pow_add_r by lia; f_equal; lia).
      assert (0 < 2 ^ 52) by (apply Z.pow_pos_nonneg; lia).
      rewrite Hp. nia.
  - rewrite (Z.max_r 0 (- (52 - e))), (Z.max_l 0 (52 - e)) by lia.
    rewrite Z.pow_0_r, Z.mul_1_r.
    rewrite (Z.max_r 0 e), (Z.max_l 0 (- e)) in H by lia.
    rewrite Z.pow_0_r, Z.mul_1_r in H.
    assert (Hp : 2 ^ e = 2 ^ (- (52 - e)) * 2 ^ 52)
      by (rewrite <- Z.pow_add_r by lia; f_equal; lia).
    rewrite Hp in H. lia.
Qed.

(** The numerator [M] and the denominator [A] of the rounded value of
    [n / d]: [M] is positive and [M / A] is within [2^-53] of [n / d],
    relatively. *)
Lemma round_pos_spec n d :
  let M := Qnum (round_pos n d) in
  let A := Zpos (Qden (round_pos n d)) in
  0 < M
  /\ Z.abs (M * Zpos d - Zpos n * A) * 2 ^ 53 <= Zpos n * A.
Proof.
  unfold round_pos. cbv zeta. cbn [Qnum Qden].
  pose proof (scaled_ge n d) as Hge. cbv zeta in Hge.
  set (s := 52 - binade n d) in *.
  set (A := 2 ^ Z.max 0 s) in *. set (B := 2 ^ Z.max 0 (- s)) in *.
  assert (HA : 0 < A) by (apply Z.pow_pos_nonneg; lia).
  assert (HB : 0 < B) by (apply Z.pow_pos_nonneg; lia).
  rewrite Z2Pos.id by exact HA.
  set (num := Zpos n * A) in *. set (den := Zpos d * B) in *.
  assert (Hden : 0 < den) by (unfold den; lia).
  pose proof (rne_bound num den Hden) as Hb.
  pose proof (rne_ge num den (2 ^ 52) Hden Hge) as Hm.
  set (m := rne num den) in *.
  assert (H52 : 2 ^ 53 = 2 * 2 ^ 52) by reflexivity.
  assert (0 < 2 ^ 52) by reflexivity.
  split; [nia|].
  replace (m * B * Zpos d - Zpos n * A) with (m * den - num)
    by (unfold den, num; ring).
  rewrite H52.
  assert (Z.abs (m * den - num) * 2 <= den) by lia.
  nia.
Qed.

Section RoundingFacts.

Local Open Scope Q_scope.

Lemma round_double_pos q : 0 < q -> 0 < round_double q.
Proof.
  destruct q as [[|n|n] d]; intros Hq;
    try (exfalso; unfold Qlt in Hq; cbn in Hq; lia).
  unfold round_double. cbn [Qnum Qden].
  destruct (round_pos_spec n d) as [HM _].
  destruct (round_pos n d) as [M A]. unfold Qlt. cbn in *. lia.
Qed.

Lemma round_double_bounds q :
  0 < q ->
  q * (1 - unit_roundoff) <= round_double q /\ round_double q <= q * (1 + unit_roundoff).
Proof.
  destruct q as [[|n|n] d]; intros Hq;
    try (exfalso; unfold Qlt in Hq; cbn in Hq; lia).
  unfold round_double. cbn [Qnum Qden].
  destruct (round_pos_spec n d) as [HM Hb].
  destruct (round_pos n d) as [M A]. cbn [Qnum Qden] in *.
  change (2 ^ 53)%Z with 9007199254740992%Z in Hb.
  unfold Qle, unit_roundoff. cbn [Qnum Qden Qmult Qplus Qminus Qopp].
  rewrite !Pos2Z.inj_mul.
  split; nia.
Qed.

(** Dividing by a count and multiplying back gives the dividend up to two
    roundings. *)
Lemma divide_and_multiply_back d N :
  0 < d -> (1 <= N)%Z ->
  let q := round_double (d / inject_Z N) in
  let t := round_double (inject_Z N * q) in
  0 < q
  /\ Qabs (q * inject_Z N - d) <= d * unit_roundoff
  /\ Qabs (t - d) <= d * (1 # 2251799813685248).
Proof.
  intros Hd HN q t.
  assert (HNq : 0 < inject_Z N)
    by (change 0 with (inject_Z 0); rewrite <- Zlt_Qlt; lia).
  assert (Hx : 0 < d / inject_Z N)
    by (apply Qlt_shift_div_l; [exact HNq | rewrite Qmult_0_l; exact Hd]).
  assert (Hback : d / inject_Z N * inject_Z N == d)
    by (field; intros H; rewrite H in HNq; discriminate).
  pose proof (round_double_pos _ Hx) as Hq.
  destruct (round_double_bounds _ Hx) as [Hq1 Hq2]. fold q in Hq, Hq1, Hq2.
  assert (Hy : 0 < inject_Z N * q) by (apply Qmult_lt_0_compat; assumption).
  destruct (round_double_bounds _ Hy) as [Ht1 Ht2]. fold t in Ht1, Ht2.
  set (x := d / inject_Z N) in *. set (n := inject_Z N) in *.
  assert (Hl : d * (1 - unit_roundoff) <= q * n).
  { rewrite <- Hback. setoid_replace (x * n * (1 - unit_roundoff)) with (x * (1 - unit_roundoff) * n) by ring.
    apply Qmult_le_compat_r; [exact Hq1 | apply Qlt_le_weak, HNq]. }
  assert (Hu : q * n <= d * (1 + unit_roundoff)).
  { rewrite <- Hback. setoid_replace (x * n * (1 + unit_roundoff)) with (x * (1 + unit_roundoff) * n) by ring.
    apply Qmult_le_compat_r; [exact Hq2 | apply Qlt_le_weak, HNq]. }
  unfold unit_roundoff in *.
  split; [exact Hq|]. split.
  - apply Qabs_case; intros _; lra.
  - setoid_replace (n * q) with (q * n) in Ht1 by ring.
    setoid_replace (n * q) with (q * n) in Ht2 by ring.
    apply Qabs_case; intros _; lra.
Qed.

End RoundingFacts.

(** [round_double] gives the results of the binary64 division and
    multiplication of the Standard Library on the computations
    [8300 / 1000 * 30], [30 * (1000 / 30)], [100 / 3] and [-7 / 3]. *)
Lemma round_double_agrees_with_binary64 :
  let div := SFdiv 53 1024 in
  let mul := SFmul 53 1024 in
  let b := binary64_of_Z in
  is_binary64 (div (b 8300) (b 1000)) (round_double (8300 / 1000)) = true
  /\ is_binary64 (mul (div (b 8300) (b 1000)) (b 30))
                 (round_double (round_double (8300 / 1000) * 30)) = true
  /\ is_binary64 (mul (b 30) (div (b 1000) (b 30)))
                 (round_double (30 * round_double (1000 / 30))) = true
  /\ is_binary64 (div (b 100) (b 3)) (round_double (100 / 3)) = true
  /\ is_binary64 (div (b (-7)) (b 3)) (round_double (-7 / 3)) = true.
Proof. cbv zeta. repeat apply conj; vm_compute; reflexivity. Qed.

(** ** Lists of sample indices *)

Lemma zrange_length lo n : List.length (zrange lo n) = n.
Proof. unfold zrange. rewrite length_map, length_seq. reflexivity. Qed.

Lemma zrange_snoc lo n : zrange lo (S n) = zrange lo n ++ [lo + Z.of_nat n].
Proof. unfold zrange. rewrite seq_S, map_app. reflexivity. Qed.

Lemma zrange_next i :
  0 <= i -> zrange 0 (Z.to_nat (i + 1)) = zrange 0 (Z.to_nat i) ++ [i].
Proof.
  intros Hi. replace (Z.to_nat (i + 1)) with (S (Z.to_nat i)) by lia.
  rewrite zrange_snoc. do 2 f_equal. lia.
Qed.

Lemma ticks_app a b : ticks (a ++ b) = ticks a ++ ticks b.
Proof. apply flat_map_app. Qed.

Lemma added_app a b : added (a ++ b) = added a ++ added b.
Proof. apply flat_map_app. Qed.

Lemma ffmpeg_inputs_app a b :
  ffmpeg_inputs (a ++ b) = ffmpeg_inputs a ++ ffmpeg_inputs b.
Proof. apply flat_map_app. Qed.


(** ** Arithmetic of the schedule *)

Lemma sampleCount_pos d r :
  (0 < d)%Q -> (0 < r)%Q -> 1 <= sampleCount d r.
Proof.
  intros Hd Hr. unfold sampleCount.
  assert (Hx : (0 < d / 1000)%Q).
  { apply Qlt_shift_div_l; [reflexivity|]. rewrite Qmult_0_l. exact Hd. }
  assert (Hy : (0 < round_double (d / 1000) * r)%Q).
  { apply Qmult_lt_0_compat; [apply round_double_pos, Hx | exact Hr]. }
  pose proof (round_double_pos _ Hy) as Hz.
  pose proof (Qle_ceiling (round_double (round_double (d / 1000) * r))) as Hc.
  assert (H0 : (inject_Z 0 < inject_Z (Qceiling (round_double (round_double (d / 1000) * r))))%Q).
  { eapply Qlt_le_trans; [exact Hz | exact Hc]. }
  rewrite <- Zlt_Qlt in H0. lia.
Qed.

Lemma inject_Z_nonzero N : N <> 0 -> Qeq_bool (inject_Z N) 0 = false.
Proof.
  intros HN. destruct (Qeq_bool (inject_Z N) 0) eqn:Hz; [|reflexivity].
  apply Qeq_bool_eq in Hz. exfalso. apply HN.
  change 0%Q with (inject_Z 0) in Hz. rewrite inject_Z_injective in Hz. exact Hz.
Qed.

Lemma stepMs_finite d N :
  N <> 0 -> stepMs d N = Fin (round_double (d / inject_Z N)).
Proof.
  intros HN. unfold stepMs, js_div. rewrite (inject_Z_nonzero N HN).
  reflexivity.
Qed.

(** For a positive duration and at least one sample, the step is a positive
    double; multiplied back by the count it gives the duration up to the
    rounding of the division, and, rounded as the last tick is, up to
    [2^-51] of the duration. *)
Lemma stepMs_pos d N :
  (0 < d)%Q -> 1 <= N ->
  exists q, stepMs d N = Fin q /\ (0 < q)%Q
            /\ (Qabs (q * inject_Z N - d) <= d * unit_roundoff)%Q
            /\ js_mul (inject_Z N) (stepMs d N)
               = Fin (round_double (inject_Z N * q))
            /\ (Qabs (round_double (inject_Z N * q) - d)
                <= d * (1 # 2251799813685248))%Q.
Proof.
  intros Hd HN.
  destruct (divide_and_multiply_back d N Hd HN) as (Hq & Hb & Ht).
  rewrite (stepMs_finite d N) by lia.
  eexists. split; [reflexivity|]. split; [exact Hq|]. split; [exact Hb|].
  split; [reflexivity | exact Ht].
Qed.

Lemma round_double_zero q : Qnum q = 0 -> round_double q = 0%Q.
Proof. intros H. unfold round_double. rewrite H. reflexivity. Qed.

(** ** The encoder configuration and the canvas *)

Lemma set_encoder_same s : set_encoder (encoder s) s = s.
Proof. destruct s; reflexivity. Qed.

Lemma enc_store_finalized f v e :
  enc_finalized (enc_store f v e) = enc_finalized e.
Proof. destruct f; reflexivity. Qed.

Lemma assigned_finalized env v f e :
  enc_finalized (assigned env v f e) = enc_finalized e.
Proof.
  unfold assigned. destruct v as [q|]; [destruct (truthy q)|];
    try reflexivity. apply enc_store_finalized.
Qed.

Lemma configured_facts env p :
  enc_frameRate (configured env p) = rate_in_encoder env p
  /\ enc_quantizationParameter (configured env p)
     = quantization_in_encoder env p
  /\ enc_width (configured env p)
     = Qfloor (keeps env Width (inject_Z (vp_width (normalized p))))
  /\ enc_height (configured env p)
     = Qfloor (keeps env Height (inject_Z (vp_height (normalized p))))
  /\ enc_frames (configured env p) = []
  /\ enc_finalized (configured env p) = false
  /\ enc_deleted (configured env p) = false.
Proof.
  unfold configured, assigned, rate_in_encoder, quantization_in_encoder,
    setting_in_encoder.
  destruct (fps p) as [f|]; [destruct (truthy f)|];
    (destruct (quantizationParameter p) as [q|]; [destruct (truthy q)|]);
    cbn; auto 10.
Qed.

Lemma canvas_update_back cp bg tb :
  canvas_update (Some (backgroundColor cp)) (Some (transparentBackground cp))
                (canvas_update bg tb cp) = cp.
Proof. destruct cp; reflexivity. Qed.

Lemma canvas_update_same cp :
  canvas_update (Some (backgroundColor cp)) (Some (transparentBackground cp)) cp
  = cp.
Proof. destruct cp; reflexivity. Qed.

(** ** Symbolic execution *)

Lemma wp_assign_if_truthy env v f Q E s :
  (forall q, v = Some q -> truthy q = true -> refuses env f q = true ->
             E (SettingRefused f) s) ->
  Q tt (set_encoder (assigned env v f (encoder s)) s) ->
  wp (Mp4.assign_if_truthy env v f) Q E s.
Proof.
  unfold Mp4.assign_if_truthy, assigned. intros Hr Hk.
  destruct v as [q|]; [|rewrite set_encoder_same in Hk; exact Hk].
  unfold when. destruct (truthy q) eqn:Ht;
    [|rewrite set_encoder_same in Hk; exact Hk].
  apply wp_assign; [apply (Hr q); reflexivity || assumption | intros _; exact Hk].
Qed.

Lemma wp_canvas3d_setProps env bg tb dnr Q E s :
  (canvas3d s = None -> Q tt s) ->
  (forall cp, canvas3d s = Some cp ->
              wp (call env (CanvasSetProps bg tb dnr)) Q E s) ->
  wp (canvas3d_setProps env bg tb dnr) Q E s.
Proof.
  unfold canvas3d_setProps. intros Hn Hs. apply wp_bind, wp_get.
  destruct (canvas3d s) as [cp|]; [apply (Hs cp) | apply wp_ret, Hn]; reflexivity.
Qed.

(** Known values of the fields a job branches on. *)
Ltac use_facts :=
  repeat lazymatch goal with
    | H : canvas3d ?s = _ |- context [canvas3d ?s] => rewrite H
    | H : isAnimating ?s = _ |- context [isAnimating ?s] => rewrite H
    | H : stoppedAnimation ?s = _ |- context [stoppedAnimation ?s] => rewrite H
    | H : finalized ?s = _ |- context [finalized ?s] => rewrite H
    | H : customBackground ?s = _ |- context [customBackground ?s] => rewrite H
    end.

Ltac wp_construct :=
  lazymatch goal with
  | |- wp (bind _ _) _ _ _ => apply wp_bind
  | |- wp (ret _) _ _ _ => apply wp_ret
  | |- wp (throw _) _ _ _ => apply wp_throw
  | |- wp get _ _ _ => apply wp_get
  | |- wp (modify _) _ _ _ => apply wp_modify
  | |- wp (assign _ _ _) _ _ _ =>
      apply wp_assign; [intros ?Hrefused | intros ?Haccepted]
  | |- wp (Mp4.assign_if_truthy _ _ _) _ _ _ =>
      apply wp_assign_if_truthy; [intros ? ?Hsome ?Htruthy ?Hrefused | ]
  | |- wp (try_finally _ _) _ _ _ => apply wp_try_finally
  | |- wp (try_catch _ _) _ _ _ => apply wp_try_catch
  | |- wp (canvas3d_setProps _ _ _ _) _ _ _ =>
      apply wp_canvas3d_setProps; [intros ? | intros ? ?]
  | |- wp (when true _) _ _ _ => unfold when at 1
  | |- wp (when false _) _ _ _ => unfold when at 1
  | |- wp (when _ _) _ _ _ => apply wp_when; intros ?
  end;
  cbn beta; simpl_state; use_facts; cbn [negb option_map]; simpl_state.

(** A call in an environment where nothing throws. *)
Ltac wp_call_quiet H :=
  apply wp_call;
  [ let Hc := fresh in intros Hc; rewrite H in Hc; discriminate Hc
  | intros _ ];
  simpl_state.

Ltac wp_go H := once (repeat first [ wp_call_quiet H | wp_construct ]).

(** A call that may throw, both branches kept. *)
Ltac wp_call_split :=
  apply wp_call; [ intros ?Hthrow | intros ?Hreturn ]; simpl_state.

Ltac wp_split := once (repeat first [ wp_call_split | wp_construct ]).

Ltac trace_facts :=
  rewrite ?ticks_app, ?added_app, ?ffmpeg_inputs_app;
  cbn [ticks added ffmpeg_inputs flat_map tick_of added_of ffmpeg_of app];
  rewrite ?app_nil_r.

Ltac canvas_facts :=
  cbn [option_map]; rewrite ?canvas_update_back, ?canvas_update_same.

Ltac finish :=
  lazymatch goal with
  | |- wp _ _ _ _ => fail
  | |- forall _, _ => fail
  | _ => idtac
  end;
  repeat match goal with H : throws _ _ _ = _ |- _ => clear H end;
  repeat split;
  first [ assumption | reflexivity | intro; assumption | intro; discriminate ].
(** ** The runs of [Mp4.encodeMp4Animation] *)

(** A refused write contradicts [accepts env p]. *)
Ltac refused_contra HaW HaH HaQ HaF :=
  lazymatch goal with
  | H : refuses _ Width _ = true |- _ => rewrite HaW in H; discriminate H
  | H : refuses _ Height _ = true |- _ => rewrite HaH in H; discriminate H
  | Hs : quantizationParameter _ = Some ?q, Ht : truthy ?q = true,
    H : refuses _ QuantizationParameter ?q = true |- _ =>
      rewrite (HaQ q Hs Ht) in H; discriminate H
  | Hs : fps _ = Some ?q, Ht : truthy ?q = true,
    H : refuses _ FrameRate ?q = true |- _ =>
      rewrite (HaF q Hs Ht) in H; discriminate H
  end.

(** When no call throws and no write is refused, the job returns the frames
    of the schedule at the frame rate the encoder holds. *)
Lemma mp4_run_quiet env p s0 d :
  never_throws env ->
  accepts env p ->
  viewport_exceeds p = false ->
  getDuration (animation p) = Some d ->
  wp (Mp4.encodeMp4Animation env p)
     (fun out s' =>
        out = frames_at p (rate_in_encoder env p) d
        /\ enc_frames (encoder s') = frames_at p (rate_in_encoder env p) d
        /\ added (trace s')
           = added (trace s0) ++ frames_at p (rate_in_encoder env p) d
        /\ ticks (trace s')
           = ticks (trace s0) ++ ticks_at (rate_in_encoder env p) d
        /\ enc_frameRate (encoder s') = rate_in_encoder env p
        /\ enc_quantizationParameter (encoder s')
           = quantization_in_encoder env p
        /\ enc_width (encoder s')
           = Qfloor (keeps env Width (inject_Z (vp_width (normalized p))))
        /\ enc_height (encoder s')
           = Qfloor (keeps env Height (inject_Z (vp_height (normalized p)))))
     (fun _ _ => False) s0.
Proof.
  intros Hq (HaW & HaH & HaQ & HaF) Hvp Hd.
  destruct (configured_facts env p) as (Hrate & Hqp & Hw & Hh & Hfr & _).
  unfold Mp4.encodeMp4Animation, validateViewport, Mp4.try_block,
    Mp4.finally_block, frames_at, ticks_at.
  rewrite Hvp, Hd. cbv zeta.
  destruct (customBackground p) as [c|] eqn:Hbg.
  all: wp_go Hq.
  all: try (once (refused_contra HaW HaH HaQ HaF)).
  all: fold (configured env p); fold (normalized p); rewrite Hrate.
  all: set (N := sampleCount d (rate_in_encoder env p)).
  all: apply wp_for_to with
    (Inv := fun i s =>
       0 <= i
       /\ enc_frames (encoder s)
          = map (frame_at p (stepMs d N)) (zrange 0 (Z.to_nat i))
       /\ added (trace s)
          = added (trace s0)
            ++ map (frame_at p (stepMs d N)) (zrange 0 (Z.to_nat i))
       /\ ticks (trace s)
          = ticks (trace s0)
            ++ map (fun i => (js_mul (inject_Z i) (stepMs d N), i, N))
                   (zrange 0 (Z.to_nat i))
       /\ enc_frameRate (encoder s) = rate_in_encoder env p
       /\ enc_quantizationParameter (encoder s)
          = quantization_in_encoder env p
       /\ enc_width (encoder s)
          = Qfloor (keeps env Width (inject_Z (vp_width (normalized p))))
       /\ enc_height (encoder s)
          = Qfloor (keeps env Height (inject_Z (vp_height (normalized p)))));
    [ simpl_state; trace_facts; cbn [Z.to_nat zrange seq map];
      rewrite ?app_nil_r; auto 12 with zarith
    | intros i s [_ Hi] (H0 & Hf & Ha & Ht & Hr & Hq' & Hew & Heh);
      unfold Mp4.sample, getImageData; wp_go Hq;
      trace_facts; rewrite zrange_next, !map_app by assumption; cbn [map];
      rewrite Hf, Ha, Ht, <- !app_assoc; cbn [app];
      fold (normalized p); fold (frame_at p (stepMs d N) i);
      auto 12 with zarith
    | intros s (H0 & Hf & Ha & Ht & Hr & Hq' & Hew & Heh);
      replace (Z.to_nat (Z.max 0 (N + 1))) with (Z.to_nat (N + 1)) in * by lia;
      wp_go Hq; trace_facts; auto 12 ].
Qed.

(** *** How the [try] block leaves *)

Lemma threw_snoc env tr c k :
  threw env (tr ++ [c]) k <->
  threw env tr k \/ (k = List.length tr /\ throws env tr c = true).
Proof.
  unfold threw. split.
  - intros (c' & Hn & Ht). destruct (Nat.lt_ge_cases k (List.length tr)) as [Hlt|Hge].
    + left. exists c'. rewrite nth_error_app1 in Hn by exact Hlt.
      rewrite firstn_app in Ht.
      replace (k - List.length tr)%nat with O in Ht by lia.
      cbn [firstn] in Ht. rewrite app_nil_r in Ht. auto.
    + right.
      assert (Hk : (k < List.length (tr ++ [c]))%nat).
      { apply nth_error_Some. congruence. }
      rewrite length_app in Hk. cbn in Hk.
      assert (k = List.length tr) by lia. subst k. split; [reflexivity|].
      rewrite nth_error_app2, Nat.sub_diag in Hn by lia. cbn in Hn.
      injection Hn as <-.
      rewrite firstn_app, Nat.sub_diag, firstn_all in Ht.
      cbn [firstn] in Ht. rewrite app_nil_r in Ht. exact Ht.
  - intros [(c' & Hn & Ht) | [-> Ht]].
    + assert (Hk : (k < List.length tr)%nat).
      { apply nth_error_Some. congruence. }
      exists c'. rewrite nth_error_app1 by exact Hk. split; [exact Hn|].
      rewrite firstn_app. replace (k - List.length tr)%nat with O by lia.
      cbn [firstn]. rewrite app_nil_r. exact Ht.
    + exists c. rewrite nth_error_app2, Nat.sub_diag by lia.
      split; [reflexivity|].
      rewrite firstn_app, Nat.sub_diag, firstn_all. cbn [firstn].
      rewrite app_nil_r. exact Ht.
Qed.

Lemma clean_snoc env n0 tr c :
  clean env n0 tr -> throws env tr c = false -> clean env n0 (tr ++ [c]).
Proof.
  intros Hc Hf k Hk Ht. apply threw_snoc in Ht.
  destruct Ht as [Ht | [_ Ht]]; [exact (Hc k Hk Ht) | congruence].
Qed.

Lemma reported_snoc env n0 e tr c :
  reported env n0 e tr -> throws env tr c = false ->
  reported env n0 e (tr ++ [c]).
Proof.
  intros Hr Hf k Hk Ht. apply threw_snoc in Ht.
  destruct Ht as [Ht | [_ Ht]]; [exact (Hr k Hk Ht) | congruence].
Qed.

Lemma clean_reported env n0 e tr : clean env n0 tr -> reported env n0 e tr.
Proof. intros Hc k Hk Ht. destruct (Hc k Hk Ht). Qed.

Lemma clean_throw env n0 tr c :
  clean env n0 tr ->
  reported env n0 (CallFailed (List.length tr)) (tr ++ [c]).
Proof.
  intros Hc k Hk Ht. apply threw_snoc in Ht.
  destruct Ht as [Ht | [-> _]]; [destruct (Hc k Hk Ht) | reflexivity].
Qed.

Lemma threw_snoc_l env tr c k : threw env tr k -> threw env (tr ++ [c]) k.
Proof. intros H. apply threw_snoc. left. exact H. Qed.

Lemma threw_last env tr c :
  throws env tr c = true -> threw env (tr ++ [c]) (List.length tr).
Proof. intros H. apply threw_snoc. right. auto. Qed.

(** The throwing call of a branch is in its trace. *)
Ltac find_throw H :=
  first [ apply threw_last; exact H
        | exact H
        | apply threw_snoc_l; find_throw H ].

Ltac solve_threw :=
  lazymatch goal with
  | |- wp _ _ _ _ => fail
  | H : throws _ _ _ = true |- exists k, threw _ _ k =>
      simpl_state; eexists; find_throw H
  | H : exists k, threw _ _ k |- exists k, threw _ _ k =>
      let k := fresh "k" in
      destruct H as [k H]; simpl_state; exists k; find_throw H
  end.

Lemma mp4_sample_exits env p nvp N dt i s :
  stoppedAnimation s = false ->
  wp (Mp4.sample env p nvp N dt i)
     (fun _ s' => stoppedAnimation s' = false)
     (fun _ s' => exists k, threw env (trace s') k) s.
Proof.
  intros H. unfold Mp4.sample, getImageData. wp_split.
  all: first [ solve_threw | assumption | reflexivity ].
Qed.

(** The [try] block returns with the animation stopped, or throws because
    some call threw. *)
Lemma mp4_try_block_exits env p d nvp s :
  wp (Mp4.try_block env p d nvp)
     (fun _ s' => stoppedAnimation s' = true)
     (fun _ s' => exists k, threw env (trace s') k) s.
Proof.
  unfold Mp4.try_block.
  destruct (customBackground p) as [c|].
  all: wp_split.
  all: try (once solve_threw).
  all: apply wp_for_to with (Inv := fun (_ : Z) s' => stoppedAnimation s' = false);
    [ reflexivity
    | intros i s1 _ H1; apply (mp4_sample_exits env p _ _ _ i s1 H1)
    | ].
  all: intros s1 H1; wp_split.
  all: first [ solve_threw | reflexivity ].
Qed.

(** A throwing call of the restoration path contradicts
    [restoration_reliable env]. *)
Ltac restoring_returns HrD HrC HrS HrA Hth :=
  lazymatch goal with
  | H : throws _ ?h EncoderDelete = true |- _ =>
      rewrite (HrD h) in H; discriminate H
  | H : throws _ ?h (CanvasSetProps ?bg ?tb false) = true |- _ =>
      rewrite (HrC h bg tb) in H; discriminate H
  | H : throws _ ?h LoopStart = true |- _ =>
      rewrite (HrS h) in H; discriminate H
  | H : throws _ ?h AnimationStop = true |- _ =>
      let k := fresh "k" in
      let Hk := fresh "Hk" in
      destruct Hth as [k Hk];
      rewrite (HrA h k) in H;
      [ discriminate H | find_throw Hk ]
  end.

Lemma wp_and {A} (m : M A) Q1 Q2 E1 E2 s :
  wp m Q1 E1 s -> wp m Q2 E2 s ->
  wp m (fun a s' => Q1 a s' /\ Q2 a s') (fun e s' => E1 e s' /\ E2 e s') s.
Proof. unfold wp. destruct (m s) as [[a|e] s']; auto. Qed.

(** *** Restoration of the presentation state *)

Ltac bool_facts :=
  repeat match goal with
    | H : true = false -> _ |- _ => clear H
    | H : false = true -> _ |- _ => clear H
    | H : ?a = ?a -> _ |- _ => specialize (H eq_refl)
    end.

Lemma mp4_finally_restores env p s0 s :
  restoration_reliable env ->
  restorable p s0 s ->
  (stoppedAnimation s = false -> exists k, threw env (trace s) k) ->
  wp (Mp4.finally_block env p (canvas3d s0) (isAnimating s0))
     (fun _ s' => restored s0 s' /\ passPostprocessing s' = passPostprocessing s)
     (fun _ _ => False) s.
Proof.
  intros (HrD & HrC & HrS & HrA) (Hc & Hi & Hpl) Hth.
  unfold Mp4.finally_block, canvas3d_setProps, restored, overridden in *.
  destruct (customBackground p) as [c|] eqn:Hbg;
    destruct (canvas3d s0) as [cp|] eqn:Hcv;
    destruct (isAnimating s0) eqn:Han;
    destruct (finalized s) eqn:Hfin;
    destruct (stoppedAnimation s) eqn:Hst;
    cbn [option_map] in Hc.
  all: bool_facts.
  all: destruct Hc as [Hc|Hc]; wp_split.
  all: try (once (restoring_returns HrD HrC HrS HrA Hth)).
  all: canvas_facts.
  all: repeat apply conj; auto.
  all: try (intros; discriminate).
  all: try (intros Hp; destruct (Hpl Hp); [discriminate | assumption]).
Qed.

Lemma mp4_sample_restorable env p s0 nvp N dt i s :
  restorable p s0 s /\ stoppedAnimation s = false ->
  wp (Mp4.sample env p nvp N dt i)
     (fun _ s' => (restorable p s0 s' /\ stoppedAnimation s' = false)
                  /\ passPostprocessing s' = passPostprocessing s)
     (fun _ s' => restorable p s0 s'
                  /\ passPostprocessing s' = passPostprocessing s) s.
Proof.
  intros [(Hc & Hi & Hpl) Hst].
  unfold Mp4.sample, getImageData, restorable. wp_split.
  all: auto 10.
Qed.

Lemma mp4_try_block_restorable env p s0 d nvp s :
  canvas3d s = canvas3d s0 ->
  isAnimating s = isAnimating s0 ->
  animationPlaying s = animationPlaying s0 ->
  wp (Mp4.try_block env p d nvp)
     (fun _ s' => restorable p s0 s'
                  /\ passPostprocessing s' = passPostprocessing s)
     (fun _ s' => restorable p s0 s'
                  /\ passPostprocessing s' = passPostprocessing s) s.
Proof.
  intros Hc Hi Hpl.
  assert (Hleaf : forall s',
            (canvas3d s' = canvas3d s
             \/ canvas3d s' = overridden false p (canvas3d s)) ->
            (isAnimating s' = isAnimating s \/ isAnimating s' = false) ->
            (animationPlaying s' = animationPlaying s
             \/ stoppedAnimation s' = false \/ animationPlaying s' = false) ->
            restorable p s0 s').
  { intros s' Hc' Hi' Hpl'. unfold restorable. rewrite <- Hc, <- Hi, <- Hpl.
    split; [exact Hc'|]. split.
    - intros H. destruct Hi' as [Hi'|Hi']; congruence.
    - intros H. destruct Hpl' as [Hpl'|[Hpl'|Hpl']]; [right|left|]; congruence. }
  unfold Mp4.try_block.
  destruct (customBackground p) as [c|] eqn:Hbg.
  all: wp_split.
  all: try (once (split; [apply Hleaf; unfold overridden; simpl_state;
                          use_facts; cbn [option_map]; auto | reflexivity]; fail)).
  all: apply wp_for_to with
    (Inv := fun (_ : Z) s' =>
       (restorable p s0 s' /\ stoppedAnimation s' = false)
       /\ passPostprocessing s' = passPostprocessing s);
    [ split; [split; [apply Hleaf; unfold overridden; simpl_state;
                      use_facts; cbn [option_map]; auto | reflexivity] | reflexivity]
    | intros i s1 _ [Hr Hpp];
      eapply wp_mono; [apply (mp4_sample_restorable env p s0 _ _ _ i s1 Hr) | |];
      cbn beta; intros ? s2 [H1 H2]; (split; [exact H1 | rewrite H2; exact Hpp])
    | ].
  all: intros s1 [[(Hc1 & Hi1 & Hpl1) Hst1] Hpp1]; wp_split.
  all: unfold restorable; simpl_state.
  all: repeat split; auto; try (intros; discriminate).
Qed.

Lemma mp4_restores env p s0 :
  restoration_reliable env ->
  wp (Mp4.encodeMp4Animation env p)
     (fun _ s' =>
        restored s0 s'
        /\ passPostprocessing s'
           = merge (passPostprocessing s0) (postprocessing p))
     (fun _ s' => restored s0 s') s0.
Proof.
  intros Hrel.
  assert (Hsame : forall s, canvas3d s = canvas3d s0 ->
                            isAnimating s = isAnimating s0 ->
                            animationPlaying s = animationPlaying s0 ->
                            restored s0 s).
  { intros s Hc Hi Hpl. unfold restored. rewrite Hc, Hi, Hpl. auto. }
  unfold Mp4.encodeMp4Animation, validateViewport.
  destruct (viewport_exceeds p); [wp_split; apply Hsame; reflexivity|].
  destruct (getDuration (animation p)) as [d|];
    [|wp_split; apply Hsame; reflexivity].
  cbv zeta. wp_split.
  all: try (once (apply Hsame; reflexivity)).
  eapply wp_mono;
    [ apply wp_and;
      [ apply (mp4_try_block_restorable env p s0); reflexivity
      | apply mp4_try_block_exits ]
    | | ];
    cbn beta; simpl_state; intros ? s1 [[Hr Hpp] Hx].
  - eapply wp_mono; [apply (mp4_finally_restores env p s0 s1 Hrel Hr) | |];
      cbn beta; [congruence | | tauto].
    intros _ s2 [Hr2 Hpp2]. split; [exact Hr2 | congruence].
  - eapply wp_mono; [apply (mp4_finally_restores env p s0 s1 Hrel Hr) | |];
      cbn beta; [intros _; exact Hx | | tauto].
    intros _ s2 [Hr2 Hpp2]. exact Hr2.
Qed.

(** *** Disposal of the encoder *)

Lemma calls_app f a b : calls f (a ++ b) = calls f a ++ calls f b.
Proof. apply filter_app. Qed.

Ltac calls_facts :=
  rewrite ?calls_app;
  cbn [calls filter is_delete is_finalize app];
  rewrite ?app_nil_r.

Ltac solve_undisposed :=
  lazymatch goal with
  | |- wp _ _ _ _ => fail
  | H : undisposed ?s |- _ =>
      let H1 := fresh in let H2 := fresh in let H3 := fresh in let H4 := fresh in
      destruct H as (H1 & H2 & H3 & H4);
      unfold undisposed, disposable; simpl_state; calls_facts;
      fold (calls is_delete (trace s)); fold (calls is_finalize (trace s));
      rewrite ?H1, ?H2, ?H3, ?H4; cbn [app]; solve [auto 10]
  end.

Lemma mp4_sample_undisposed env p nvp N dt i s :
  undisposed s ->
  wp (Mp4.sample env p nvp N dt i)
     (fun _ s' => undisposed s') (fun _ s' => undisposed s') s.
Proof.
  intros H. unfold Mp4.sample, getImageData. wp_split.
  all: solve_undisposed.
Qed.

Lemma mp4_try_block_disposable env p d nvp s :
  undisposed s ->
  wp (Mp4.try_block env p d nvp)
     (fun _ s' => disposable s' /\ finalized s' = true)
     (fun _ s' => disposable s') s.
Proof.
  intros H. unfold Mp4.try_block.
  destruct (customBackground p) as [c|].
  all: wp_split.
  all: try (once solve_undisposed).
  all: apply wp_for_to with (Inv := fun (_ : Z) s' => undisposed s');
    [ solve_undisposed
    | intros i s1 _ H1; eapply wp_mono;
      [apply (mp4_sample_undisposed env p _ _ _ i s1 H1) | |];
      cbn beta; auto; intros ? ? H2; solve_undisposed
    | ].
  all: clear H; intros s1 H; wp_split.
  all: try (once solve_undisposed).
  all: split; [solve_undisposed | reflexivity].
Qed.

Ltac solve_disposed Hdel Hfin Henc :=
  lazymatch goal with
  | |- wp _ _ _ _ => fail
  | |- disposed_iff_finalized ?s' =>
      unfold disposed_iff_finalized; simpl_state; calls_facts;
      repeat lazymatch goal with
        | |- context [filter is_delete (trace ?s)] =>
            fold (calls is_delete (trace s))
        | |- context [filter is_finalize (trace ?s)] =>
            fold (calls is_finalize (trace s))
        end;
      rewrite ?assigned_finalized, ?enc_store_finalized; simpl_state;
      rewrite ?Hdel, ?Hfin, ?Henc; cbn [app]; solve [auto 10]
  end.

Lemma mp4_finally_disposal env p cv wa s :
  disposable s ->
  wp (Mp4.finally_block env p cv wa)
     (fun _ s' => disposed_iff_finalized s')
     (fun _ s' => disposed_iff_finalized s') s.
Proof.
  intros (Hdel & [(Hf & Hfin & Henc) | (Hf & Henc)]);
    unfold Mp4.finally_block;
    destruct (customBackground p) as [c|];
    wp_split.
  all: first [ solve_disposed Hdel Hfin Henc | solve_disposed Hdel Hdel Henc ].
Qed.

Ltac solve_deleted Hdel :=
  lazymatch goal with
  | |- wp _ _ _ _ => fail
  | _ =>
      simpl_state; calls_facts;
      repeat lazymatch goal with
        | |- context [filter is_delete (trace ?s)] =>
            fold (calls is_delete (trace s))
        end;
      rewrite ?Hdel; reflexivity
  end.

(** Once [finalize] has returned, the restoration path calls [delete]. *)
Lemma mp4_finally_deletes env p cv wa s :
  calls is_delete (trace s) = [] ->
  finalized s = true ->
  wp (Mp4.finally_block env p cv wa)
     (fun _ s' => calls is_delete (trace s') = [EncoderDelete])
     (fun _ s' => calls is_delete (trace s') = [EncoderDelete]) s.
Proof.
  intros Hdel Hf. unfold Mp4.finally_block.
  destruct (customBackground p) as [c|]; wp_split.
  all: solve_deleted Hdel.
Qed.

Lemma mp4_disposal env p s0 :
  trace s0 = [] ->
  enc_finalized (encoder s0) = false ->
  wp (Mp4.encodeMp4Animation env p)
     (fun _ s' => disposed_iff_finalized s'
                  /\ calls is_delete (trace s') = [EncoderDelete])
     (fun _ s' => disposed_iff_finalized s') s0.
Proof.
  intros Htr Henc.
  assert (Hdel : calls is_delete (trace s0) = []) by (rewrite Htr; reflexivity).
  destruct (configured_facts env p) as (_ & _ & _ & _ & _ & Hcf & _).
  unfold Mp4.encodeMp4Animation, validateViewport.
  destruct (viewport_exceeds p); [wp_split; solve_disposed Hdel Hdel Henc|].
  destruct (getDuration (animation p)) as [d|];
    [|wp_split; solve_disposed Hdel Hdel Henc].
  cbv zeta. wp_split.
  all: fold (configured env p).
  all: try (once (first [ solve_disposed Hdel Hdel Henc
                        | solve_disposed Hdel Hdel Hcf ])).
  eapply wp_mono;
    [apply mp4_try_block_disposable | |];
    [ unfold undisposed; simpl_state; calls_facts; rewrite Htr; cbn; auto
    | cbn beta; intros ? s1 [H1 Hf];
      eapply wp_mono;
      [apply (wp_and _ _ _ _ _ _
                (mp4_finally_disposal env p _ _ s1 H1)
                (mp4_finally_deletes env p _ _ s1 (proj1 H1) Hf)) | |];
      cbn beta; tauto
    | cbn beta; intros ? s1 H1; apply mp4_finally_disposal, H1 ].
Qed.

(** *** Propagation of errors *)

Ltac solve_clean :=
  lazymatch goal with
  | |- wp _ _ _ _ => fail
  | _ => idtac
  end;
  simpl_state;
  first
    [ apply clean_throw
    | apply clean_reported
    | idtac ];
  repeat (apply clean_snoc; [|assumption]);
  assumption.

Lemma mp4_sample_clean env n0 p nvp N dt i s :
  clean env n0 (trace s) ->
  wp (Mp4.sample env p nvp N dt i)
     (fun _ s' => clean env n0 (trace s'))
     (fun e s' => reported env n0 e (trace s')) s.
Proof.
  intros H. unfold Mp4.sample, getImageData. wp_split.
  all: solve_clean.
Qed.

Lemma mp4_try_block_clean env n0 p d nvp s :
  clean env n0 (trace s) ->
  wp (Mp4.try_block env p d nvp)
     (fun _ s' => clean env n0 (trace s'))
     (fun e s' => reported env n0 e (trace s')) s.
Proof.
  intros H. unfold Mp4.try_block.
  destruct (customBackground p) as [c|].
  all: wp_split.
  all: try (once solve_clean).
  all: apply wp_for_to with (Inv := fun (_ : Z) s' => clean env n0 (trace s'));
    [ solve_clean
    | intros i s1 _ H1; apply (mp4_sample_clean env n0 p _ _ _ i s1 H1)
    | ].
  all: clear H; intros s1 H; wp_split.
  all: solve_clean.
Qed.

(** The restoration path throws nothing and keeps what is known of the
    trace, when this survives calls that return. *)
Lemma mp4_finally_keeps env p cv wa (P : list Call -> Prop) s :
  restoration_reliable env ->
  (forall tr c, P tr -> throws env tr c = false -> P (tr ++ [c])) ->
  (stoppedAnimation s = false -> exists k, threw env (trace s) k) ->
  P (trace s) ->
  wp (Mp4.finally_block env p cv wa)
     (fun _ s' => P (trace s')) (fun _ _ => False) s.
Proof.
  intros (HrD & HrC & HrS & HrA) Hsnoc Hth HP. unfold Mp4.finally_block.
  destruct (stoppedAnimation s) eqn:Hst; bool_facts;
    destruct (customBackground p) as [c|]; wp_split.
  all: try (once (restoring_returns HrD HrC HrS HrA Hth)).
  all: repeat (apply Hsnoc; [|assumption]); exact HP.
Qed.

Lemma mp4_propagates env p s0 :
  restoration_reliable env ->
  wp (Mp4.encodeMp4Animation env p)
     (fun _ s' => clean env (List.length (trace s0)) (trace s'))
     (fun e s' => reported env (List.length (trace s0)) e (trace s')) s0.
Proof.
  intros Hrel.
  assert (H0 : clean env (List.length (trace s0)) (trace s0)).
  { intros k Hk (c & Hn & _).
    assert (k < List.length (trace s0))%nat by (apply nth_error_Some; congruence).
    lia. }
  unfold Mp4.encodeMp4Animation, validateViewport.
  destruct (viewport_exceeds p); [wp_split; solve_clean|].
  destruct (getDuration (animation p)) as [d|]; [|wp_split; solve_clean].
  cbv zeta. wp_split.
  all: try (once solve_clean).
  eapply wp_mono;
    [ apply wp_and;
      [ apply (mp4_try_block_clean env (List.length (trace s0))); solve_clean
      | apply mp4_try_block_exits ]
    | | ];
    cbn beta; intros ? s1 [H1 Hx].
  - eapply wp_mono;
      [apply (mp4_finally_keeps env p _ _
                (clean env (List.length (trace s0))) s1 Hrel);
       [intros; apply clean_snoc; assumption | congruence | exact H1] | |];
      cbn beta; [auto | tauto].
  - eapply wp_mono;
      [apply (mp4_finally_keeps env p _ _
                (reported env (List.length (trace s0)) e) s1 Hrel);
       [intros; apply reported_snoc; assumption | intros _; exact Hx | exact H1] | |];
      cbn beta; [auto | tauto].
Qed.

(** ** The runs of [encodeWebmAnimation] *)

Lemma webm_dual_run_quiet env p out s0 d :
  never_throws env ->
  viewport_exceeds p = false ->
  getDuration (animation p) = Some d ->
  wp (WebmDual.encodeWebmAnimation env p out)
     (fun _ s' =>
        images s' = frames_of p d
        /\ ticks (trace s') = ticks (trace s0) ++ ticks_of p d
        /\ ffmpeg_inputs (trace s')
           = ffmpeg_inputs (trace s0) ++ [frames_of p d; frames_of p d])
     (fun _ _ => False) s0.
Proof.
  intros Hq Hvp Hd.
  unfold WebmDual.encodeWebmAnimation, WebmDual.try_block, validateViewport.
  rewrite Hvp, Hd. cbv zeta.
  change (WebmDual.resolve_fps (fps p)) with (frameRate_used p).
  fold (normalized p).
  set (N := sampleCount d (frameRate_used p)).
  destruct (customBackground p) as [c|] eqn:Hbg.
  all: wp_go Hq.
  all: apply wp_for_to with
    (Inv := fun i s =>
       0 <= i
       /\ images s = map (frame_at p (stepMs d N)) (zrange 0 (Z.to_nat i))
       /\ ticks (trace s)
          = ticks (trace s0)
            ++ map (fun i => (js_mul (inject_Z i) (stepMs d N), i, N))
                   (zrange 0 (Z.to_nat i))
       /\ ffmpeg_inputs (trace s) = ffmpeg_inputs (trace s0));
    [ simpl_state; trace_facts; cbn [Z.to_nat zrange seq map];
      rewrite ?app_nil_r; auto 12 with zarith
    | intros i s [_ Hi] (H0 & Hf & Ht & Hm);
      unfold WebmDual.sample, getImageData; wp_go Hq;
      trace_facts; rewrite zrange_next, !map_app by assumption; cbn [map];
      rewrite Hf, Ht, <- !app_assoc; cbn [app];
      fold (frame_at p (stepMs d N) i);
      auto 12 with zarith
    | intros s (H0 & Hf & Ht & Hm);
      replace (Z.to_nat (Z.max 0 (N + 1))) with (Z.to_nat (N + 1)) in * by lia;
      wp_go Hq; trace_facts; rewrite Hm, Hf, <- ?app_assoc; cbn [app]; auto 12 ].
Qed.

Lemma webm_single_run_quiet env p s0 d :
  never_throws env ->
  viewport_exceeds p = false ->
  getDuration (animation p) = Some d ->
  wp (WebmSingle.encodeWebmAnimation env p)
     (fun r s' =>
        r = (if ffmpegFails env then WebmSingle.Rejected FfmpegError
             else WebmSingle.Pending)
        /\ images s' = frames_of p d
        /\ ticks (trace s') = ticks (trace s0) ++ ticks_of p d
        /\ ffmpeg_inputs (trace s')
           = ffmpeg_inputs (trace s0) ++ [frames_of p d])
     (fun _ _ => False) s0.
Proof.
  intros Hq Hvp Hd.
  unfold WebmSingle.encodeWebmAnimation, WebmSingle.try_block, validateViewport.
  rewrite Hvp, Hd. cbv zeta.
  change (WebmSingle.resolve_fps (fps p)) with (frameRate_used p).
  fold (normalized p).
  set (N := sampleCount d (frameRate_used p)).
  destruct (customBackground p) as [c|] eqn:Hbg.
  all: wp_go Hq.
  all: apply wp_for_to with
    (Inv := fun i s =>
       0 <= i
       /\ images s = map (frame_at p (stepMs d N)) (zrange 0 (Z.to_nat i))
       /\ ticks (trace s)
          = ticks (trace s0)
            ++ map (fun i => (js_mul (inject_Z i) (stepMs d N), i, N))
                   (zrange 0 (Z.to_nat i))
       /\ ffmpeg_inputs (trace s) = ffmpeg_inputs (trace s0));
    [ simpl_state; trace_facts; cbn [Z.to_nat zrange seq map];
      rewrite ?app_nil_r; auto 12 with zarith
    | intros i s [_ Hi] (H0 & Hf & Ht & Hm);
      unfold WebmSingle.sample, getImageData; wp_go Hq;
      trace_facts; rewrite zrange_next, !map_app by assumption; cbn [map];
      rewrite Hf, Ht, <- !app_assoc; cbn [app];
      fold (frame_at p (stepMs d N) i);
      auto 12 with zarith
    | intros s (H0 & Hf & Ht & Hm);
      replace (Z.to_nat (Z.max 0 (N + 1))) with (Z.to_nat (N + 1)) in * by lia;
      wp_go Hq; trace_facts; rewrite Hm, Hf, <- ?app_assoc; cbn [app]; auto 12 ].
Qed.

(** Whatever the body throws, [encodeWebmAnimation] logs it and returns. *)
Lemma webm_dual_swallows env p out s0 :
  (forall h e, throws env h (ConsoleError e) = false) ->
  match WebmDual.try_block env p out s0 with
  | (Ok _, s1) => WebmDual.encodeWebmAnimation env p out s0 = (Ok tt, s1)
  | (Throw e, s1) =>
      WebmDual.encodeWebmAnimation env p out s0
      = (Ok tt, logged (ConsoleError e) s1)
  end.
Proof.
  intros Hlog. unfold WebmDual.encodeWebmAnimation, try_catch.
  destruct (WebmDual.try_block env p out s0) as [[[]|e] s1]; [reflexivity|].
  unfold call. rewrite Hlog. reflexivity.
Qed.

Lemma webm_single_swallows env p s0 :
  (forall h e, throws env h (ConsoleError e) = false) ->
  match WebmSingle.try_block env p s0 with
  | (Ok r, s1) => WebmSingle.encodeWebmAnimation env p s0 = (Ok r, s1)
  | (Throw e, s1) =>
      WebmSingle.encodeWebmAnimation env p s0
      = (Ok WebmSingle.Pending, logged (ConsoleError e) s1)
  end.
Proof.
  intros Hlog. unfold WebmSingle.encodeWebmAnimation, try_catch.
  destruct (WebmSingle.try_block env p s0) as [[r|e] s1]; [reflexivity|].
  unfold bind, call. rewrite Hlog. reflexivity.
Qed.

(** The promise of the one-file [encodeWebmAnimation] is handed to the caller
    whatever happens: the routine never throws. *)
Lemma webm_single_never_throws env p s0 :
  exists r s', WebmSingle.encodeWebmAnimation env p s0 = (Ok r, s').
Proof.
  unfold WebmSingle.encodeWebmAnimation.
  unfold try_catch at 1.
  destruct (try_catch _ _ s0) as [[r|e] s1]; unfold ret; eauto.
Qed.

(** ** More arithmetic *)

Lemma truthy_nonzero q : truthy q = true -> ~ (q == 0)%Q.
Proof.
  unfold truthy. intros H. apply negb_true_iff in H.
  apply Qeq_bool_neq. exact H.
Qed.

Lemma frameRate_used_nonzero p : ~ (frameRate_used p == 0)%Q.
Proof.
  unfold frameRate_used. destruct (fps p) as [f|]; [|discriminate].
  destruct (truthy f) eqn:Hf; [apply truthy_nonzero, Hf | discriminate].
Qed.


Lemma falsy_frameRate p :
  truthy_opt (fps p) = false -> frameRate_used p = default_frameRate.
Proof.
  unfold truthy_opt, frameRate_used. destruct (fps p) as [f|]; [|reflexivity].
  intros ->. reflexivity.
Qed.




Lemma zrange_nth_error lo n k :
  (k < n)%nat -> nth_error (zrange lo n) k = Some (lo + Z.of_nat k).
Proof.
  induction n as [|n IH]; intros Hk; [lia|].
  rewrite zrange_snoc. destruct (Nat.eq_dec k n) as [->|Hne].
  - rewrite nth_error_app2 by (rewrite zrange_length; lia).
    rewrite zrange_length, Nat.sub_diag. reflexivity.
  - rewrite nth_error_app1 by (rewrite zrange_length; lia). apply IH. lia.
Qed.

Lemma frames_at_length p r d :
  List.length (frames_at p r d) = Z.to_nat (sampleCount d r + 1).
Proof. unfold frames_at. cbv zeta. rewrite length_map, zrange_length. reflexivity. Qed.

Lemma frames_of_length p d :
  List.length (frames_of p d)
  = Z.to_nat (sampleCount d (frameRate_used p) + 1).
Proof. apply frames_at_length. Qed.

Lemma frames_at_nth p r d i :
  0 <= i <= sampleCount d r ->
  nth_error (frames_at p r d) (Z.to_nat i)
  = Some (frame_at p (stepMs d (sampleCount d r)) i).
Proof.
  intros Hi. unfold frames_at. cbv zeta.
  rewrite nth_error_map, zrange_nth_error by lia. cbn [option_map].
  do 2 f_equal. lia.
Qed.

Lemma ticks_at_nth r d i :
  0 <= i <= sampleCount d r ->
  nth_error (ticks_at r d) (Z.to_nat i)
  = Some (js_mul (inject_Z i) (stepMs d (sampleCount d r)), i, sampleCount d r).
Proof.
  intros Hi. unfold ticks_at. cbv zeta.
  rewrite nth_error_map, zrange_nth_error by lia. cbn [option_map].
  replace (0 + Z.of_nat (Z.to_nat i)) with i by lia. reflexivity.
Qed.

(** The facts of a schedule of positive duration and rate: at least one
    sample, the frames in sample-index order, the first at [t = 0], the last
    within [2^-51] of the duration, relatively. *)
Lemma schedule_facts p rate d :
  (0 < d)%Q -> (0 < rate)%Q ->
  let N := sampleCount d rate in
  let frames := frames_at p rate d in
  1 <= N
  /\ Z.of_nat (List.length frames) = N + 1
  /\ (forall i, 0 <= i <= N ->
                nth_error frames (Z.to_nat i) = Some (frame_at p (stepMs d N) i))
  /\ (exists f, nth_error frames 0 = Some f /\ is_time (img_time f) 0)
  /\ (exists f t, nth_error frames (Z.to_nat N) = Some f
                  /\ img_time f = Fin t
                  /\ (Qabs (t - d) <= d * (1 # 2251799813685248))%Q).
Proof.
  intros Hd Hr N frames.
  assert (HN : 1 <= N) by (apply sampleCount_pos; assumption).
  destruct (stepMs_pos d N Hd HN) as (q & Hstep & Hq0 & _ & Hlast & Htol).
  split; [exact HN|]. split; [|split; [|split]].
  - unfold frames. rewrite frames_at_length. fold N. lia.
  - intros i Hi. apply frames_at_nth. exact Hi.
  - exists (frame_at p (stepMs d N) 0). split.
    + apply (frames_at_nth p rate d 0). fold N. lia.
    + cbn [frame_at img_time]. rewrite Hstep. cbn [js_mul is_time].
      rewrite round_double_zero by reflexivity. reflexivity.
  - exists (frame_at p (stepMs d N) N), (round_double (inject_Z N * q)).
    split; [apply (frames_at_nth p rate d N); fold N; lia|].
    split; [exact Hlast | exact Htol].
Qed.

Lemma viewport_exceeds_iff p :
  viewport_exceeds p = true <->
  (vp_x (viewport p) + vp_width (viewport p) > width p
   \/ vp_y (viewport p) + vp_height (viewport p) > height p).
Proof.
  unfold viewport_exceeds. rewrite orb_true_iff, !Z.gtb_gt. lia.
Qed.

(** ** The claims *)

(** C1 (amended).  For every job with the viewport within bounds, a defined
    duration [durationMs > 0] and a positive frame rate, run while every
    external call returns and the encoder accepts its settings: the sample
    count is [Math.ceil(durationMs / 1000 * frameRate)] as computed on
    doubles (the quotient and the product are rounded, so that it can exceed
    the exact ceiling); [encodeMp4Animation] appends exactly the
    [sampleCount + 1] frames of the samples [0 .. sampleCount], at the frame
    rate it reads back from the encoder, each once and in sample-index
    order, and the two-file [encodeWebmAnimation] collects the frames of the
    schedule at the rate it resolves and hands them to both ffmpeg commands;
    the first frame is rendered at [t = 0] and the last at
    [sampleCount * stepMs], which is [durationMs] up to rounding (within
    [2^-51], relatively). *)
Theorem sampling_produces_all_frames env p out s0 d :
  never_throws env ->
  accepts env p ->
  viewport_exceeds p = false ->
  getDuration (animation p) = Some d ->
  (0 < d)%Q ->
  (exists s', Mp4.encodeMp4Animation env p s0
              = (Ok (frames_at p (rate_in_encoder env p) d), s')
              /\ enc_frames (encoder s') = frames_at p (rate_in_encoder env p) d
              /\ added (trace s')
                 = added (trace s0) ++ frames_at p (rate_in_encoder env p) d)
  /\ (exists s', WebmDual.encodeWebmAnimation env p out s0 = (Ok tt, s')
                 /\ images s' = frames_at p (frameRate_used p) d
                 /\ ffmpeg_inputs (trace s')
                    = ffmpeg_inputs (trace s0)
                      ++ [frames_at p (frameRate_used p) d;
                          frames_at p (frameRate_used p) d])
  /\ forall rate, (0 < rate)%Q ->
       let N := Qceiling (round_double (round_double (d / 1000) * rate)) in
       let frames := frames_at p rate d in
       1 <= N
       /\ Z.of_nat (List.length frames) = N + 1
       /\ (forall i, 0 <= i <= N ->
              nth_error frames (Z.to_nat i) = Some (frame_at p (stepMs d N) i))
       /\ (exists f, nth_error frames 0 = Some f /\ is_time (img_time f) 0)
       /\ (exists f t, nth_error frames (Z.to_nat N) = Some f
                       /\ img_time f = Fin t
                       /\ (Qabs (t - d) <= d * (1 # 2251799813685248))%Q).
Proof.
  intros Hq Hacc Hvp Hd Hpos.
  split; [|split].
  - destruct (wp_returns _ _ _ (mp4_run_quiet env p s0 d Hq Hacc Hvp Hd))
      as (o & s' & Hrun & -> & Hf & Ha & _).
    exists s'. auto.
  - destruct (wp_returns _ _ _ (webm_dual_run_quiet env p out s0 d Hq Hvp Hd))
      as ([] & s' & Hrun & Hf & _ & Hm).
    exists s'. auto.
  - intros rate Hr. exact (schedule_facts p rate d Hpos Hr).
Qed.

Lemma sampling_produces_all_frames_witness :
  sampleCount 5000 30 = 150
  /\ List.length (frames_at jobA 30 5000) = 151%nat
  /\ exists s', Mp4.encodeMp4Animation quiet jobA viewer0
                = (Ok (frames_at jobA 30 5000), s').
Proof.
  split; [reflexivity|]. split; [reflexivity|].
  destruct (sampling_produces_all_frames quiet jobA "out" viewer0 5000)
    as ((s' & Hrun & _) & _).
  - intros h c. reflexivity.
  - unfold accepts. split_all; intros; reflexivity.
  - reflexivity.
  - reflexivity.
  - reflexivity.
  - exists s'. exact Hrun.
Defined.

(** The double computation of the sample count can exceed the exact
    ceiling: 8300 ms at 30 frames per second make 250 samples, not 249, and
    the last tick of 1000 ms at 30 frames per second is [1000 + 2^-43]. *)
Lemma double_schedule_examples :
  Qceiling (8300 / 1000 * 30) = 249
  /\ sampleCount 8300 30 = 250
  /\ List.length (ticks_at 30 8300) = 251%nat
  /\ sampleCount 1000 30 = 30
  /\ js_mul 30 (stepMs 1000 30) = Fin (8796093022208001 # 8796093022208).
Proof. split_all; vm_compute; reflexivity. Qed.

(** C1 (as stated) fails on a valid job whose animation lasts zero
    milliseconds: the single frame is rendered at [NaN], not at [t = 0]. *)
Lemma sampling_zero_duration_has_no_frame_at_zero :
  viewport_exceeds job_zero = false
  /\ getDuration (animation job_zero) = Some 0%Q
  /\ exists s',
      Mp4.encodeMp4Animation quiet job_zero viewer0
      = (Ok [mkImage NaN 800 800 (mkViewport 0 0 800 800)], s')
      /\ ~ (exists f, In f (enc_frames (encoder s'))
                      /\ is_time (img_time f) 0).
Proof.
  split; [reflexivity|]. split; [reflexivity|].
  eexists. split; [vm_compute; reflexivity|].
  cbn. intros (f & [<-|[]] & Ht). exact Ht.
Qed.

(** C2 (amended).  For [encodeMp4Animation], on every exit path (return, or
    failure of whatever call of the job) on which the calls of the [finally]
    block return: the background colour and the transparent-background flag
    are those of before the job, no playback started by the job is left
    running, and the clock runs if and only if it ran before the job.  The postprocessing properties
    are not restored: after a job that returns they are the merged
    properties. *)
Theorem presentation_restored_on_every_exit env p s0 r s' :
  restoration_reliable env ->
  Mp4.encodeMp4Animation env p s0 = (r, s') ->
  canvas3d s' = canvas3d s0
  /\ isAnimating s' = isAnimating s0
  /\ (animationPlaying s' = true -> animationPlaying s0 = true)
  /\ (is_ok r = true ->
      passPostprocessing s'
      = merge (passPostprocessing s0) (postprocessing p)).
Proof.
  intros Hrel Hrun.
  pose proof (wp_run _ _ _ _ (mp4_restores env p s0 Hrel) r s' Hrun) as H.
  destruct r as [out|e].
  - destruct H as [(Hc & Hi & Hpl) Hpp]. auto.
  - destruct H as (Hc & Hi & Hpl). repeat split; auto. discriminate.
Qed.

Lemma presentation_restored_on_every_exit_witness :
  let run := Mp4.encodeMp4Animation (fails_at_tick 1) job_bg viewer1 in
  fst run = Throw (CallFailed 14)
  /\ canvas3d (snd run) = canvas3d viewer1
  /\ isAnimating (snd run) = isAnimating viewer1.
Proof.
  intros run. split; [vm_compute; reflexivity|].
  destruct (presentation_restored_on_every_exit
              (fails_at_tick 1) job_bg viewer1 (fst run) (snd run))
    as (Hc & Hi & _).
  - unfold restoration_reliable. split_all; intros; reflexivity.
  - apply surjective_pairing.
  - split; [exact Hc | exact Hi].
Defined.

(** C2 (as stated) fails on the postprocessing properties: a job that
    overrides them leaves the override in place. *)
Lemma postprocessing_is_not_restored :
  let run := Mp4.encodeMp4Animation quiet job_bg viewer1 in
  is_ok (fst run) = true
  /\ prop_lookup "outline" (passPostprocessing viewer1) = Some 0
  /\ prop_lookup "outline" (passPostprocessing (snd run)) = Some 1
  /\ passPostprocessing (snd run) <> passPostprocessing viewer1.
Proof.
  cbv zeta. split_all; try (vm_compute; reflexivity).
  vm_compute. discriminate.
Qed.

(** C3.  A job whose viewport exceeds the target ([viewport.x +
    viewport.width > width] or [viewport.y + viewport.height > height])
    makes [encodeMp4Animation] throw after its first progress update and
    nothing else: no render call, no clock tick, no encoder, no change of the
    presentation state, no frame.  The error is the validation error as soon
    as the progress update returns.  The two revisions of
    [encodeWebmAnimation] stop at the same point, with the error handed to
    [console.error]. *)
Theorem viewport_violation_fails_first env p out s0 :
  (vp_x (viewport p) + vp_width (viewport p) > width p
   \/ vp_y (viewport p) + vp_height (viewport p) > height p) ->
  exists e,
    Mp4.encodeMp4Animation env p s0
    = (Throw e, set_trace (trace s0 ++ [CtxUpdate Initializing]) s0)
    /\ (throws env (trace s0) (CtxUpdate Initializing) = false ->
        e = ViewportExceeds)
    /\ snd (WebmDual.encodeWebmAnimation env p out s0)
       = set_trace ((trace s0 ++ [CtxUpdate Initializing])
                    ++ [ConsoleError e]) s0
    /\ snd (WebmSingle.encodeWebmAnimation env p s0)
       = set_trace ((trace s0 ++ [CtxUpdate Initializing])
                    ++ [ConsoleError e]) s0.
Proof.
  intros H. apply viewport_exceeds_iff in H.
  unfold Mp4.encodeMp4Animation, WebmDual.encodeWebmAnimation,
    WebmSingle.encodeWebmAnimation, WebmDual.try_block, WebmSingle.try_block,
    try_catch, bind, call, validateViewport, throw, ret.
  rewrite H. cbn [trace set_trace].
  destruct (throws env (trace s0) (CtxUpdate Initializing));
    eexists; (split; [reflexivity|]); (split; [discriminate || reflexivity|]);
    split;
    match goal with
    | |- context [throws env ?h ?c] => destruct (throws env h c); reflexivity
    end.
Qed.

Lemma viewport_violation_fails_first_witness :
  Mp4.encodeMp4Animation quiet jobB viewer0
  = (Throw ViewportExceeds,
     set_trace [CtxUpdate Initializing] viewer0).
Proof.
  destruct (viewport_violation_fails_first quiet jobB "out" viewer0)
    as (e & Hrun & He & _).
  - left. reflexivity.
  - rewrite Hrun, (He eq_refl). reflexivity.
Defined.

(** C4 (amended).  For every job with the viewport within bounds, a defined
    duration [durationMs > 0] and a positive frame rate, run while every
    external call returns and the encoder accepts its settings:
    [stepMs = durationMs / sampleCount], computed on doubles, is a positive
    finite number; the clock ticks of [encodeMp4Animation] (at the frame rate
    it reads back from the encoder) and of the one-file
    [encodeWebmAnimation] (at the rate it resolves) are, in this order, the
    ticks [i] of [0 .. sampleCount], tick [i] being invoked with exactly the
    double [i * stepMs]; and [stepMs * sampleCount] equals [durationMs] up to
    floating-point tolerance: within [2^-53] of it, relatively, before the
    product is rounded and within [2^-51] as the argument of the last
    tick. *)
Theorem clock_ticks_follow_schedule env p s0 d :
  never_throws env ->
  accepts env p ->
  viewport_exceeds p = false ->
  getDuration (animation p) = Some d ->
  (0 < d)%Q ->
  (exists out s', Mp4.encodeMp4Animation env p s0 = (Ok out, s')
                  /\ ticks (trace s')
                     = ticks (trace s0) ++ ticks_at (rate_in_encoder env p) d)
  /\ (exists r s', WebmSingle.encodeWebmAnimation env p s0 = (Ok r, s')
                   /\ ticks (trace s')
                      = ticks (trace s0) ++ ticks_at (frameRate_used p) d)
  /\ forall rate, (0 < rate)%Q ->
       let N := sampleCount d rate in
       let schedule :=
         map (fun i => (js_mul (inject_Z i) (stepMs d N), i, N))
             (zrange 0 (Z.to_nat (N + 1))) in
       ticks_at rate d = schedule
       /\ stepMs d N = js_div d (inject_Z N)
       /\ (exists q,
              stepMs d N = Fin q /\ (0 < q)%Q
              /\ (Qabs (q * inject_Z N - d) <= d * unit_roundoff)%Q
              /\ js_mul (inject_Z N) (stepMs d N)
                 = Fin (round_double (inject_Z N * q))
              /\ (Qabs (round_double (inject_Z N * q) - d)
                  <= d * (1 # 2251799813685248))%Q)
       /\ (forall i, 0 <= i <= N ->
                     nth_error schedule (Z.to_nat i)
                     = Some (js_mul (inject_Z i) (stepMs d N), i, N)).
Proof.
  intros Hq Hacc Hvp Hd Hpos.
  split; [|split].
  - destruct (wp_returns _ _ _ (mp4_run_quiet env p s0 d Hq Hacc Hvp Hd))
      as (o & s' & Hrun & _ & _ & _ & Ht & _).
    exists o, s'. auto.
  - destruct (wp_returns _ _ _ (webm_single_run_quiet env p s0 d Hq Hvp Hd))
      as (r & s' & Hrun & _ & _ & Ht & _).
    exists r, s'. auto.
  - intros rate Hr N schedule.
    assert (HN : 1 <= N) by (apply sampleCount_pos; assumption).
    split; [reflexivity|]. split; [reflexivity|].
    split; [apply stepMs_pos; assumption|].
    intros i Hi. apply (ticks_at_nth rate d i). exact Hi.
Qed.

Lemma clock_ticks_follow_schedule_witness :
  exists out s',
    Mp4.encodeMp4Animation quiet jobA viewer0 = (Ok out, s')
    /\ nth_error (ticks (trace s')) 150
       = Some (js_mul 150 (stepMs 5000 150), 150, 150).
Proof.
  destruct (clock_ticks_follow_schedule quiet jobA viewer0 5000)
    as ((out & s' & Hrun & Ht) & _ & Hsched).
  - intros h c. reflexivity.
  - unfold accepts. split_all; intros; reflexivity.
  - reflexivity.
  - reflexivity.
  - reflexivity.
  - exists out, s'. split; [exact Hrun|].
    rewrite Ht. cbn [viewer0 viewer trace ticks flat_map app].
    destruct (Hsched 30%Q eq_refl) as (Heq & _ & _ & Hnth).
    change (rate_in_encoder quiet jobA) with 30%Q. rewrite Heq.
    apply (Hnth 150). vm_compute. split; discriminate.
Defined.

(** C4 (as stated) fails on a valid job whose animation lasts zero
    milliseconds: the sample count is [0], so [stepMs] is [0 / 0 = NaN], the
    only tick is invoked with [NaN], and [stepMs * sampleCount] is not the
    duration. *)
Lemma zero_duration_step_is_not_a_number :
  viewport_exceeds job_zero = false
  /\ getDuration (animation job_zero) = Some 0%Q
  /\ sampleCount 0 (frameRate_used job_zero) = 0
  /\ stepMs 0 0 = NaN
  /\ ticks (trace (snd (Mp4.encodeMp4Animation quiet job_zero viewer0)))
     = [(NaN, 0, 0)]
  /\ ~ is_time (js_mul (inject_Z 0) (stepMs 0 0)) 0.
Proof.
  split_all; try (vm_compute; reflexivity). exact (fun H => H).
Qed.

(** C5 (amended).  In [encodeMp4Animation], as long as the calls of the
    [finally] block return, an error thrown by an external call of the job
    reaches the caller as it is, after the [finally] block has run: the job
    does not return, and the error it throws is the one of the only call that
    threw.  In both revisions of [encodeWebmAnimation], as long as
    [console.error] returns, every error raised in the body, validation
    errors included, is caught and logged with [console.error] and is not
    re-raised: the caller sees a normal return (a promise left pending), in
    the state in which the body failed. *)
Theorem errors_reraised_or_logged env p out s0 :
  restoration_reliable env ->
  (forall h e, throws env h (ConsoleError e) = false) ->
  (forall r s', Mp4.encodeMp4Animation env p s0 = (r, s') ->
      forall k, (List.length (trace s0) <= k)%nat ->
                threw env (trace s') k -> r = Throw (CallFailed k))
  /\ (exists s', WebmDual.encodeWebmAnimation env p out s0 = (Ok tt, s')
       /\ forall e s1, WebmDual.try_block env p out s0 = (Throw e, s1) ->
                       s' = set_trace (trace s1 ++ [ConsoleError e]) s1)
  /\ (exists r s', WebmSingle.encodeWebmAnimation env p s0 = (Ok r, s')
       /\ forall e s1, WebmSingle.try_block env p s0 = (Throw e, s1) ->
                       r = WebmSingle.Pending
                       /\ s' = set_trace (trace s1 ++ [ConsoleError e]) s1).
Proof.
  intros Hrel Hlog. split; [|split].
  - intros r s' Hrun k Hk Ht.
    pose proof (wp_run _ _ _ _ (mp4_propagates env p s0 Hrel) r s' Hrun) as H.
    destruct r as [o|e]; [destruct (H k Hk Ht) | rewrite (H k Hk Ht); reflexivity].
  - pose proof (webm_dual_swallows env p out s0 Hlog) as H.
    destruct (WebmDual.try_block env p out s0) as [[[]|e] s1].
    + exists s1. split; [exact H | discriminate].
    + eexists. split; [exact H|]. intros e' s1' Heq.
      injection Heq as <- <-. reflexivity.
  - pose proof (webm_single_swallows env p s0 Hlog) as H.
    destruct (WebmSingle.try_block env p s0) as [[r|e] s1].
    + exists r, s1. split; [exact H | discriminate].
    + eexists _, _. split; [exact H|]. intros e' s1' Heq.
      injection Heq as <- <-. split; reflexivity.
Qed.

Lemma errors_reraised_or_logged_witness :
  fst (Mp4.encodeMp4Animation (fails_at_tick 1) job_bg viewer1)
  = Throw (CallFailed 14).
Proof.
  destruct (errors_reraised_or_logged (fails_at_tick 1) job_bg "out" viewer1)
    as (Hmp4 & _).
  - unfold restoration_reliable. split_all; intros; reflexivity.
  - intros h e. reflexivity.
  - apply (Hmp4 _ _ (surjective_pairing _) 14%nat).
    + vm_compute. apply le_0_n.
    + exists (LoopTick (js_mul 1 (stepMs 100 3)) 1 3).
      split; vm_compute; reflexivity.
Defined.

(** C5 (as stated) fails on [encodeWebmAnimation]: when the clock tick of the
    second sample throws, the job returns normally, the error having only
    been logged, and the viewer is left with the clock stopped, the animation
    playing and the custom background in place. *)
Lemma webm_swallows_a_sampling_error :
  let run := WebmDual.encodeWebmAnimation (fails_at_tick 1) job_bg "out" viewer1 in
  fst run = Ok tt
  /\ last (trace (snd run)) LoopStart = ConsoleError (CallFailed 10)
  /\ isAnimating viewer1 = true
  /\ isAnimating (snd run) = false
  /\ animationPlaying (snd run) = true
  /\ canvas3d (snd run) <> canvas3d viewer1.
Proof.
  cbv zeta. split_all; try (vm_compute; reflexivity).
  vm_compute. discriminate.
Qed.

(** C6 (code at the failing input).  On a job with the odd viewport width
    801 within bounds, the two-file [encodeWebmAnimation] asks the frame
    source for the even-aligned viewport, 800 wide, but tells both ffmpeg
    commands the size 801x800 of the target; [encodeMp4Animation] gives the
    encoder the even-aligned 800x800. *)
Theorem webm_encoder_gets_unaligned_size :
  let webm := snd (WebmDual.encodeWebmAnimation quiet job_odd "out" viewer0) in
  let mp4 := snd (Mp4.encodeMp4Animation quiet job_odd viewer0) in
  map (fun f => vp_width (img_viewport f)) (images webm) = [800; 800; 800; 800]
  /\ ffmpeg_sizes (trace webm) = [(801, 800); (801, 800)]
  /\ map (fun f => vp_width (img_viewport f)) (enc_frames (encoder mp4))
     = [800; 800; 800; 800]
  /\ (enc_width (encoder mp4), enc_height (encoder mp4)) = (800, 800).
Proof.
  cbv zeta. split_all; vm_compute; reflexivity.
Qed.

(** C7 (code at the failing input).  On a job with a custom background, the
    two-file [encodeWebmAnimation] sets the background colour and switches
    the transparent-background flag on; [encodeMp4Animation] and the one-file
    [encodeWebmAnimation] switch it off. *)
Theorem webm_custom_background_turns_transparency_on :
  In (CanvasSetProps (Some 255) (Some true) true)
     (trace (snd (WebmDual.encodeWebmAnimation quiet job_bg "out" viewer1)))
  /\ canvas3d (snd (WebmDual.encodeWebmAnimation quiet job_bg "out" viewer1))
     = Some (mkCanvasProps 255 true)
  /\ canvas3d (snd (WebmSingle.encodeWebmAnimation quiet job_bg viewer1))
     = Some (mkCanvasProps 255 false)
  /\ In (CanvasSetProps (Some 255) (Some false) true)
        (trace (snd (Mp4.encodeMp4Animation quiet job_bg viewer1))).
Proof.
  split_all; try (vm_compute; reflexivity).
  - vm_compute. do 4 right. left. reflexivity.
  - vm_compute. do 6 right. left. reflexivity.
Qed.




(** C9 (amended).  [encodeMp4Animation] calls [encoder.delete] on exactly
    the exit paths on which [encoder.finalize] has returned, and then once;
    a job that returns has called it.  When sampling or finalization fails,
    the encoder is left undisposed. *)
Theorem encoder_disposed_iff_finalized env p s0 r s' :
  trace s0 = [] ->
  enc_finalized (encoder s0) = false ->
  Mp4.encodeMp4Animation env p s0 = (r, s') ->
  ((calls is_delete (trace s') = [EncoderDelete]
    /\ calls is_finalize (trace s') = [EncoderFinalize]
    /\ enc_finalized (encoder s') = true)
   \/ (calls is_delete (trace s') = []
       /\ enc_finalized (encoder s') = false))
  /\ (is_ok r = true -> calls is_delete (trace s') = [EncoderDelete]).
Proof.
  intros Htr Henc Hrun.
  pose proof (wp_run _ _ _ _ (mp4_disposal env p s0 Htr Henc) r s' Hrun) as H.
  destruct r as [o|e].
  - destruct H as [H1 H2]. split; [exact H1 | intros _; exact H2].
  - split; [exact H | discriminate].
Qed.

Lemma encoder_disposed_iff_finalized_witness :
  calls is_delete
    (trace (snd (Mp4.encodeMp4Animation quiet job_bg viewer1)))
  = [EncoderDelete].
Proof.
  destruct (encoder_disposed_iff_finalized quiet job_bg viewer1
              (fst (Mp4.encodeMp4Animation quiet job_bg viewer1))
              (snd (Mp4.encodeMp4Animation quiet job_bg viewer1)))
    as (_ & H).
  - reflexivity.
  - reflexivity.
  - apply surjective_pairing.
  - apply H. vm_compute. reflexivity.
Defined.

(** C9 (as stated) fails when sampling fails: the encoder has been created
    and initialized, the job throws, and [encoder.delete] is never called. *)
Lemma encoder_leaks_when_sampling_fails :
  let run := Mp4.encodeMp4Animation (fails_at_tick 1) job_bg viewer1 in
  fst run = Throw (CallFailed 14)
  /\ In CreateH264MP4Encoder (trace (snd run))
  /\ enc_initialized (encoder (snd run)) = true
  /\ ~ In EncoderDelete (trace (snd run))
  /\ enc_deleted (encoder (snd run)) = false.
Proof.
  cbv zeta. split_all; try (vm_compute; reflexivity).
  - vm_compute. right. left. reflexivity.
  - vm_compute. intros H.
    repeat (destruct H as [H|H]; [discriminate H|]). exact H.
Qed.



(** ** Even alignment *)

Lemma even_align_rem v : Z.rem (even_align v) 2 = 0.
Proof.
  unfold even_align. destruct (Z.eqb_spec (Z.rem v 2) 0) as [H|H]; [exact H|].
  pose proof (Z.quot_rem' v 2) as Hv.
  pose proof (Z.rem_bound_abs v 2 ltac:(lia)) as Hb.
  pose proof (Z.rem_sign_nz v 2 ltac:(lia) H) as Hs.
  assert (Hr : Z.rem v 2 = 1 \/ Z.rem v 2 = -1) by lia.
  destruct Hr as [Hr|Hr].
  - replace (v - 1) with (Z.quot v 2 * 2) by lia. apply Z.rem_mul. lia.
  - replace (v - 1) with ((Z.quot v 2 - 1) * 2) by lia. apply Z.rem_mul. lia.
Qed.

Lemma even_align_le v : v - 1 <= even_align v <= v.
Proof. unfold even_align. destruct (Z.rem v 2 =? 0); lia. Qed.

(** ** [pad] *)

Lemma string_length_append a b :
  String.length (a ++ b) = (String.length a + String.length b)%nat.
Proof. induction a as [|c a IH]; cbn; [reflexivity | rewrite IH; reflexivity]. Qed.

Lemma zeros_length k : String.length (zeros k) = k.
Proof. induction k as [|k IH]; cbn; [reflexivity | rewrite IH; reflexivity]. Qed.

Lemma zeros_shift k s : (zeros k ++ "0" ++ s = "0" ++ zeros k ++ s)%string.
Proof. induction k as [|k IH]; cbn in *; [reflexivity | rewrite IH; reflexivity]. Qed.

Lemma pad_loop_zeros fuel : forall str len,
  Z.to_nat (len - Z.of_nat (String.length str)) = fuel ->
  pad_loop fuel str len = (zeros fuel ++ str)%string.
Proof.
  induction fuel as [|fuel IH]; intros str len Hfuel; [reflexivity|].
  cbn [pad_loop]. destruct (Z.ltb_spec (Z.of_nat (String.length str)) len); [|lia].
  rewrite IH by (cbn [String.length append]; lia).
  rewrite zeros_shift. reflexivity.
Qed.

Lemma pad_zeros n len :
  pad n len
  = (zeros (Z.to_nat (len - Z.of_nat (String.length (number_to_string n))))
     ++ number_to_string n)%string.
Proof. unfold pad. apply pad_loop_zeros. reflexivity. Qed.

Lemma uint_of_zeros k s :
  NilEmpty.uint_of_string (zeros k ++ s)
  = option_map (Nat.iter k Decimal.D0) (NilEmpty.uint_of_string s).
Proof.
  induction k as [|k IH].
  - cbn [zeros append]. destruct (NilEmpty.uint_of_string s); reflexivity.
  - cbn [zeros append NilEmpty.uint_of_string]. rewrite IH.
    destruct (NilEmpty.uint_of_string s); reflexivity.
Qed.

Lemma of_uint_zeros k d : Z.of_uint (Nat.iter k Decimal.D0 d) = Z.of_uint d.
Proof. induction k as [|k IH]; [reflexivity | exact IH]. Qed.

(** The padded numeral of a number that is not negative reads back as the
    number. *)
Lemma pad_reads_back n len :
  0 <= n ->
  option_map Z.of_int (NilZero.int_of_string (pad n len)) = Some n.
Proof.
  intros Hn. rewrite pad_zeros. unfold number_to_string.
  set (k := Z.to_nat _). clearbody k.
  assert (Hd : exists d, Z.to_int n = Decimal.Pos d /\ d <> Decimal.Nil).
  { destruct n as [|p|p]; [eexists; split; [reflexivity | discriminate] | | lia].
    exists (Pos.to_uint p). split; [reflexivity|].
    apply DecimalPos.Unsigned.to_uint_nonnil. }
  destruct Hd as (d & Hd & Hnil).
  pose proof (DecimalZ.of_to n) as Hback. rewrite Hd in *.
  cbn [NilZero.string_of_int]. unfold NilZero.string_of_uint.
  replace (match d with Decimal.Nil => "0"%string | _ => NilEmpty.string_of_uint d end)
    with (NilEmpty.string_of_uint d) by (destruct d; congruence).
  assert (Hparse : NilEmpty.uint_of_string (zeros k ++ NilEmpty.string_of_uint d)
                   = Some (Nat.iter k Decimal.D0 d)).
  { rewrite uint_of_zeros, NilEmpty.usu. reflexivity. }
  unfold NilZero.int_of_string, NilZero.uint_of_string.
  destruct (zeros k ++ NilEmpty.string_of_uint d)%string as [|a s] eqn:Hs.
  - destruct k; [|discriminate Hs]. destruct d; try discriminate Hs. congruence.
  - assert (Ha : Ascii.eqb a (Ascii.Ascii true false true true false true false false) = false).
    { destruct k; cbn in Hs; [|injection Hs as <- _; reflexivity].
      destruct d; try discriminate Hs; injection Hs as <- _; reflexivity. }
    rewrite Ha, Hparse. cbn [option_map Z.of_int].
    rewrite of_uint_zeros. exact (f_equal Some Hback).
Qed.

(** ** Further runs of [encodeWebmAnimation] *)

Lemma ffmpeg_sizes_app a b :
  ffmpeg_sizes (a ++ b) = ffmpeg_sizes a ++ ffmpeg_sizes b.
Proof. apply flat_map_app. Qed.

Lemma ffmpeg_rates_app a b :
  ffmpeg_rates (a ++ b) = ffmpeg_rates a ++ ffmpeg_rates b.
Proof. apply flat_map_app. Qed.

Lemma ffmpeg_files_app a b :
  ffmpeg_files (a ++ b) = ffmpeg_files a ++ ffmpeg_files b.
Proof. apply flat_map_app. Qed.

Lemma progress_app a b : progress (a ++ b) = progress a ++ progress b.
Proof. apply flat_map_app. Qed.

Ltac command_facts :=
  rewrite ?ffmpeg_sizes_app, ?ffmpeg_rates_app, ?ffmpeg_files_app;
  cbn [ffmpeg_sizes ffmpeg_rates ffmpeg_files flat_map ffmpeg_size_of
       ffmpeg_rate_of ffmpeg_file_of app];
  rewrite ?app_nil_r.

(** When no call throws, the two-file routine starts two ffmpeg commands and
    leaves the viewer as the sampling left it. *)
Lemma webm_dual_commands_quiet env p out s0 d :
  never_throws env ->
  viewport_exceeds p = false ->
  getDuration (animation p) = Some d ->
  wp (WebmDual.encodeWebmAnimation env p out)
     (fun _ s' =>
        ffmpeg_sizes (trace s')
        = ffmpeg_sizes (trace s0) ++ [(width p, height p); (width p, height p)]
        /\ ffmpeg_rates (trace s')
           = ffmpeg_rates (trace s0) ++ [frameRate_used p; frameRate_used p]
        /\ ffmpeg_files (trace s')
           = ffmpeg_files (trace s0) ++ [(out ++ ".mov")%string; (out ++ ".webm")%string]
        /\ isAnimating s' = false
        /\ animationPlaying s' = true
        /\ canvas3d s' = overridden true p (canvas3d s0)
        /\ passPostprocessing s'
           = merge (passPostprocessing s0) (postprocessing p))
     (fun _ _ => False) s0.
Proof.
  intros Hq Hvp Hd.
  unfold WebmDual.encodeWebmAnimation, WebmDual.try_block, validateViewport,
    overridden.
  rewrite Hvp, Hd. cbv zeta.
  change (WebmDual.resolve_fps (fps p)) with (frameRate_used p).
  set (N := sampleCount d (frameRate_used p)).
  destruct (customBackground p) as [c|] eqn:Hbg.
  all: wp_go Hq.
  all: apply wp_for_to with
    (Inv := fun (_ : Z) s =>
       ffmpeg_sizes (trace s) = ffmpeg_sizes (trace s0)
       /\ ffmpeg_rates (trace s) = ffmpeg_rates (trace s0)
       /\ ffmpeg_files (trace s) = ffmpeg_files (trace s0)
       /\ isAnimating s = false
       /\ animationPlaying s = true
       /\ canvas3d s = overridden true p (canvas3d s0)
       /\ passPostprocessing s
          = merge (passPostprocessing s0) (postprocessing p));
    [ unfold overridden; simpl_state; command_facts; rewrite ?Hbg;
      use_facts; cbn [option_map]; auto 12
    | intros i s _ (H1 & H2 & H3 & H4 & H5 & H6 & H7);
      unfold WebmDual.sample, getImageData; wp_go Hq;
      command_facts; auto 12
    | intros s (H1 & H2 & H3 & H4 & H5 & H6 & H7);
      wp_go Hq; command_facts; unfold overridden in H6; rewrite Hbg in H6;
      rewrite H1, H2, H3, H6, <- ?app_assoc; cbn [app]; use_facts;
      cbn [option_map]; auto 12 ].
Qed.

Lemma webm_dual_sample_untouched env p nvp N dt i (P : list Call -> Prop) s :
  (forall tr c, P tr -> is_restoration c = false -> is_encoder_call c = false ->
                P (tr ++ [c])) ->
  P (trace s) ->
  wp (WebmDual.sample env p nvp N dt i)
     (fun _ s' => P (trace s')) (fun _ s' => P (trace s')) s.
Proof.
  intros Hsnoc HP. unfold WebmDual.sample, getImageData. wp_split.
  all: simpl_state; repeat (apply Hsnoc; [|reflexivity|reflexivity]); exact HP.
Qed.

Lemma webm_single_sample_untouched env p nvp N dt i (P : list Call -> Prop) s :
  (forall tr c, P tr -> is_restoration c = false -> is_encoder_call c = false ->
                P (tr ++ [c])) ->
  P (trace s) ->
  wp (WebmSingle.sample env p nvp N dt i)
     (fun _ s' => P (trace s')) (fun _ s' => P (trace s')) s.
Proof.
  intros Hsnoc HP. unfold WebmSingle.sample, getImageData. wp_split.
  all: simpl_state; repeat (apply Hsnoc; [|reflexivity|reflexivity]); exact HP.
Qed.

(** Whatever fails, the two-file routine makes only calls that neither
    restore the viewer nor touch the in-process encoder. *)
Lemma webm_dual_untouched env p out (P : list Call -> Prop) s0 :
  (forall tr c, P tr -> is_restoration c = false -> is_encoder_call c = false ->
                P (tr ++ [c])) ->
  P (trace s0) ->
  wp (WebmDual.encodeWebmAnimation env p out)
     (fun _ s' => P (trace s')) (fun _ s' => P (trace s')) s0.
Proof.
  intros Hsnoc HP.
  unfold WebmDual.encodeWebmAnimation, WebmDual.try_block, validateViewport.
  destruct (viewport_exceeds p);
    [wp_split; simpl_state;
     repeat (apply Hsnoc; [|reflexivity|reflexivity]); exact HP|].
  destruct (getDuration (animation p)) as [d|];
    [|wp_split; simpl_state;
      repeat (apply Hsnoc; [|reflexivity|reflexivity]); exact HP].
  cbv zeta.
  destruct (customBackground p) as [c|].
  all: wp_split.
  all: try (once (lazymatch goal with |- wp _ _ _ _ => fail | _ => idtac end;
                  simpl_state;
                  repeat (apply Hsnoc; [|reflexivity|reflexivity]); exact HP)).
  all: apply wp_for_to with (Inv := fun (_ : Z) s' => P (trace s'));
    [ simpl_state; repeat (apply Hsnoc; [|reflexivity|reflexivity]); exact HP
    | intros i s1 _ H1;
      eapply wp_mono;
      [apply (webm_dual_sample_untouched env p _ _ _ i P s1 Hsnoc H1) | |];
      cbn beta; [auto|];
      intros e s2 H2; wp_split; simpl_state;
      repeat (apply Hsnoc; [|reflexivity|reflexivity]); exact H2
    | intros s1 H1; wp_split; simpl_state;
      repeat (apply Hsnoc; [|reflexivity|reflexivity]); exact H1 ].
Qed.

Lemma webm_single_untouched env p (P : list Call -> Prop) s0 :
  (forall tr c, P tr -> is_restoration c = false -> is_encoder_call c = false ->
                P (tr ++ [c])) ->
  P (trace s0) ->
  wp (WebmSingle.encodeWebmAnimation env p)
     (fun _ s' => P (trace s')) (fun _ s' => P (trace s')) s0.
Proof.
  intros Hsnoc HP.
  unfold WebmSingle.encodeWebmAnimation, WebmSingle.try_block, validateViewport.
  destruct (viewport_exceeds p);
    [wp_split; simpl_state;
     repeat (apply Hsnoc; [|reflexivity|reflexivity]); exact HP|].
  destruct (getDuration (animation p)) as [d|];
    [|wp_split; simpl_state;
      repeat (apply Hsnoc; [|reflexivity|reflexivity]); exact HP].
  cbv zeta.
  destruct (customBackground p) as [c|].
  all: wp_split.
  all: try (once (lazymatch goal with |- wp _ _ _ _ => fail | _ => idtac end;
                  simpl_state;
                  repeat (apply Hsnoc; [|reflexivity|reflexivity]); exact HP)).
  all: apply wp_for_to with (Inv := fun (_ : Z) s' => P (trace s'));
    [ simpl_state; repeat (apply Hsnoc; [|reflexivity|reflexivity]); exact HP
    | intros i s1 _ H1;
      eapply wp_mono;
      [apply (webm_single_sample_untouched env p _ _ _ i P s1 Hsnoc H1) | |];
      cbn beta; [auto|];
      intros e s2 H2; wp_split; simpl_state;
      repeat (apply Hsnoc; [|reflexivity|reflexivity]); exact H2
    | intros s1 H1; wp_split; simpl_state;
      repeat (apply Hsnoc; [|reflexivity|reflexivity]); exact H1 ].
Qed.

(** When no call throws, the one-file routine starts one ffmpeg command,
    writing a file that does not depend on the job. *)
Lemma webm_single_commands_quiet env p s0 d :
  never_throws env ->
  viewport_exceeds p = false ->
  getDuration (animation p) = Some d ->
  wp (WebmSingle.encodeWebmAnimation env p)
     (fun _ s' =>
        ffmpeg_sizes (trace s')
        = ffmpeg_sizes (trace s0) ++ [(width p, height p)]
        /\ ffmpeg_rates (trace s')
           = ffmpeg_rates (trace s0) ++ [frameRate_used p]
        /\ ffmpeg_files (trace s')
           = ffmpeg_files (trace s0) ++ ["../outputs_1qtn-4/video.webm"%string]
        /\ isAnimating s' = false
        /\ animationPlaying s' = true
        /\ canvas3d s' = overridden false p (canvas3d s0)
        /\ passPostprocessing s'
           = merge (passPostprocessing s0) (postprocessing p))
     (fun _ _ => False) s0.
Proof.
  intros Hq Hvp Hd.
  unfold WebmSingle.encodeWebmAnimation, WebmSingle.try_block, validateViewport,
    overridden.
  rewrite Hvp, Hd. cbv zeta.
  change (WebmSingle.resolve_fps (fps p)) with (frameRate_used p).
  set (N := sampleCount d (frameRate_used p)).
  destruct (customBackground p) as [c|] eqn:Hbg.
  all: wp_go Hq.
  all: apply wp_for_to with
    (Inv := fun (_ : Z) s =>
       ffmpeg_sizes (trace s) = ffmpeg_sizes (trace s0)
       /\ ffmpeg_rates (trace s) = ffmpeg_rates (trace s0)
       /\ ffmpeg_files (trace s) = ffmpeg_files (trace s0)
       /\ isAnimating s = false
       /\ animationPlaying s = true
       /\ canvas3d s = overridden false p (canvas3d s0)
       /\ passPostprocessing s
          = merge (passPostprocessing s0) (postprocessing p));
    [ unfold overridden; simpl_state; command_facts; rewrite ?Hbg;
      use_facts; cbn [option_map]; auto 12
    | intros i s _ (H1 & H2 & H3 & H4 & H5 & H6 & H7);
      unfold WebmSingle.sample, getImageData; wp_go Hq;
      command_facts; auto 12
    | intros s (H1 & H2 & H3 & H4 & H5 & H6 & H7);
      unfold overridden in H6; rewrite Hbg in H6;
      wp_go Hq; command_facts;
      rewrite ?H1, ?H2, ?H3, ?H6, <- ?app_assoc; cbn [app]; use_facts;
      cbn [option_map]; auto 12 ].
Qed.

(** ** Further runs of [Mp4.encodeMp4Animation] *)

Lemma threw_bound env tr k : threw env tr k -> (k < List.length tr)%nat.
Proof. intros (c & Hn & _). apply nth_error_Some. congruence. Qed.

Lemma last_throw_here env tr c :
  throws env tr c = true -> last_throw env (tr ++ [c]) (List.length tr).
Proof.
  intros H. split; [apply threw_last, H|].
  intros k' Hk Ht. apply threw_bound in Ht.
  rewrite length_app in Ht. cbn in Ht. lia.
Qed.

Lemma last_throw_snoc env tr c k :
  last_throw env tr k -> throws env tr c = false ->
  last_throw env (tr ++ [c]) k.
Proof.
  intros [Ht Hl] Hf. split; [apply threw_snoc_l, Ht|].
  intros k' Hk Ht'. apply threw_snoc in Ht'.
  destruct Ht' as [Ht'|[_ Ht']]; [exact (Hl k' Hk Ht') | congruence].
Qed.

(** A call that throws is the last throw of the trace it ends. *)
Ltac solve_last :=
  lazymatch goal with
  | |- wp _ _ _ _ => fail
  | H : throws _ _ _ = true |- exists k, CallFailed _ = CallFailed k /\ _ =>
      simpl_state; eexists; split; [reflexivity | apply last_throw_here; exact H]
  end.

Lemma mp4_sample_last env p nvp N dt i s :
  wp (Mp4.sample env p nvp N dt i)
     (fun _ _ => True)
     (fun e s' => exists k, e = CallFailed k /\ last_throw env (trace s') k) s.
Proof.
  unfold Mp4.sample, getImageData. wp_split.
  all: first [ solve_last | exact I ].
Qed.

Lemma mp4_try_block_last env p d nvp s :
  wp (Mp4.try_block env p d nvp)
     (fun _ _ => True)
     (fun e s' => exists k, e = CallFailed k /\ last_throw env (trace s') k) s.
Proof.
  unfold Mp4.try_block.
  destruct (customBackground p) as [c|].
  all: wp_split.
  all: try (once solve_last).
  all: apply wp_for_to with (Inv := fun (_ : Z) (_ : State) => True);
    [ exact I
    | intros i s1 _ _; apply (mp4_sample_last env p _ _ _ i s1)
    | ].
  all: intros s1 _; wp_split.
  all: first [ solve_last | exact I ].
Qed.

(** The restoration path under arbitrary failures: what is known of the
    trace survives the calls that return, and a call that throws is the last
    throw. *)
Lemma mp4_finally_last env p cv wa (P : list Call -> Prop) s :
  (forall tr c, P tr -> throws env tr c = false -> P (tr ++ [c])) ->
  P (trace s) ->
  wp (Mp4.finally_block env p cv wa)
     (fun _ s' => P (trace s'))
     (fun e s' => exists k, e = CallFailed k /\ last_throw env (trace s') k) s.
Proof.
  intros Hsnoc HP. unfold Mp4.finally_block.
  destruct (customBackground p) as [c|]; wp_split.
  all: first [ solve_last
             | repeat (apply Hsnoc; [|assumption]); exact HP ].
Qed.

(** The error a job ends with is the one of the last call that threw. *)
Lemma mp4_last_throw env p s0 :
  wp (Mp4.encodeMp4Animation env p)
     (fun _ s' => clean env (List.length (trace s0)) (trace s'))
     (fun e s' =>
        match e with
        | CallFailed k => last_throw env (trace s') k
        | _ => clean env (List.length (trace s0)) (trace s')
        end) s0.
Proof.
  assert (H0 : clean env (List.length (trace s0)) (trace s0)).
  { intros k Hk Ht. apply threw_bound in Ht. lia. }
  unfold Mp4.encodeMp4Animation, validateViewport.
  destruct (viewport_exceeds p); [wp_split; first [apply last_throw_here; assumption | solve_clean]|].
  destruct (getDuration (animation p)) as [d|];
    [|wp_split; first [apply last_throw_here; assumption | solve_clean]].
  cbv zeta. wp_split.
  all: try (once (lazymatch goal with
                  | |- wp _ _ _ _ => fail
                  | _ => first [ simpl_state; apply last_throw_here; assumption
                               | solve_clean ]
                  end)).
  eapply wp_mono;
    [ apply wp_and;
      [ apply (mp4_try_block_clean env (List.length (trace s0))); solve_clean
      | apply mp4_try_block_last ]
    | | ];
    cbn beta; intros ? s1 [H1 Hx].
  - eapply wp_mono;
      [apply (mp4_finally_last env p _ _
                (clean env (List.length (trace s0))) s1);
       [intros; apply clean_snoc; assumption | exact H1] | |];
      cbn beta; [auto|].
    intros e s2 (k & -> & Hk). exact Hk.
  - destruct Hx as (k & -> & Hk).
    eapply wp_mono;
      [apply (mp4_finally_last env p _ _ (fun tr => last_throw env tr k) s1);
       [intros; apply last_throw_snoc; assumption | exact Hk] | |];
      cbn beta; [auto|].
    intros e s2 (k' & -> & Hk'). exact Hk'.
Qed.

(** *** The calls of a failed sampling *)

Lemma firstn_seq_le n : forall a M,
  (n <= M)%nat -> firstn n (seq a M) = seq a n.
Proof.
  induction n as [|n IH]; intros a M H; [reflexivity|].
  destruct M as [|M]; [lia|]. cbn. f_equal. apply IH. lia.
Qed.

Lemma firstn_map_zrange {A} (f : Z -> A) n M :
  (n <= M)%nat -> firstn n (map f (zrange 0 M)) = map f (zrange 0 n).
Proof.
  intros H. unfold zrange. rewrite !firstn_map, firstn_seq_le by exact H.
  reflexivity.
Qed.

Lemma sampled_prefix_intro p r d A0 T0 tr (n m : nat) :
  let N := sampleCount d r in
  (n <= m <= n + 1)%nat ->
  (m <= Z.to_nat (N + 1))%nat ->
  added tr = A0 ++ map (frame_at p (stepMs d N)) (zrange 0 n) ->
  ticks tr
  = T0 ++ map (fun i => (js_mul (inject_Z i) (stepMs d N), i, N)) (zrange 0 m) ->
  sampled_prefix p r d A0 T0 tr.
Proof.
  intros N Hnm Hm Ha Ht. exists n, m. unfold frames_at, ticks_at. fold N.
  rewrite !firstn_map_zrange by lia.
  rewrite length_map, zrange_length. auto.
Qed.

Lemma sampled_prefix_snoc p r d A0 T0 tr c :
  sampled_prefix p r d A0 T0 tr -> added_of c = [] -> tick_of c = [] ->
  sampled_prefix p r d A0 T0 (tr ++ [c]).
Proof.
  intros (n & m & Ha & Ht & H) Hc1 Hc2. exists n, m.
  rewrite added_app, ticks_app. cbn [added ticks flat_map].
  rewrite Hc1, Hc2, !app_nil_r. auto.
Qed.

Ltac solve_prefix Hi Ha Ht :=
  lazymatch goal with
  | |- wp _ _ _ _ => fail
  | |- sampled_prefix _ _ _ _ _ _ => idtac
  end;
  simpl_state;
  lazymatch goal with
  | |- sampled_prefix ?p ?r ?d ?A0 ?T0 ?tr =>
      first
        [ apply (sampled_prefix_intro p r d A0 T0 tr (Z.to_nat Hi) (Z.to_nat (Hi + 1)));
          [ lia | lia
          | trace_facts; rewrite ?Ha; reflexivity
          | trace_facts; rewrite zrange_next, !map_app by lia; cbn [map];
            rewrite ?Ht, <- ?app_assoc; reflexivity ]
        | apply (sampled_prefix_intro p r d A0 T0 tr (Z.to_nat (Hi + 1)) (Z.to_nat (Hi + 1)));
          [ lia | lia
          | trace_facts; rewrite zrange_next, !map_app by lia; cbn [map];
            rewrite ?Ha, <- ?app_assoc; reflexivity
          | trace_facts; rewrite zrange_next, !map_app by lia; cbn [map];
            rewrite ?Ht, <- ?app_assoc; reflexivity ] ]
  end.

Lemma mp4_sample_prefix env p r d A0 T0 i s :
  let N := sampleCount d r in
  0 <= i <= N ->
  added (trace s) = A0 ++ map (frame_at p (stepMs d N)) (zrange 0 (Z.to_nat i)) ->
  ticks (trace s)
  = T0 ++ map (fun i => (js_mul (inject_Z i) (stepMs d N), i, N))
              (zrange 0 (Z.to_nat i)) ->
  wp (Mp4.sample env p (normalized p) N (stepMs d N) i)
     (fun _ s' =>
        added (trace s')
        = A0 ++ map (frame_at p (stepMs d N)) (zrange 0 (Z.to_nat (i + 1)))
        /\ ticks (trace s')
           = T0 ++ map (fun i => (js_mul (inject_Z i) (stepMs d N), i, N))
                       (zrange 0 (Z.to_nat (i + 1))))
     (fun _ s' => sampled_prefix p r d A0 T0 (trace s')) s.
Proof.
  intros N Hi Ha Ht. unfold Mp4.sample, getImageData. wp_split.
  all: fold (frame_at p (stepMs d N) i).
  all: try (once (solve_prefix i Ha Ht)).
  all: trace_facts; rewrite zrange_next, !map_app by lia; cbn [map];
    rewrite Ha, Ht, <- !app_assoc; auto.
Qed.

Ltac solve_prefix_still HP :=
  lazymatch goal with
  | |- wp _ _ _ _ => fail
  | |- sampled_prefix _ _ _ _ _ _ =>
      simpl_state;
      repeat (apply sampled_prefix_snoc; [|reflexivity|reflexivity]);
      exact HP
  end.

Lemma sampled_prefix_none p r d tr :
  sampled_prefix p r d (added tr) (ticks tr) tr.
Proof.
  exists O, O. cbn [firstn]. rewrite !app_nil_r. repeat split; lia.
Qed.

Lemma mp4_try_block_prefix env p r d s :
  enc_frameRate (encoder s) = r ->
  wp (Mp4.try_block env p d (normalized p))
     (fun _ s' =>
        sampled_prefix p r d (added (trace s)) (ticks (trace s)) (trace s'))
     (fun _ s' =>
        sampled_prefix p r d (added (trace s)) (ticks (trace s)) (trace s'))
     s.
Proof.
  intros Hrate.
  pose proof (sampled_prefix_none p r d (trace s)) as HP.
  unfold Mp4.try_block.
  destruct (customBackground p) as [c|].
  all: wp_split.
  all: try (once (solve_prefix_still HP)).
  all: rewrite Hrate; set (N := sampleCount d r).
  all: apply wp_for_to with
    (Inv := fun i s' =>
       0 <= i
       /\ added (trace s')
          = added (trace s)
            ++ map (frame_at p (stepMs d N)) (zrange 0 (Z.to_nat i))
       /\ ticks (trace s')
          = ticks (trace s)
            ++ map (fun i => (js_mul (inject_Z i) (stepMs d N), i, N))
                   (zrange 0 (Z.to_nat i)));
    [ simpl_state; trace_facts; cbn [Z.to_nat zrange seq map];
      rewrite ?app_nil_r; auto with zarith
    | intros i s1 Hi (H0 & Ha & Ht);
      eapply wp_mono;
      [apply (mp4_sample_prefix env p r d _ _ i s1 Hi Ha Ht) | |];
      cbn beta; [|auto];
      intros ? s2 [Ha2 Ht2]; split; [lia | split; assumption]
    | ].
  all: intros s1 (H0 & Ha & Ht).
  all: assert (HP1 : sampled_prefix p r d (added (trace s)) (ticks (trace s))
                                    (trace s1))
    by (apply (sampled_prefix_intro p r d _ _ _ (Z.to_nat (Z.max 0 (N + 1)))
                 (Z.to_nat (Z.max 0 (N + 1)))); [lia | fold N; lia | exact Ha | exact Ht]).
  all: wp_split.
  all: solve_prefix_still HP1.
Qed.

(** The restoration path makes only restoring calls and [delete]. *)
Lemma mp4_finally_any env p cv wa (P : list Call -> Prop) s :
  (forall tr c, P tr -> is_restoration c = true \/ c = EncoderDelete ->
                P (tr ++ [c])) ->
  P (trace s) ->
  wp (Mp4.finally_block env p cv wa)
     (fun _ s' => P (trace s')) (fun _ s' => P (trace s')) s.
Proof.
  intros Hsnoc HP. unfold Mp4.finally_block.
  destruct (customBackground p) as [c|]; wp_split.
  all: simpl_state;
    repeat (apply Hsnoc; [|first [left; reflexivity | right; reflexivity]]);
    exact HP.
Qed.

Lemma restoring_makes_no_sample c :
  is_restoration c = true \/ c = EncoderDelete ->
  added_of c = [] /\ tick_of c = [].
Proof.
  intros [H | ->]; [|split; reflexivity].
  destruct c; try discriminate H; split; reflexivity.
Qed.

(** Whatever fails, the frames handed to the encoder and the ticks made are
    a beginning of the schedule at the frame rate the encoder holds. *)
Lemma mp4_prefix env p s0 d :
  getDuration (animation p) = Some d ->
  wp (Mp4.encodeMp4Animation env p)
     (fun _ s' =>
        sampled_prefix p (rate_in_encoder env p) d
                       (added (trace s0)) (ticks (trace s0)) (trace s'))
     (fun _ s' =>
        sampled_prefix p (rate_in_encoder env p) d
                       (added (trace s0)) (ticks (trace s0)) (trace s'))
     s0.
Proof.
  intros Hd.
  set (r := rate_in_encoder env p).
  pose proof (sampled_prefix_none p r d (trace s0)) as HP.
  destruct (configured_facts env p) as (Hrate & _). fold r in Hrate.
  unfold Mp4.encodeMp4Animation, validateViewport.
  destruct (viewport_exceeds p); [wp_split; solve_prefix_still HP|].
  rewrite Hd. cbv zeta. wp_split.
  all: try (once (solve_prefix_still HP)).
  fold (configured env p). fold (normalized p).
  assert (Hfin : forall s1,
             sampled_prefix p r d (added (trace s0)) (ticks (trace s0)) (trace s1) ->
             wp (Mp4.finally_block env p (canvas3d s0) (isAnimating s0))
                (fun _ s2 => sampled_prefix p r d (added (trace s0))
                                            (ticks (trace s0)) (trace s2))
                (fun _ s2 => sampled_prefix p r d (added (trace s0))
                                            (ticks (trace s0)) (trace s2)) s1).
  { intros s1 H1. apply mp4_finally_any; [|exact H1].
    intros tr c Htr Hc. destruct (restoring_makes_no_sample c Hc).
    apply sampled_prefix_snoc; assumption. }
  eapply wp_mono;
    [ apply (mp4_try_block_prefix env p r); simpl_state; exact Hrate | | ];
    cbn beta; simpl_state; trace_facts; intros ? s1 H1; apply Hfin, H1.
Qed.

(** *** The promise of the one-file routine *)

Lemma webm_single_sample_clean env n0 p nvp N dt i s :
  clean env n0 (trace s) ->
  wp (WebmSingle.sample env p nvp N dt i)
     (fun _ s' => clean env n0 (trace s')) (fun _ _ => True) s.
Proof.
  intros H. unfold WebmSingle.sample, getImageData. wp_split.
  all: first [ exact I | solve_clean ].
Qed.

(** The body answers a rejected promise only after a run in which no call
    threw, and only when the ffmpeg command fails. *)
Lemma webm_single_try_block_clean env n0 p s :
  clean env n0 (trace s) ->
  wp (WebmSingle.try_block env p)
     (fun r s' =>
        clean env n0 (trace s')
        /\ r = (if ffmpegFails env then WebmSingle.Rejected FfmpegError
                else WebmSingle.Pending))
     (fun _ _ => True) s.
Proof.
  intros H. unfold WebmSingle.try_block, validateViewport.
  destruct (viewport_exceeds p); [wp_split; exact I|].
  destruct (getDuration (animation p)) as [d|]; [|wp_split; exact I].
  cbv zeta.
  destruct (customBackground p) as [c|].
  all: wp_split.
  all: try (once (lazymatch goal with |- wp _ _ _ _ => fail | _ => exact I end)).
  all: apply wp_for_to with (Inv := fun (_ : Z) s' => clean env n0 (trace s'));
    [ solve_clean
    | intros i s1 _ H1; apply (webm_single_sample_clean env n0 p _ _ _ i s1 H1)
    | ].
  all: clear H; intros s1 H; wp_split.
  all: first [ exact I | split; [solve_clean | reflexivity] ].
Qed.

Lemma webm_single_promise env p s0 :
  wp (WebmSingle.encodeWebmAnimation env p)
     (fun r s' =>
        r = WebmSingle.Pending
        \/ (r = WebmSingle.Rejected FfmpegError
            /\ ffmpegFails env = true
            /\ clean env (List.length (trace s0)) (trace s')))
     (fun _ _ => False) s0.
Proof.
  assert (H0 : clean env (List.length (trace s0)) (trace s0)).
  { intros k Hk Ht. apply threw_bound in Ht. lia. }
  unfold WebmSingle.encodeWebmAnimation.
  apply wp_try_catch, wp_try_catch.
  eapply wp_mono;
    [apply (webm_single_try_block_clean env _ p s0 H0) | |]; cbn beta.
  - intros r s1 [Hc Hr]. destruct (ffmpegFails env); auto.
  - intros e s1 _. wp_split; left; reflexivity.
Qed.

(** *** Progress reports *)

Lemma zrange_in lo n k : In k (zrange lo n) -> lo <= k < lo + Z.of_nat n.
Proof.
  unfold zrange. rewrite in_map_iff. intros (j & <- & Hj).
  apply in_seq in Hj. lia.
Qed.

Lemma select_next (f f' : Z -> bool) i :
  0 <= i ->
  (forall k, 0 <= k < i -> f' k = f k) ->
  filter f' (zrange 0 (Z.to_nat (i + 1)))
  = filter f (zrange 0 (Z.to_nat i)) ++ (if f' i then [i] else []).
Proof.
  intros Hi Hsame. rewrite zrange_next, filter_app by exact Hi. f_equal.
  apply filter_ext_in. intros k Hk. apply zrange_in in Hk.
  apply Hsame. lia.
Qed.

Ltac progress_facts :=
  rewrite ?progress_app;
  cbn [progress flat_map progress_of app];
  rewrite ?app_nil_r.

Lemma read_point_grow tr n0 i h c :
  read_point tr n0 i h -> read_point (tr ++ [c]) n0 i h.
Proof.
  intros (h0 & img & rest & Hh & Htr & Hlen).
  exists h0, img, (rest ++ [c]). rewrite Htr, app_assoc. auto.
Qed.

(** A trace has one read point per sample. *)
Lemma read_point_unique tr n0 i h h' :
  read_point tr n0 i h -> read_point tr n0 i h' -> h = h'.
Proof.
  assert (Hext : forall (a b l : list Call) a0 b0 img img',
             a = a0 ++ [EncoderAddFrameRgba img] ->
             b = b0 ++ [EncoderAddFrameRgba img'] ->
             a = b ++ l ->
             List.length (added a) = List.length (added b) ->
             a = b).
  { intros a b l a0 b0 img img' Ha Hb Hab Hlen.
    destruct l as [|y l]; [rewrite app_nil_r in Hab; exact Hab|].
    exfalso.
    destruct (@exists_last _ (y :: l)) as (l' & x & Hl); [discriminate|].
    rewrite Hl, app_assoc in Hab. subst a.
    apply app_inj_tail in Hab. destruct Hab as [Ha0 _].
    rewrite Ha0, !added_app, !length_app in Hlen. cbn in Hlen. lia. }
  intros (h0 & img & rest & Hh & Htr & Hlen)
         (h0' & img' & rest' & Hh' & Htr' & Hlen').
  rewrite Htr in Htr'. apply app_eq_app in Htr'.
  destruct Htr' as (l & [[H1 _]|[H1 _]]).
  - apply (Hext h h' l h0 h0' img img' Hh Hh' H1). lia.
  - symmetry. apply (Hext h' h l h0' h0 img' img Hh' Hh H1). lia.
Qed.

Lemma mp4_sample_progress env p nvp N dt i P0 n0 s :
  never_throws env ->
  0 <= i ->
  reported_so_far env P0 n0 i s ->
  wp (Mp4.sample env p nvp N dt i)
     (fun _ s' => reported_so_far env P0 n0 (i + 1) s')
     (fun _ _ => False) s.
Proof.
  intros Hq Hi (H & Hp & Hlen & Hread).
  unfold Mp4.sample, getImageData. wp_go Hq.
  all: match goal with
       | Hu : shouldUpdate _ ?h = _ |- _ =>
           exists (fun k => if k =? i then h else H k)
       end.
  all: rewrite (select_next (fun k => shouldUpdate env (H k)))
    by first [ exact Hi
             | intros k Hk; destruct (Z.eqb_spec k i); [lia | reflexivity] ].
  all: rewrite Z.eqb_refl.
  all: match goal with Hu : shouldUpdate _ _ = _ |- _ => rewrite Hu end.
  all: simpl_state; progress_facts; trace_facts; rewrite ?length_app;
    cbn [List.length].
  all: split;
    [rewrite Hp, ?map_app; cbn [map]; rewrite <- ?app_assoc, ?app_nil_r;
     reflexivity|].
  all: split; [rewrite Hlen; lia|].
  all: intros k Hk; destruct (Z.eqb_spec k i) as [->|Hne];
    [ eexists _, _, _; split; [reflexivity|]; split;
      [ first [reflexivity | symmetry; apply app_nil_r]
      | trace_facts; rewrite ?length_app; cbn [List.length]; rewrite Hlen;
        lia ]
    | repeat apply read_point_grow; apply Hread; lia ].
Qed.

(** When no call throws, the job reports its progress in order, after the
    samples at which [ctx.shouldUpdate] is true. *)
Lemma mp4_progress env p s0 d :
  never_throws env ->
  accepts env p ->
  viewport_exceeds p = false ->
  getDuration (animation p) = Some d ->
  let N := sampleCount d (rate_in_encoder env p) in
  let n0 := List.length (added (trace s0)) in
  wp (Mp4.encodeMp4Animation env p)
     (fun _ s' =>
        exists H : Z -> list Call,
          progress (trace s')
          = progress (trace s0)
            ++ progress_of_job N (fun i => shouldUpdate env (H i))
          /\ forall i, 0 <= i <= N -> read_point (trace s') n0 i (H i))
     (fun _ _ => False) s0.
Proof.
  intros Hq (HaW & HaH & HaQ & HaF) Hvp Hd N n0.
  destruct (configured_facts env p) as (Hrate & _).
  unfold Mp4.encodeMp4Animation, validateViewport, Mp4.try_block,
    Mp4.finally_block, progress_of_job.
  rewrite Hvp, Hd. cbv zeta.
  destruct (customBackground p) as [c|] eqn:Hbg.
  all: wp_go Hq.
  all: try (once (refused_contra HaW HaH HaQ HaF)).
  all: fold (configured env p); rewrite Hrate; fold N.
  all: apply wp_for_to with
    (Inv := fun i s =>
       0 <= i
       /\ reported_so_far env
            (progress (trace s0) ++ [Initializing; Rendering 0 (N + 1)])
            n0 i s);
    [ cbn beta; split; [lia|]; exists (fun _ => []); simpl_state;
      progress_facts; trace_facts;
      cbn [Z.to_nat zrange seq map filter];
      rewrite ?app_nil_r, <- ?app_assoc; cbn [app];
      split; [reflexivity|]; split; [unfold n0; lia|]; intros k Hk; lia
    | intros i s [_ Hi] (H0 & Hf);
      eapply wp_mono;
      [apply (mp4_sample_progress env p _ _ _ i _ n0 s Hq H0 Hf) | |];
      cbn beta; [|intros ? ? []];
      intros ? s2 H2; split; [lia | exact H2]
    | intros s (Hpos & Hist & Hp & Hlen & Hread);
      replace (Z.to_nat (Z.max 0 (N + 1))) with (Z.to_nat (N + 1)) in * by lia;
      wp_go Hq; exists Hist; progress_facts;
      (split; [rewrite Hp, <- ?app_assoc; cbn [app]; reflexivity|]);
      intros k Hk; simpl_state; repeat apply read_point_grow;
      apply Hread; lia ].
Qed.

(** ** The command-line renderer *)

(** The loop over the files makes the calls in order and stops with the
    first that fails. *)
Lemma for_of_stops_at_first_failure host input out files : forall done,
  let jobs :=
    map (fun file =>
           Renderer.dispatch (Renderer.join host input file) file out) files in
  match snd (Renderer.for_of host input out done files) with
  | None =>
      fst (Renderer.for_of host input out done files) = done ++ jobs
      /\ forall n j,
          nth_error jobs n = Some j ->
          Renderer.processFile_fails host (done ++ firstn n jobs) j = false
  | Some e =>
      exists n j,
        nth_error jobs n = Some j
        /\ fst (Renderer.for_of host input out done files)
           = done ++ firstn (S n) jobs
        /\ e = Renderer.ProcessFileFailed j
        /\ Renderer.processFile_fails host (done ++ firstn n jobs) j = true
        /\ forall m j',
            (m < n)%nat ->
            nth_error jobs m = Some j' ->
            Renderer.processFile_fails host (done ++ firstn m jobs) j' = false
  end.
Proof.
  induction files as [|file rest IH]; intros done; cbv zeta.
  - cbn. rewrite app_nil_r. split; [reflexivity|].
    intros [|n] j Hn; discriminate Hn.
  - cbn [Renderer.for_of map]. cbv zeta.
    set (job := Renderer.dispatch (Renderer.join host input file) file out).
    destruct (Renderer.processFile_fails host done job) eqn:Hf.
    + cbn [fst snd]. exists O, job. cbn [nth_error firstn].
      rewrite app_nil_r. split_all; try reflexivity; [exact Hf|].
      intros m j' Hm. lia.
    + specialize (IH (done ++ [job])). cbv zeta in IH.
      destruct (snd (Renderer.for_of host input out (done ++ [job]) rest))
        as [e|].
      * destruct IH as (n & j & Hn & Hdone & He & Hfail & Hbefore).
        exists (S n), j. cbn [nth_error firstn].
        rewrite <- app_assoc in Hdone, Hfail. cbn [app] in Hdone, Hfail.
        split_all; try assumption.
        intros [|m] j' Hm Hj'; cbn [nth_error firstn] in *.
        -- injection Hj' as <-. rewrite app_nil_r. exact Hf.
        -- specialize (Hbefore m j' ltac:(lia) Hj').
           rewrite <- app_assoc in Hbefore. exact Hbefore.
      * destruct IH as (Hdone & Hnone).
        rewrite <- app_assoc in Hdone. cbn [app] in Hdone.
        split; [exact Hdone|].
        intros [|n] j Hj; cbn [nth_error firstn] in *.
        -- injection Hj as <-. rewrite app_nil_r. exact Hf.
        -- specialize (Hnone n j Hj).
           rewrite <- app_assoc in Hnone. exact Hnone.
Qed.

Lemma dispatch_type filePath file out :
  Renderer.filePath (Renderer.dispatch filePath file out) = filePath
  /\ Renderer.outDirectory (Renderer.dispatch filePath file out) = out
  /\ (Renderer.fileType (Renderer.dispatch filePath file out) = Renderer.pdb
      <-> Renderer.endsWith file ".pdb" = true).
Proof.
  unfold Renderer.dispatch.
  destruct (Renderer.endsWith file ".pdb"); cbn; repeat split;
    congruence.
Qed.

Lemma in_firstn {A} (x : A) n : forall l, In x (firstn n l) -> In x l.
Proof.
  induction n as [|n IH]; intros [|y l] H; cbn in *; try contradiction.
  destruct H as [H|H]; [left; exact H | right; exact (IH l H)].
Qed.

(** *** No use of the encoder after its disposal *)

Lemma delete_last_intro l (b : bool) :
  calls is_delete l = [] ->
  delete_is_last (calls is_encoder_call l ++ if b then [EncoderDelete] else []).
Proof.
  intros Hdel.
  assert (Hno : ~ In EncoderDelete (calls is_encoder_call l)).
  { intros Hin. apply filter_In in Hin. destruct Hin as [Hin _].
    assert (Hd : In EncoderDelete (calls is_delete l))
      by (apply filter_In; split; [exact Hin | reflexivity]).
    rewrite Hdel in Hd. exact Hd. }
  intros l1 l2 Heq. destruct b.
  - destruct l2 as [|y l2]; [reflexivity|]. exfalso.
    destruct (@exists_last _ (y :: l2)) as (l2' & x & Hl); [discriminate|].
    rewrite Hl in Heq. apply Hno.
    change (l1 ++ EncoderDelete :: l2' ++ [x])
      with (l1 ++ (EncoderDelete :: l2') ++ [x]) in Heq.
    rewrite app_assoc in Heq. apply app_inj_tail in Heq.
    destruct Heq as [Heq _]. rewrite Heq. apply in_elt.
  - exfalso. apply Hno. rewrite app_nil_r in Heq. rewrite Heq. apply in_elt.
Qed.

Lemma mp4_finally_encoder_calls env p cv wa s :
  wp (Mp4.finally_block env p cv wa)
     (fun _ s' =>
        exists b : bool,
          calls is_encoder_call (trace s')
          = calls is_encoder_call (trace s)
            ++ if b then [EncoderDelete] else [])
     (fun _ s' =>
        exists b : bool,
          calls is_encoder_call (trace s')
          = calls is_encoder_call (trace s)
            ++ if b then [EncoderDelete] else []) s.
Proof.
  unfold Mp4.finally_block.
  destruct (customBackground p) as [c|]; wp_split.
  all: simpl_state; rewrite ?calls_app;
    cbn [calls filter is_encoder_call app]; rewrite ?app_nil_r;
    first [ exists true; reflexivity
          | exists false; rewrite app_nil_r; reflexivity ].
Qed.

(** Whatever fails, [delete] is the last call the job makes on the
    encoder. *)
Lemma mp4_delete_last env p s0 :
  trace s0 = [] ->
  wp (Mp4.encodeMp4Animation env p)
     (fun _ s' => delete_is_last (calls is_encoder_call (trace s')))
     (fun _ s' => delete_is_last (calls is_encoder_call (trace s'))) s0.
Proof.
  intros Htr.
  destruct (configured_facts env p) as (_ & _ & _ & _ & _ & Hcf & _).
  assert (Hearly : forall l, calls is_delete l = [] ->
                             delete_is_last (calls is_encoder_call l)).
  { intros l Hl. pose proof (delete_last_intro l false Hl) as H.
    rewrite app_nil_r in H. exact H. }
  unfold Mp4.encodeMp4Animation, validateViewport.
  destruct (viewport_exceeds p);
    [wp_split; apply Hearly; simpl_state; rewrite Htr; reflexivity|].
  destruct (getDuration (animation p)) as [d|];
    [|wp_split; apply Hearly; simpl_state; rewrite Htr; reflexivity].
  cbv zeta. wp_split.
  all: fold (configured env p).
  all: try (once (lazymatch goal with
                  | |- wp _ _ _ _ => fail
                  | _ => apply Hearly; simpl_state; rewrite Htr; reflexivity
                  end)).
  assert (Hfin : forall s1,
             disposable s1 ->
             wp (Mp4.finally_block env p (canvas3d s0) (isAnimating s0))
                (fun _ s2 => delete_is_last (calls is_encoder_call (trace s2)))
                (fun _ s2 => delete_is_last (calls is_encoder_call (trace s2)))
                s1).
  { intros s1 [Hdel _].
    eapply wp_mono; [apply mp4_finally_encoder_calls | |]; cbn beta;
      intros ? s2 [b Hb]; rewrite Hb; apply delete_last_intro, Hdel. }
  eapply wp_mono;
    [apply mp4_try_block_disposable | |];
    [ unfold undisposed; simpl_state; calls_facts; rewrite Htr; cbn; auto
    | cbn beta; simpl_state; intros ? s1 [H1 _]; apply Hfin, H1
    | cbn beta; simpl_state; intros ? s1 H1; apply Hfin, H1 ].
Qed.

(** *** What the ffmpeg commands are given under failures *)

Ltac solve_inputs Hm :=
  lazymatch goal with
  | |- wp _ _ _ _ => fail
  | _ => idtac
  end;
  simpl_state; trace_facts;
  first
    [ exists 0%nat; cbn [repeat]; rewrite ?app_nil_r;
      split; [lia | solve [auto | rewrite Hm; auto]]
    | exists 1%nat; cbn [repeat];
      split; [lia | solve [rewrite Hm, <- ?app_assoc; reflexivity]]
    | exists 2%nat; cbn [repeat];
      split; [lia | solve [rewrite Hm, <- ?app_assoc; reflexivity]] ].

Lemma webm_dual_sample_inputs env p d i s :
  let N := sampleCount d (frameRate_used p) in
  0 <= i ->
  images s = map (frame_at p (stepMs d N)) (zrange 0 (Z.to_nat i)) ->
  wp (WebmDual.sample env p (normalized p) N (stepMs d N) i)
     (fun _ s' =>
        images s' = map (frame_at p (stepMs d N)) (zrange 0 (Z.to_nat (i + 1)))
        /\ ffmpeg_inputs (trace s') = ffmpeg_inputs (trace s))
     (fun _ s' => ffmpeg_inputs (trace s') = ffmpeg_inputs (trace s)) s.
Proof.
  intros N Hi Him. unfold WebmDual.sample, getImageData. wp_split.
  all: trace_facts; try reflexivity.
  split; [|reflexivity].
  rewrite zrange_next, map_app by exact Hi. cbn [map]. rewrite Him.
  reflexivity.
Qed.

Lemma webm_single_sample_inputs env p d i s :
  let N := sampleCount d (frameRate_used p) in
  0 <= i ->
  images s = map (frame_at p (stepMs d N)) (zrange 0 (Z.to_nat i)) ->
  wp (WebmSingle.sample env p (normalized p) N (stepMs d N) i)
     (fun _ s' =>
        images s' = map (frame_at p (stepMs d N)) (zrange 0 (Z.to_nat (i + 1)))
        /\ ffmpeg_inputs (trace s') = ffmpeg_inputs (trace s))
     (fun _ s' => ffmpeg_inputs (trace s') = ffmpeg_inputs (trace s)) s.
Proof.
  intros N Hi Him. unfold WebmSingle.sample, getImageData. wp_split.
  all: trace_facts; try reflexivity.
  split; [|reflexivity].
  rewrite zrange_next, map_app by exact Hi. cbn [map]. rewrite Him.
  reflexivity.
Qed.

(** Whatever fails, an ffmpeg command of the two-file routine is given the
    frames of the whole schedule. *)
Lemma webm_dual_inputs env p out s0 d :
  getDuration (animation p) = Some d ->
  wp (WebmDual.encodeWebmAnimation env p out)
     (fun _ s' =>
        exists k, (k <= 2)%nat
                  /\ ffmpeg_inputs (trace s')
                     = ffmpeg_inputs (trace s0) ++ repeat (frames_of p d) k)
     (fun _ s' =>
        exists k, (k <= 2)%nat
                  /\ ffmpeg_inputs (trace s')
                     = ffmpeg_inputs (trace s0) ++ repeat (frames_of p d) k)
     s0.
Proof.
  intros Hd.
  unfold WebmDual.encodeWebmAnimation, WebmDual.try_block, validateViewport.
  destruct (viewport_exceeds p); [wp_split; solve_inputs Hd|].
  rewrite Hd. cbv zeta.
  change (WebmDual.resolve_fps (fps p)) with (frameRate_used p).
  fold (normalized p).
  set (N := sampleCount d (frameRate_used p)).
  destruct (customBackground p) as [c|].
  all: wp_split.
  all: try (once (solve_inputs Hd)).
  all: apply wp_for_to with
    (Inv := fun i s =>
       0 <= i
       /\ images s = map (frame_at p (stepMs d N)) (zrange 0 (Z.to_nat i))
       /\ ffmpeg_inputs (trace s) = ffmpeg_inputs (trace s0));
    [ simpl_state; trace_facts; cbn [Z.to_nat zrange seq map]; auto with zarith
    | intros i s [_ Hi] (H0 & Him & Hm);
      eapply wp_mono;
      [apply (webm_dual_sample_inputs env p d i s H0 Him) | |]; cbn beta;
      [ intros ? s2 [H1 H2]; split; [lia | split; [exact H1 | congruence]]
      | intros e s2 H2; rewrite <- Hm in *; wp_split; solve_inputs H2 ]
    | intros s (H0 & Him & Hm);
      replace (Z.to_nat (Z.max 0 (N + 1))) with (Z.to_nat (N + 1)) in * by lia;
      fold (frames_of p d) in Him; wp_split; rewrite ?Him; solve_inputs Hm ].
Qed.

Lemma webm_single_inputs env p s0 d :
  getDuration (animation p) = Some d ->
  wp (WebmSingle.encodeWebmAnimation env p)
     (fun _ s' =>
        exists k, (k <= 1)%nat
                  /\ ffmpeg_inputs (trace s')
                     = ffmpeg_inputs (trace s0) ++ repeat (frames_of p d) k)
     (fun _ _ => False) s0.
Proof.
  intros Hd.
  unfold WebmSingle.encodeWebmAnimation, WebmSingle.try_block, validateViewport.
  destruct (viewport_exceeds p); [wp_split; solve_inputs Hd|].
  rewrite Hd. cbv zeta.
  change (WebmSingle.resolve_fps (fps p)) with (frameRate_used p).
  fold (normalized p).
  set (N := sampleCount d (frameRate_used p)).
  destruct (customBackground p) as [c|].
  all: wp_split.
  all: try (once (solve_inputs Hd)).
  all: apply wp_for_to with
    (Inv := fun i s =>
       0 <= i
       /\ images s = map (frame_at p (stepMs d N)) (zrange 0 (Z.to_nat i))
       /\ ffmpeg_inputs (trace s) = ffmpeg_inputs (trace s0));
    [ simpl_state; trace_facts; cbn [Z.to_nat zrange seq map]; auto with zarith
    | intros i s [_ Hi] (H0 & Him & Hm);
      eapply wp_mono;
      [apply (webm_single_sample_inputs env p d i s H0 Him) | |]; cbn beta;
      [ intros ? s2 [H1 H2]; split; [lia | split; [exact H1 | congruence]]
      | intros e s2 H2; rewrite <- Hm in *; wp_split; solve_inputs H2 ]
    | intros s (H0 & Him & Hm);
      replace (Z.to_nat (Z.max 0 (N + 1))) with (Z.to_nat (N + 1)) in * by lia;
      fold (frames_of p d) in Him; wp_split; rewrite ?Him; solve_inputs Hm ].
Qed.

(** *** No ffmpeg command after a failure *)

Lemma follow_start env tr : commands_follow_returns env (List.length tr) tr.
Proof.
  intros h c rest Heq Hlen _. exfalso.
  apply (f_equal (@List.length Call)) in Heq.
  rewrite length_app in Heq. cbn [List.length] in Heq. lia.
Qed.

Lemma follow_snoc env n0 tr c :
  commands_follow_returns env n0 tr ->
  is_ffmpeg c = false \/ clean env n0 tr ->
  commands_follow_returns env n0 (tr ++ [c]).
Proof.
  intros Hf Hc h c' rest Heq Hlen Hff.
  destruct (@exists_last _ (c' :: rest)) as (l & x & Hl); [discriminate|].
  change (h ++ c' :: rest) with (h ++ (c' :: rest)) in Heq.
  rewrite Hl, app_assoc in Heq. apply app_inj_tail in Heq.
  destruct Heq as [Htr <-].
  destruct l as [|y l].
  - cbn in Hl. injection Hl as -> _. rewrite app_nil_r in Htr. subst h.
    destruct Hc as [Hc|Hc]; [congruence | exact Hc].
  - cbn in Hl. injection Hl as <- ->.
    apply (Hf h c' l Htr Hlen Hff).
Qed.

Lemma follow_snoc_other env n0 tr c :
  commands_follow_returns env n0 tr ->
  is_ffmpeg c = false ->
  commands_follow_returns env n0 (tr ++ [c]).
Proof. intros Hf Hc. apply follow_snoc; auto. Qed.

Lemma follow_snoc_clean env n0 tr c :
  commands_follow_returns env n0 tr ->
  clean env n0 tr ->
  commands_follow_returns env n0 (tr ++ [c]).
Proof. intros Hf Hc. apply follow_snoc; auto. Qed.

Ltac solve_follow :=
  lazymatch goal with
  | |- wp _ _ _ _ => fail
  | _ => idtac
  end;
  simpl_state;
  solve [ repeat first [ assumption
                       | apply follow_snoc_other; [|reflexivity]
                       | apply follow_snoc_clean; [|solve [solve_clean]] ] ].

Lemma webm_dual_sample_follow env n0 p nvp N dt i s :
  clean env n0 (trace s) /\ commands_follow_returns env n0 (trace s) ->
  wp (WebmDual.sample env p nvp N dt i)
     (fun _ s' =>
        clean env n0 (trace s') /\ commands_follow_returns env n0 (trace s'))
     (fun _ s' => commands_follow_returns env n0 (trace s')) s.
Proof.
  intros [Hc Hf]. unfold WebmDual.sample, getImageData. wp_split.
  all: first [ split; [solve_clean | solve_follow] | solve_follow ].
Qed.

Lemma webm_single_sample_follow env n0 p nvp N dt i s :
  clean env n0 (trace s) /\ commands_follow_returns env n0 (trace s) ->
  wp (WebmSingle.sample env p nvp N dt i)
     (fun _ s' =>
        clean env n0 (trace s') /\ commands_follow_returns env n0 (trace s'))
     (fun _ s' => commands_follow_returns env n0 (trace s')) s.
Proof.
  intros [Hc Hf]. unfold WebmSingle.sample, getImageData. wp_split.
  all: first [ split; [solve_clean | solve_follow] | solve_follow ].
Qed.

(** Whatever fails, the two-file routine starts an ffmpeg command only
    after calls that all returned. *)
Lemma webm_dual_follow env p out s0 :
  wp (WebmDual.encodeWebmAnimation env p out)
     (fun _ s' => commands_follow_returns env (List.length (trace s0)) (trace s'))
     (fun _ s' => commands_follow_returns env (List.length (trace s0)) (trace s'))
     s0.
Proof.
  assert (Hc : clean env (List.length (trace s0)) (trace s0)).
  { intros k Hk Ht. apply threw_bound in Ht. lia. }
  pose proof (follow_start env (trace s0)) as Hf.
  unfold WebmDual.encodeWebmAnimation, WebmDual.try_block, validateViewport.
  destruct (viewport_exceeds p); [wp_split; solve_follow|].
  destruct (getDuration (animation p)) as [d|]; [|wp_split; solve_follow].
  cbv zeta.
  destruct (customBackground p) as [c|].
  all: wp_split.
  all: try (once solve_follow).
  all: apply wp_for_to with
    (Inv := fun (_ : Z) s =>
       clean env (List.length (trace s0)) (trace s)
       /\ commands_follow_returns env (List.length (trace s0)) (trace s));
    [ split; [solve_clean | solve_follow]
    | intros i s1 _ H1;
      eapply wp_mono;
      [apply (webm_dual_sample_follow env _ p _ _ _ i s1 H1) | |]; cbn beta;
      [ auto | intros e s2 H2; wp_split; solve_follow ]
    | clear Hc Hf; intros s1 [Hc Hf]; wp_split; solve_follow ].
Qed.

Lemma webm_single_follow env p s0 :
  wp (WebmSingle.encodeWebmAnimation env p)
     (fun _ s' => commands_follow_returns env (List.length (trace s0)) (trace s'))
     (fun _ _ => False) s0.
Proof.
  assert (Hc : clean env (List.length (trace s0)) (trace s0)).
  { intros k Hk Ht. apply threw_bound in Ht. lia. }
  pose proof (follow_start env (trace s0)) as Hf.
  unfold WebmSingle.encodeWebmAnimation, WebmSingle.try_block, validateViewport.
  destruct (viewport_exceeds p); [wp_split; solve_follow|].
  destruct (getDuration (animation p)) as [d|]; [|wp_split; solve_follow].
  cbv zeta.
  destruct (customBackground p) as [c|].
  all: wp_split.
  all: try (once solve_follow).
  all: apply wp_for_to with
    (Inv := fun (_ : Z) s =>
       clean env (List.length (trace s0)) (trace s)
       /\ commands_follow_returns env (List.length (trace s0)) (trace s));
    [ split; [solve_clean | solve_follow]
    | intros i s1 _ H1;
      eapply wp_mono;
      [apply (webm_single_sample_follow env _ p _ _ _ i s1 H1) | |]; cbn beta;
      [ auto | intros e s2 H2; wp_split; solve_follow ]
    | clear Hc Hf; intros s1 [Hc Hf]; wp_split; solve_follow ].
Qed.

(** * Further properties of the code *)

(** X1.  The even alignment [if (v % 2 !== 0) v -= 1] of a viewport side
    gives, for every integer [v], negative ones included, an even number
    that is [v] or [v - 1]; aligning twice changes nothing more. *)
Theorem even_alignment_rounds_down_to_even v :
  Z.rem (even_align v) 2 = 0
  /\ v - 1 <= even_align v <= v
  /\ even_align (even_align v) = even_align v.
Proof.
  split; [apply even_align_rem|]. split; [apply even_align_le|].
  unfold even_align at 1. rewrite even_align_rem. reflexivity.
Qed.

(** X2.  The viewport that frames are captured with stays inside the
    target: when the viewport of the job passes [validateViewport], its
    normalized form has the same origin, even sides, and still satisfies
    [x + width <= params.width] and [y + height <= params.height]. *)
Theorem normalized_viewport_stays_inside p :
  viewport_exceeds p = false ->
  vp_x (normalized p) = vp_x (viewport p)
  /\ vp_y (normalized p) = vp_y (viewport p)
  /\ Z.rem (vp_width (normalized p)) 2 = 0
  /\ Z.rem (vp_height (normalized p)) 2 = 0
  /\ vp_x (normalized p) + vp_width (normalized p) <= width p
  /\ vp_y (normalized p) + vp_height (normalized p) <= height p.
Proof.
  intros H. unfold viewport_exceeds in H. apply orb_false_iff in H.
  destruct H as [H1 H2]. rewrite Z.gtb_ltb in H1, H2.
  apply Z.ltb_ge in H1, H2.
  unfold normalized. cbn [vp_x vp_y vp_width vp_height].
  pose proof (even_align_le (vp_width (viewport p))).
  pose proof (even_align_le (vp_height (viewport p))).
  repeat split; try apply even_align_rem; lia.
Qed.

Lemma normalized_viewport_stays_inside_witness :
  vp_width (normalized job_odd) = 800
  /\ vp_x (normalized job_odd) + vp_width (normalized job_odd) <= width job_odd.
Proof.
  destruct (normalized_viewport_stays_inside job_odd) as (_ & _ & _ & _ & H & _).
  - reflexivity.
  - split; [reflexivity | exact H].
Defined.

(** X3.  An animation without a duration ([getDuration] answers
    [undefined]) stops every revision right after the first progress update,
    before any render call: [encodeMp4Animation] throws 'The animation does
    not have the duration specified.' without having created an encoder, and
    both revisions of [encodeWebmAnimation] log that error and return (the
    one-file revision with its promise pending). *)
Theorem unspecified_duration_stops_the_job env p out s0 :
  viewport_exceeds p = false ->
  getDuration (animation p) = None ->
  throws env (trace s0) (CtxUpdate Initializing) = false ->
  (forall h e, throws env h (ConsoleError e) = false) ->
  let s1 := logged (CtxUpdate Initializing) s0 in
  Mp4.encodeMp4Animation env p s0 = (Throw DurationUnspecified, s1)
  /\ WebmDual.encodeWebmAnimation env p out s0
     = (Ok tt, logged (ConsoleError DurationUnspecified) s1)
  /\ WebmSingle.encodeWebmAnimation env p s0
     = (Ok WebmSingle.Pending, logged (ConsoleError DurationUnspecified) s1).
Proof.
  intros Hvp Hd Hup Hlog s1.
  unfold Mp4.encodeMp4Animation, WebmDual.encodeWebmAnimation,
    WebmSingle.encodeWebmAnimation, WebmDual.try_block, WebmSingle.try_block,
    try_catch, bind, call, validateViewport, throw, ret.
  rewrite Hvp, Hd, Hup, !Hlog. split_all; reflexivity.
Qed.

Lemma unspecified_duration_stops_the_job_witness :
  Mp4.encodeMp4Animation quiet job_endless viewer0
  = (Throw DurationUnspecified, logged (CtxUpdate Initializing) viewer0).
Proof.
  destruct (unspecified_duration_stops_the_job quiet job_endless "out" viewer0)
    as (H & _).
  - reflexivity.
  - reflexivity.
  - reflexivity.
  - intros h e. reflexivity.
  - exact H.
Defined.

(** X4.  Whatever call fails, whatever setting the encoder refuses, and on
    every exit path, the frames that [encodeMp4Animation] has handed to the
    encoder are the first [n] frames of the schedule and the clock ticks it
    has made are the first [m] ticks of the schedule, with [n <= m <= n + 1]:
    no sample is skipped, repeated or reordered, and no frame is added
    without its tick.  The schedule is the one computed in double arithmetic
    from the frame rate read back from the encoder. *)
Theorem failed_sampling_leaves_a_schedule_prefix env p s0 d r s' :
  getDuration (animation p) = Some d ->
  Mp4.encodeMp4Animation env p s0 = (r, s') ->
  let rate := rate_in_encoder env p in
  exists n m : nat,
    added (trace s') = added (trace s0) ++ firstn n (frames_at p rate d)
    /\ ticks (trace s') = ticks (trace s0) ++ firstn m (ticks_at rate d)
    /\ (n <= m <= n + 1)%nat
    /\ (m <= List.length (ticks_at rate d))%nat.
Proof.
  intros Hd Hrun rate.
  pose proof (wp_run _ _ _ _ (mp4_prefix env p s0 d Hd) r s' Hrun) as H.
  destruct r; exact H.
Qed.

Lemma failed_sampling_leaves_a_schedule_prefix_witness :
  let run := Mp4.encodeMp4Animation (fails_at_tick 1) job_bg viewer1 in
  let rate := rate_in_encoder (fails_at_tick 1) job_bg in
  exists n m : nat,
    added (trace (snd run)) = firstn n (frames_at job_bg rate 100%Q)
    /\ ticks (trace (snd run)) = firstn m (ticks_at rate 100%Q)
    /\ (n <= m <= n + 1)%nat.
Proof.
  intros run rate.
  destruct (failed_sampling_leaves_a_schedule_prefix
              (fails_at_tick 1) job_bg viewer1 100%Q (fst run) (snd run))
    as (n & m & Ha & Ht & Hnm & _).
  - reflexivity.
  - apply surjective_pairing.
  - exists n, m. split_all; [exact Ha | exact Ht | apply Hnm | apply Hnm].
Defined.

(** X5.  The error [encodeMp4Animation] ends with is the one of the last
    call that threw: when it reports the failure of call number [k], that
    call threw and no later call did (a failure in the [finally] block
    replaces the failure of the [try] block); when it returns, or throws one
    of its two validation errors or the refusal of an encoder setting, no
    call of the job threw. *)
Theorem reported_error_is_the_last_throw env p s0 r s' :
  Mp4.encodeMp4Animation env p s0 = (r, s') ->
  (forall k, r = Throw (CallFailed k) -> last_throw env (trace s') k)
  /\ ((forall k, r <> Throw (CallFailed k)) ->
      clean env (List.length (trace s0)) (trace s')).
Proof.
  intros Hrun.
  pose proof (wp_run _ _ _ _ (mp4_last_throw env p s0) r s' Hrun) as H.
  split.
  - intros k ->. exact H.
  - intros Hk. destruct r as [o|[| |k| |f]]; try exact H.
    destruct (Hk k eq_refl).
Qed.

Lemma reported_error_is_the_last_throw_witness :
  last_throw (fails_at_tick 1)
             (trace (snd (Mp4.encodeMp4Animation (fails_at_tick 1) job_bg viewer1)))
             14.
Proof.
  destruct (reported_error_is_the_last_throw
              (fails_at_tick 1) job_bg viewer1
              (fst (Mp4.encodeMp4Animation (fails_at_tick 1) job_bg viewer1))
              (snd (Mp4.encodeMp4Animation (fails_at_tick 1) job_bg viewer1)))
    as (H & _).
  - apply surjective_pairing.
  - apply H. vm_compute. reflexivity.
Defined.

(** X6.  When the sample count, computed from the frame rate read back
    from the encoder, is negative (a negative duration, or a negative frame
    rate that the encoder accepted and kept), the loop
    [for (i = 0; i <= N; i++)] of [encodeMp4Animation] makes no turn: run
    while every call returns and the encoder accepts the settings, the job
    makes no clock tick, adds no frame, and returns the output of an encoder
    that holds no frame, without an error. *)
Theorem negative_schedule_renders_nothing env p s0 d :
  never_throws env ->
  accepts env p ->
  viewport_exceeds p = false ->
  getDuration (animation p) = Some d ->
  sampleCount d (rate_in_encoder env p) < 0 ->
  exists s',
    Mp4.encodeMp4Animation env p s0 = (Ok [], s')
    /\ ticks (trace s') = ticks (trace s0)
    /\ added (trace s') = added (trace s0)
    /\ enc_frames (encoder s') = [].
Proof.
  intros Hq Hacc Hvp Hd HN.
  destruct (wp_returns _ _ _ (mp4_run_quiet env p s0 d Hq Hacc Hvp Hd))
    as (out & s' & Hrun & Hout & Hfr & Ha & Ht & _).
  assert (Hf : frames_at p (rate_in_encoder env p) d = []).
  { unfold frames_at. replace (Z.to_nat (_ + 1)) with O by lia. reflexivity. }
  assert (Hk : ticks_at (rate_in_encoder env p) d = []).
  { unfold ticks_at. replace (Z.to_nat (_ + 1)) with O by lia. reflexivity. }
  rewrite Hf in *. rewrite Hk in *. rewrite app_nil_r in *. subst out.
  exists s'. auto.
Qed.

Lemma negative_schedule_renders_nothing_witness :
  sampleCount (-5000) (rate_in_encoder quiet job_backwards) = -150
  /\ exists s',
      Mp4.encodeMp4Animation quiet job_backwards viewer0 = (Ok [], s')
      /\ ticks (trace s') = [].
Proof.
  split; [vm_compute; reflexivity|].
  destruct (negative_schedule_renders_nothing quiet job_backwards viewer0
                                              (-5000)%Q)
    as (s' & Hrun & Ht & _).
  - intros h c. reflexivity.
  - unfold accepts. split_all; intros; reflexivity.
  - reflexivity.
  - reflexivity.
  - vm_compute. reflexivity.
  - exists s'. split; [exact Hrun | exact Ht].
Defined.

(** X7.  Run while every call returns and the encoder accepts the settings,
    [encodeMp4Animation] reports its progress in this order:
    'Initializing...', then 'Rendering...' with [current = 0] and
    [max = N + 1], then [current = i + 1] for exactly those samples [i] of
    [0 .. N], in increasing order, at which [ctx.shouldUpdate] is true when
    it is read, right after the [encoder.addFrameRgba] of sample [i], then
    the finishing message.  [N] is the sample count computed in double
    arithmetic from the frame rate read back from the encoder. *)
Theorem progress_reports_follow_the_samples env p s0 d :
  never_throws env ->
  accepts env p ->
  viewport_exceeds p = false ->
  getDuration (animation p) = Some d ->
  let N := sampleCount d (rate_in_encoder env p) in
  exists out s' (H : Z -> list Call),
    Mp4.encodeMp4Animation env p s0 = (Ok out, s')
    /\ progress (trace s')
       = progress (trace s0)
         ++ progress_of_job N (fun i => shouldUpdate env (H i))
    /\ forall i,
        0 <= i <= N ->
        read_point (trace s') (List.length (added (trace s0))) i (H i).
Proof.
  intros Hq Hacc Hvp Hd N.
  destruct (wp_returns _ _ _ (mp4_progress env p s0 d Hq Hacc Hvp Hd))
    as (out & s' & Hrun & H & Hp & Hread).
  exists out, s', H. auto.
Qed.

Lemma progress_reports_follow_the_samples_witness :
  exists out s',
    Mp4.encodeMp4Animation quiet job_bg viewer1 = (Ok out, s')
    /\ progress (trace s')
       = [Initializing; Rendering 0 4; Current 1; Current 2; Current 3;
          Current 4; Finishing].
Proof.
  destruct (progress_reports_follow_the_samples quiet job_bg viewer1 100%Q)
    as (out & s' & H & Hrun & Hp & _).
  - intros h c. reflexivity.
  - unfold accepts. split_all; intros; reflexivity.
  - reflexivity.
  - reflexivity.
  - exists out, s'. split; [exact Hrun | exact Hp].
Defined.

(** X8.  The two-file [encodeWebmAnimation] replaces a falsy [fps] by 30
    ([if (!params.fps) params.fps = 30]) and uses the resulting rate, which
    is never 0, both for the schedule of the ticks, computed on doubles, and
    as the input rate [-r] of its two ffmpeg commands, which write
    [outputFilename + '.mov'] and [outputFilename + '.webm'] in this
    order. *)
Theorem webm_commands_run_at_the_resolved_rate env p out s0 d :
  never_throws env ->
  viewport_exceeds p = false ->
  getDuration (animation p) = Some d ->
  exists s',
    WebmDual.encodeWebmAnimation env p out s0 = (Ok tt, s')
    /\ ffmpeg_rates (trace s')
       = ffmpeg_rates (trace s0)
         ++ [WebmDual.resolve_fps (fps p); WebmDual.resolve_fps (fps p)]
    /\ ~ (WebmDual.resolve_fps (fps p) == 0)%Q
    /\ (truthy_opt (fps p) = false -> WebmDual.resolve_fps (fps p) = 30%Q)
    /\ ticks (trace s')
       = ticks (trace s0)
         ++ map (fun i =>
                   let N := sampleCount d (WebmDual.resolve_fps (fps p)) in
                   (js_mul (inject_Z i) (stepMs d N), i, N))
                (zrange 0 (Z.to_nat
                             (sampleCount d (WebmDual.resolve_fps (fps p)) + 1)))
    /\ ffmpeg_files (trace s')
       = ffmpeg_files (trace s0)
         ++ [(out ++ ".mov")%string; (out ++ ".webm")%string].
Proof.
  intros Hq Hvp Hd.
  pose proof (wp_and _ _ _ _ _ _
                (webm_dual_commands_quiet env p out s0 d Hq Hvp Hd)
                (webm_dual_run_quiet env p out s0 d Hq Hvp Hd)) as H.
  apply wp_mono with (Q := fun (_ : unit) s' =>
    (ffmpeg_rates (trace s')
     = ffmpeg_rates (trace s0) ++ [frameRate_used p; frameRate_used p]
     /\ ffmpeg_files (trace s')
        = ffmpeg_files (trace s0)
          ++ [(out ++ ".mov")%string; (out ++ ".webm")%string])
    /\ ticks (trace s') = ticks (trace s0) ++ ticks_of p d)
    (E := fun _ _ => False) in H;
    [ | intros a s' [(_ & H2 & H3 & _) (_ & H5 & _)]; auto | intros e s' [[] _] ].
  apply wp_returns in H. destruct H as ([] & s' & Hrun & (Hr & Hfi) & Ht).
  exists s'. change (WebmDual.resolve_fps (fps p)) with (frameRate_used p).
  split_all; auto.
  - apply frameRate_used_nonzero.
  - unfold frameRate_used, truthy_opt.
    destruct (fps p) as [f|]; [|reflexivity].
    intros ->. reflexivity.
Qed.

Lemma webm_commands_run_at_the_resolved_rate_witness :
  exists s',
    WebmDual.encodeWebmAnimation quiet job_falsy "out" viewer0 = (Ok tt, s')
    /\ ffmpeg_rates (trace s') = [30%Q; 30%Q].
Proof.
  destruct (webm_commands_run_at_the_resolved_rate
              quiet job_falsy "out" viewer0 100%Q)
    as (s' & Hrun & Hr & _).
  - intros h c. reflexivity.
  - reflexivity.
  - reflexivity.
  - exists s'. split; [exact Hrun | exact Hr].
Defined.

(** X9.  Neither revision of [encodeWebmAnimation] ever puts the viewer
    back or touches the in-process encoder: whatever fails, it makes no call
    to [loop.start], to [animation.stop] or to the [canvas3d.setProps] that
    requests a draw, and no call on an H.264 encoder. *)
Theorem webm_never_restores_nor_encodes env p out s0 :
  let s1 := snd (WebmDual.encodeWebmAnimation env p out s0) in
  let s2 := snd (WebmSingle.encodeWebmAnimation env p s0) in
  calls is_restoration (trace s1) = calls is_restoration (trace s0)
  /\ calls is_encoder_call (trace s1) = calls is_encoder_call (trace s0)
  /\ calls is_restoration (trace s2) = calls is_restoration (trace s0)
  /\ calls is_encoder_call (trace s2) = calls is_encoder_call (trace s0).
Proof.
  intros s1 s2.
  set (P := fun tr =>
              calls is_restoration tr = calls is_restoration (trace s0)
              /\ calls is_encoder_call tr = calls is_encoder_call (trace s0)).
  assert (Hsnoc : forall tr c, P tr -> is_restoration c = false ->
                               is_encoder_call c = false -> P (tr ++ [c])).
  { intros tr c [H1 H2] Hr He. unfold P. rewrite !calls_app.
    cbn [calls filter]. rewrite Hr, He, !app_nil_r. split; assumption. }
  assert (HP : P (trace s0)) by (split; reflexivity).
  pose proof (wp_run _ _ _ _ (webm_dual_untouched env p out P s0 Hsnoc HP)
                _ _ (surjective_pairing _)) as H1.
  pose proof (wp_run _ _ _ _ (webm_single_untouched env p P s0 Hsnoc HP)
                _ _ (surjective_pairing _)) as H2.
  assert (H1' : P (trace s1))
    by (destruct (fst (WebmDual.encodeWebmAnimation env p out s0)); exact H1).
  assert (H2' : P (trace s2))
    by (destruct (fst (WebmSingle.encodeWebmAnimation env p s0)); exact H2).
  destruct H1', H2'. auto.
Qed.

(** X10.  After the two-file [encodeWebmAnimation] has run to its end, the
    viewer is left as the sampling left it: the clock is stopped, the
    animation is still playing, the postprocessing properties are the merged
    ones, and a custom background stays on the canvas with the
    transparent-background flag switched on. *)
Theorem webm_leaves_the_viewer_in_export_state env p out s0 d :
  never_throws env ->
  viewport_exceeds p = false ->
  getDuration (animation p) = Some d ->
  exists s',
    WebmDual.encodeWebmAnimation env p out s0 = (Ok tt, s')
    /\ isAnimating s' = false
    /\ animationPlaying s' = true
    /\ canvas3d s' = overridden true p (canvas3d s0)
    /\ passPostprocessing s'
       = merge (passPostprocessing s0) (postprocessing p).
Proof.
  intros Hq Hvp Hd.
  destruct (wp_returns _ _ _ (webm_dual_commands_quiet env p out s0 d Hq Hvp Hd))
    as ([] & s' & Hrun & _ & _ & _ & H).
  exists s'. split; [exact Hrun | exact H].
Qed.

Lemma webm_leaves_the_viewer_in_export_state_witness :
  exists s',
    WebmDual.encodeWebmAnimation quiet job_bg "out" viewer1 = (Ok tt, s')
    /\ isAnimating viewer1 = true
    /\ isAnimating s' = false
    /\ animationPlaying s' = true.
Proof.
  destruct (webm_leaves_the_viewer_in_export_state quiet job_bg "out" viewer1
                                                   100%Q)
    as (s' & Hrun & Hi & Hp & _).
  - intros h c. reflexivity.
  - reflexivity.
  - reflexivity.
  - exists s'. split_all; [exact Hrun | reflexivity | exact Hi | exact Hp].
Defined.

(** X11.  The promise of the one-file [encodeWebmAnimation] is always handed
    to the caller, and it is never resolved.  It is rejected only by the
    'error' event of the ffmpeg command, hence only after a run in which no
    call threw; whenever a call of the body throws, the error is logged and
    the promise stays pending. *)
Theorem webm_promise_is_rejected_only_by_ffmpeg env p s0 :
  exists r s',
    WebmSingle.encodeWebmAnimation env p s0 = (Ok r, s')
    /\ (r = WebmSingle.Pending
        \/ (r = WebmSingle.Rejected FfmpegError
            /\ ffmpegFails env = true
            /\ clean env (List.length (trace s0)) (trace s'))).
Proof.
  destruct (wp_returns _ _ _ (webm_single_promise env p s0))
    as (r & s' & Hrun & H).
  exists r, s'. auto.
Qed.

(** X12.  [pad(number, length)] prepends characters '0' to the decimal
    numeral of the number until it has [length] characters, and nothing
    else: a numeral that is long enough is returned unchanged, never
    truncated, and the result has [max(length, numeral length)]
    characters. *)
Theorem pad_prepends_zeros_up_to_length n len :
  let str := number_to_string n in
  pad n len
  = (zeros (Z.to_nat (len - Z.of_nat (String.length str))) ++ str)%string
  /\ Z.of_nat (String.length (pad n len))
     = Z.max len (Z.of_nat (String.length str))
  /\ (len <= Z.of_nat (String.length str) -> pad n len = str).
Proof.
  intros str. pose proof (pad_zeros n len) as H. fold str in H.
  split; [exact H|]. split.
  - rewrite H, string_length_append, zeros_length. lia.
  - intros Hle. rewrite H. replace (Z.to_nat _) with O by lia. reflexivity.
Qed.

(** X13.  [pad] keeps numbers apart: two different numbers that are not
    negative are padded to different strings, to whatever lengths. *)
Theorem pad_keeps_numbers_apart n m len len' :
  0 <= n -> 0 <= m -> n <> m -> pad n len <> pad m len'.
Proof.
  intros Hn Hm Hne Heq. apply Hne.
  pose proof (pad_reads_back n len Hn) as H1.
  pose proof (pad_reads_back m len' Hm) as H2.
  rewrite Heq, H2 in H1. congruence.
Qed.

Lemma pad_keeps_numbers_apart_witness :
  pad 7 3 = "007"%string /\ pad 7 3 <> pad 70 3.
Proof.
  split; [reflexivity|].
  apply (pad_keeps_numbers_apart 7 70 3 3); lia.
Defined.

(** X14.  Run while every call returns, the one-file [encodeWebmAnimation]
    starts a single ffmpeg command, at the resolved frame rate, and writes
    the file '../outputs_1qtn-4/video.webm' whatever the job is: the output
    path does not depend on the parameters.  Its promise is then pending, or
    rejected when ffmpeg fails. *)
Theorem webm_single_writes_one_fixed_file env p s0 d :
  never_throws env ->
  viewport_exceeds p = false ->
  getDuration (animation p) = Some d ->
  exists r s',
    WebmSingle.encodeWebmAnimation env p s0 = (Ok r, s')
    /\ ffmpeg_files (trace s')
       = ffmpeg_files (trace s0) ++ ["../outputs_1qtn-4/video.webm"%string]
    /\ ffmpeg_rates (trace s')
       = ffmpeg_rates (trace s0) ++ [WebmSingle.resolve_fps (fps p)]
    /\ ffmpeg_inputs (trace s') = ffmpeg_inputs (trace s0) ++ [images s']
    /\ r = (if ffmpegFails env then WebmSingle.Rejected FfmpegError
            else WebmSingle.Pending).
Proof.
  intros Hq Hvp Hd.
  pose proof (wp_and _ _ _ _ _ _
                (webm_single_commands_quiet env p s0 d Hq Hvp Hd)
                (webm_single_run_quiet env p s0 d Hq Hvp Hd)) as H.
  apply wp_mono with (Q := fun r s' =>
    ffmpeg_files (trace s')
    = ffmpeg_files (trace s0) ++ ["../outputs_1qtn-4/video.webm"%string]
    /\ ffmpeg_rates (trace s')
       = ffmpeg_rates (trace s0) ++ [frameRate_used p]
    /\ ffmpeg_inputs (trace s') = ffmpeg_inputs (trace s0) ++ [images s']
    /\ r = (if ffmpegFails env then WebmSingle.Rejected FfmpegError
            else WebmSingle.Pending))
    (E := fun _ _ => False) in H;
    [ | intros a s' [(_ & H2 & H3 & _) (H4 & H5 & _ & H6)]; rewrite H5; auto
      | intros e s' [[] _] ].
  apply wp_returns in H. destruct H as (r & s' & Hrun & H).
  exists r, s'. split; [exact Hrun | exact H].
Qed.

Lemma webm_single_writes_one_fixed_file_witness :
  exists r s',
    WebmSingle.encodeWebmAnimation quiet job_bg viewer1 = (Ok r, s')
    /\ ffmpeg_files (trace s') = ["../outputs_1qtn-4/video.webm"%string].
Proof.
  destruct (webm_single_writes_one_fixed_file quiet job_bg viewer1 100%Q)
    as (r & s' & Hrun & Hf & _).
  - intros h c. reflexivity.
  - reflexivity.
  - reflexivity.
  - exists r, s'. split; [exact Hrun | exact Hf].
Defined.

(** X15.  Whatever fails, [encoder.delete], when it is called, is the last
    call [encodeMp4Animation] makes on the encoder, and it is called at most
    once: the encoder is never configured, fed, finalized or read after its
    disposal. *)
Theorem encoder_is_not_used_after_disposal env p s0 r s' :
  trace s0 = [] ->
  Mp4.encodeMp4Animation env p s0 = (r, s') ->
  forall l1 l2,
    calls is_encoder_call (trace s') = l1 ++ EncoderDelete :: l2 ->
    l2 = [] /\ ~ In EncoderDelete l1.
Proof.
  intros Htr Hrun l1 l2 Heq.
  pose proof (wp_run _ _ _ _ (mp4_delete_last env p s0 Htr) r s' Hrun) as H.
  assert (Hlast : delete_is_last (calls is_encoder_call (trace s')))
    by (destruct r; exact H).
  split; [exact (Hlast l1 l2 Heq)|].
  intros Hin. apply in_split in Hin. destruct Hin as (a & b & ->).
  rewrite <- app_assoc in Heq. cbn [app] in Heq.
  pose proof (Hlast a (b ++ EncoderDelete :: l2) Heq) as Hnil.
  destruct b; discriminate Hnil.
Qed.

Lemma encoder_is_not_used_after_disposal_witness :
  let run := Mp4.encodeMp4Animation quiet job_bg viewer1 in
  exists l1,
    calls is_encoder_call (trace (snd run)) = l1 ++ [EncoderDelete]
    /\ ~ In EncoderDelete l1.
Proof.
  intros run.
  exists (removelast (calls is_encoder_call (trace (snd run)))).
  assert (Heq : calls is_encoder_call (trace (snd run))
                = removelast (calls is_encoder_call (trace (snd run)))
                  ++ [EncoderDelete])
    by (vm_compute; reflexivity).
  split; [exact Heq|].
  apply (encoder_is_not_used_after_disposal quiet job_bg viewer1
           (fst run) (snd run) eq_refl (surjective_pairing _) _ [] Heq).
Defined.

(** X16.  [exportMovie] of the command-line renderer fails only when no
    animation named 'built-in.animate-camera-spin' is registered, and then
    before anything is done to the viewer.  When the animation is
    registered it completes, whatever fails during the export (as long as
    [console.error] returns): the failures of the export stay invisible to
    [processFile]. *)
Theorem export_movie_fails_only_without_the_animation
        env animations stylized filename s0 r s' :
  (forall h e, throws env h (ConsoleError e) = false) ->
  Renderer.exportMovie env animations stylized filename s0 = (r, s') ->
  (r = Renderer.Completed <->
   exists a, In a animations
             /\ Renderer.def_name a = "built-in.animate-camera-spin"%string)
  /\ (r <> Renderer.Completed ->
      r = Renderer.Aborted Renderer.AnimationTypeNotFound /\ s' = s0).
Proof.
  intros Hlog. unfold Renderer.exportMovie.
  destruct (find _ animations) as [anim|] eqn:Hf.
  - assert (Hok : exists s1,
               WebmDual.encodeWebmAnimation
                 env (Renderer.movie_params anim stylized) filename s0
               = (Ok tt, s1)).
    { unfold WebmDual.encodeWebmAnimation, try_catch.
      destruct (WebmDual.try_block _ _ _ s0) as [[[]|e] s1]; [eauto|].
      unfold call. rewrite Hlog. eauto. }
    destruct Hok as (s1 & ->). intros [= <- <-]. split.
    + split; [intros _ | reflexivity].
      apply find_some in Hf. destruct Hf as [Hin Hn].
      apply String.eqb_eq in Hn. eauto.
    + intros H. destruct H. reflexivity.
  - intros [= <- <-]. split.
    + split; [discriminate|]. intros (a & Hin & Hn).
      apply (find_none _ _ Hf) in Hin. cbn beta in Hin.
      rewrite Hn, String.eqb_refl in Hin. discriminate Hin.
    + auto.
Qed.

Lemma export_movie_fails_only_without_the_animation_witness :
  fst (Renderer.exportMovie (fails_at_tick 1) [camera_spin] [] "out" viewer0)
  = Renderer.Completed.
Proof.
  destruct (export_movie_fails_only_without_the_animation
              (fails_at_tick 1) [camera_spin] [] "out" viewer0
              (fst (Renderer.exportMovie (fails_at_tick 1) [camera_spin] []
                                         "out" viewer0))
              (snd (Renderer.exportMovie (fails_at_tick 1) [camera_spin] []
                                         "out" viewer0)))
    as (H & _).
  - intros h e. reflexivity.
  - apply surjective_pairing.
  - apply H. exists camera_spin. split; [left; reflexivity | reflexivity].
Defined.

(** X17.  The export [exportMovie] asks for always passes the viewport
    validation and needs no alignment: run while every call returns, with
    the camera-spin animation registered and lasting [d] milliseconds, it
    renders the [ceil(d / 1000 * 30) + 1] frames of the schedule at 30 frames
    per second, each over the whole 1280 x 720 target, and both ffmpeg
    commands are told that very frame size and rate and write
    [filename + '.mov'] and [filename + '.webm']. *)
Theorem export_movie_frames_fit_the_announced_size
        env animations stylized filename s0 anim d :
  never_throws env ->
  find (fun a => String.eqb (Renderer.def_name a) "built-in.animate-camera-spin")
       animations = Some anim ->
  Renderer.def_duration anim 5000%Q = Some d ->
  exists s',
    Renderer.exportMovie env animations stylized filename s0
    = (Renderer.Completed, s')
    /\ ffmpeg_sizes (trace s')
       = ffmpeg_sizes (trace s0) ++ [(1280, 720); (1280, 720)]
    /\ ffmpeg_rates (trace s') = ffmpeg_rates (trace s0) ++ [30%Q; 30%Q]
    /\ ffmpeg_files (trace s')
       = ffmpeg_files (trace s0)
         ++ [(filename ++ ".mov")%string; (filename ++ ".webm")%string]
    /\ ffmpeg_inputs (trace s')
       = ffmpeg_inputs (trace s0) ++ [images s'; images s']
    /\ List.length (images s') = Z.to_nat (sampleCount d 30%Q + 1)
    /\ Forall (fun img =>
                 img_viewport img = mkViewport 0 0 1280 720
                 /\ img_width img = 1280 /\ img_height img = 720)
              (images s').
Proof.
  intros Hq Hf Hd. unfold Renderer.exportMovie. rewrite Hf.
  set (p := Renderer.movie_params anim stylized).
  assert (Hvp : viewport_exceeds p = false) by reflexivity.
  assert (Hdur : getDuration (animation p) = Some d) by exact Hd.
  pose proof (wp_and _ _ _ _ _ _
                (webm_dual_commands_quiet env p filename s0 d Hq Hvp Hdur)
                (webm_dual_run_quiet env p filename s0 d Hq Hvp Hdur)) as H.
  unfold wp in H.
  destruct (WebmDual.encodeWebmAnimation env p filename s0) as [[[]|e] s'];
    [|destruct H as [[] _]].
  destruct H as [(H1 & H2 & H3 & _) (H4 & _ & H6)].
  exists s'. rewrite H4 in *.
  split_all; auto.
  - apply frames_of_length.
  - unfold frames_of. apply Forall_forall. intros img Hin.
    apply in_map_iff in Hin. destruct Hin as (i & <- & _).
    repeat split.
Qed.

Lemma export_movie_frames_fit_the_announced_size_witness :
  exists s',
    Renderer.exportMovie quiet [camera_spin] [] "out" viewer0
    = (Renderer.Completed, s')
    /\ ffmpeg_sizes (trace s') = [(1280, 720); (1280, 720)]
    /\ List.length (images s') = 151%nat.
Proof.
  destruct (export_movie_frames_fit_the_announced_size
              quiet [camera_spin] [] "out" viewer0 camera_spin 5000%Q)
    as (s' & Hrun & Hs & _ & _ & _ & Hl & _).
  - intros h c. reflexivity.
  - reflexivity.
  - reflexivity.
  - exists s'. split_all; [exact Hrun | exact Hs | exact Hl].
Defined.

(** X18.  Given a directory, [processFilesInDirectory] calls [processFile]
    only for entries whose name ends in '.cif' or '.pdb', in the order of the
    listing, each with the path [path.join(input, file)], as 'pdb' exactly
    when the name ends in '.pdb' and as 'cif' otherwise.  It stops at the
    first call that fails and fails with the failure of that call: the calls
    made are then the entries up to and including the failing one, and no
    earlier call failed.  When it ends without a failure, it has processed
    every such entry and no call failed. *)
Theorem directory_batch_processes_structure_files
        host input out files done err :
  Renderer.isDirectory host input = Some true ->
  Renderer.readdir host input = Some files ->
  Renderer.processFilesInDirectory host input out = (done, err) ->
  let job file :=
    Renderer.dispatch (Renderer.join host input file) file out in
  let jobs := map job (filter Renderer.isStructureFile files) in
  match err with
  | None =>
      done = jobs
      /\ forall n j,
          nth_error jobs n = Some j ->
          Renderer.processFile_fails host (firstn n jobs) j = false
  | Some e =>
      exists n j,
        nth_error jobs n = Some j
        /\ done = firstn (S n) jobs
        /\ e = Renderer.ProcessFileFailed j
        /\ Renderer.processFile_fails host (firstn n jobs) j = true
        /\ forall m j',
            (m < n)%nat ->
            nth_error jobs m = Some j' ->
            Renderer.processFile_fails host (firstn m jobs) j' = false
  end
  /\ Forall (fun j =>
               exists file,
                 In file files
                 /\ Renderer.filePath j = Renderer.join host input file
                 /\ Renderer.outDirectory j = out
                 /\ (Renderer.fileType j = Renderer.pdb
                     <-> Renderer.endsWith file ".pdb" = true)
                 /\ (Renderer.fileType j = Renderer.cif
                     -> Renderer.endsWith file ".cif" = true))
            done.
Proof.
  intros Hdir Hread Hrun job jobs.
  unfold Renderer.processFilesInDirectory in Hrun.
  rewrite Hdir, Hread in Hrun. cbv zeta in Hrun.
  pose proof (for_of_stops_at_first_failure host input out
                (filter Renderer.isStructureFile files) []) as Hloop.
  cbv zeta in Hloop. rewrite Hrun in Hloop. cbn [fst snd app] in Hloop.
  fold job in Hloop. fold jobs in Hloop.
  split; [exact Hloop|].
  assert (Hpre : exists n, done = firstn n jobs).
  { destruct err as [e|].
    - destruct Hloop as (n & j & _ & Hdone & _). exists (S n). exact Hdone.
    - destruct Hloop as [Hdone _]. exists (List.length jobs).
      rewrite firstn_all. exact Hdone. }
  destruct Hpre as (n & Hn).
  rewrite Hn. apply Forall_forall. intros j Hj. apply in_firstn in Hj.
  apply in_map_iff in Hj. destruct Hj as (file & <- & Hfile).
  apply filter_In in Hfile. destruct Hfile as [Hin Hstruct].
  destruct (dispatch_type (Renderer.join host input file) file out)
    as (Hp & Ho & Ht).
  exists file. split_all; try assumption; try apply Ht.
  intros Hcif. unfold Renderer.isStructureFile in Hstruct.
  destruct (Renderer.endsWith file ".cif"); [reflexivity|].
  cbn [orb] in Hstruct. apply Ht in Hstruct. unfold job in Hcif.
  rewrite Hstruct in Hcif. discriminate Hcif.
Qed.

Lemma directory_batch_processes_structure_files_witness :
  let bad := Renderer.mkProcessed "in/bad.pdb" "out/" Renderer.pdb in
  Renderer.processFilesInDirectory folder "in" "out/"
  = ([Renderer.mkProcessed "in/1cbs.cif" "out/" Renderer.cif; bad],
     Some (Renderer.ProcessFileFailed bad))
  /\ exists n j,
      nth_error
        (map (fun file =>
                Renderer.dispatch (Renderer.join folder "in" file) file "out/")
             (filter Renderer.isStructureFile
                     ["1cbs.cif"%string; "notes.txt"%string; "bad.pdb"%string;
                      "1qtn.pdb"%string])) n = Some j
      /\ Renderer.ProcessFileFailed bad = Renderer.ProcessFileFailed j.
Proof.
  intros bad. split; [reflexivity|].
  destruct (directory_batch_processes_structure_files
              folder "in" "out/"
              ["1cbs.cif"%string; "notes.txt"%string; "bad.pdb"%string;
               "1qtn.pdb"%string]
              [Renderer.mkProcessed "in/1cbs.cif" "out/" Renderer.cif; bad]
              (Some (Renderer.ProcessFileFailed bad)))
    as ((n & j & Hn & _ & He & _) & _).
  - reflexivity.
  - reflexivity.
  - reflexivity.
  - exists n, j. split; [exact Hn | exact He].
Defined.

(** X19.  An ffmpeg command is never given a partial video and is never
    started after a failure: whatever call fails, every command that
    [encodeWebmAnimation] starts is given the frames of the whole schedule,
    and all the calls the routine made before it returned; the two-file
    revision starts at most two commands, the one-file revision at most
    one. *)
Theorem ffmpeg_is_given_complete_frame_lists env p out s0 d :
  getDuration (animation p) = Some d ->
  let s1 := snd (WebmDual.encodeWebmAnimation env p out s0) in
  let s2 := snd (WebmSingle.encodeWebmAnimation env p s0) in
  (exists k, (k <= 2)%nat
             /\ ffmpeg_inputs (trace s1)
                = ffmpeg_inputs (trace s0) ++ repeat (frames_of p d) k)
  /\ commands_follow_returns env (List.length (trace s0)) (trace s1)
  /\ (exists k, (k <= 1)%nat
                /\ ffmpeg_inputs (trace s2)
                   = ffmpeg_inputs (trace s0) ++ repeat (frames_of p d) k)
  /\ commands_follow_returns env (List.length (trace s0)) (trace s2).
Proof.
  intros Hd s1 s2.
  pose proof (wp_run _ _ _ _ (webm_dual_inputs env p out s0 d Hd)
                _ _ (surjective_pairing _)) as H1.
  pose proof (wp_run _ _ _ _ (webm_single_inputs env p s0 d Hd)
                _ _ (surjective_pairing _)) as H2.
  pose proof (wp_run _ _ _ _ (webm_dual_follow env p out s0)
                _ _ (surjective_pairing _)) as H3.
  pose proof (wp_run _ _ _ _ (webm_single_follow env p s0)
                _ _ (surjective_pairing _)) as H4.
  split_all.
  - destruct (fst (WebmDual.encodeWebmAnimation env p out s0)); exact H1.
  - destruct (fst (WebmDual.encodeWebmAnimation env p out s0)); exact H3.
  - destruct (fst (WebmSingle.encodeWebmAnimation env p s0));
      [exact H2 | destruct H2].
  - destruct (fst (WebmSingle.encodeWebmAnimation env p s0));
      [exact H4 | destruct H4].
Qed.

Lemma ffmpeg_is_given_complete_frame_lists_witness :
  let s1 := snd (WebmDual.encodeWebmAnimation quiet job_bg "out" viewer1) in
  let s1' :=
    snd (WebmDual.encodeWebmAnimation (fails_at_tick 1) job_bg "out" viewer1) in
  List.length (frames_of job_bg 100%Q) = 4%nat
  /\ (exists k, (1 <= k <= 2)%nat
                /\ ffmpeg_inputs (trace s1) = repeat (frames_of job_bg 100%Q) k)
  /\ commands_follow_returns quiet 0 (trace s1)
  /\ ffmpeg_inputs (trace s1') = []
  /\ commands_follow_returns (fails_at_tick 1) 0 (trace s1').
Proof.
  intros s1 s1'.
  destruct (ffmpeg_is_given_complete_frame_lists
              quiet job_bg "out" viewer1 100%Q eq_refl)
    as ((k & Hk & H) & Hf & _).
  destruct (ffmpeg_is_given_complete_frame_lists
              (fails_at_tick 1) job_bg "out" viewer1 100%Q eq_refl)
    as (_ & Hf' & _).
  split_all;
    [ vm_compute; reflexivity | | exact Hf | vm_compute; reflexivity
    | exact Hf' ].
  exists k. split; [|exact H]. split; [|exact Hk].
  destruct k as [|k]; [|lia].
  vm_compute in H. discriminate H.
Defined.
